(** * RAG news backend: chunking, embedding, vector store, cache and chat turns

    A shallow embedding of the services of the backend
    (chunkerService.js, embeddingService.js, vectorStoreService.js,
    ragService.js, cacheService.js, llmService.js, chatController.js) and
    the properties of its design document that can be stated on them.

    Conventions.
    - A JavaScript string is a [string]; one character stands for one
      UTF-16 code unit, so [String.length] is [text.length].
    - Indices and sizes of the chunker are [Z]: it subtracts the overlap
      from an index and compares the result with 0. The counts of the
      embedding service (batch size, dimension, token budget) are [nat].
    - The clock does not move during one call; it may move between calls.
    - External collaborators (embedding API, Qdrant, Gemini, the optional
      SQL sink of the chat controller) are oracles of
      an environment record; every call is appended to a trace, and an
      oracle sees the trace of the calls made before it, so that a
      collaborator may answer the same request differently over time.
    - Redis is a finite map with expiry times and an availability flag. *)

From Stdlib Require Import ZArith QArith String Ascii List Bool Lia.
From stdpp Require Import base option list gmap strings pretty.

Close Scope Q_scope.
Open Scope string_scope.
Open Scope Z_scope.
Open Scope list_scope.
Open Scope stdpp_scope.

(** ** JavaScript values, truthiness and [||] *)

Inductive JsValue : Type :=
| JsUndefined
| JsNull
| JsBool (b : bool)
| JsNumber (n : Z)
| JsString (s : string).

Definition str_truthy (s : string) : bool :=
  match s with EmptyString => false | _ => true end.

Definition truthy (v : JsValue) : bool :=
  match v with
  | JsUndefined | JsNull => false
  | JsBool b => b
  | JsNumber n => negb (n =? 0)
  | JsString s => str_truthy s
  end.

(** [a || b] on values. *)
Definition js_or (a b : JsValue) : JsValue := if truthy a then a else b.

(** [config.field || d] for a numeric option of a config object. *)
Definition num_or (field : option Z) (d : Z) : Z :=
  match field with
  | Some n => if n =? 0 then d else n
  | None => d
  end.

(** [a || d] where [a] is a string or undefined. *)
Definition str_or (a : option string) (d : string) : string :=
  match a with
  | Some s => if str_truthy s then s else d
  | None => d
  end.

(** ** String primitives *)

Definition LF_char : ascii := ascii_of_nat 10.

Definition LF : string := String LF_char EmptyString.

Definition strlen (s : string) : Z := Z.of_nat (String.length s).

Fixpoint string_drop (k : nat) (s : string) : string :=
  match k, s with
  | O, _ => s
  | S k', String _ s' => string_drop k' s'
  | S _, EmptyString => EmptyString
  end.

(** Scans [text], the part of the whole text from index [i] on, up to
    [steps] characters further, and keeps the last index at which [pat]
    occurs. *)
Fixpoint lastIndexOf_scan (pat text : string) (i : nat) (steps : nat) (found : Z) : Z :=
  let found := if String.prefix pat text then Z.of_nat i else found in
  match steps, text with
  | S steps', String _ rest => lastIndexOf_scan pat rest (S i) steps' found
  | _, _ => found
  end.

(** [text.lastIndexOf(pat, position)]: the greatest index not above
    [position] (clamped to the string) at which [pat] occurs, else -1. *)
Definition lastIndexOf (text pat : string) (position : Z) : Z :=
  let start := Z.min (Z.max position 0) (strlen text) in
  lastIndexOf_scan pat text 0 (Z.to_nat start) (-1).

(** [text.substring(a, b)]: both ends clamped to the string, swapped when
    out of order. *)
Definition js_substring (text : string) (a b : Z) : string :=
  let clamp x := Z.min (Z.max x 0) (strlen text) in
  let lo := Z.min (clamp a) (clamp b) in
  let hi := Z.max (clamp a) (clamp b) in
  String.substring (Z.to_nat lo) (Z.to_nat (hi - lo)) text.

(** ** chunkerService.js *)

Record ChunkerConfig : Type := {
  cfg_maxChunkSize : option Z;
  cfg_overlap : option Z;
  cfg_minChunkSize : option Z
}.

Record ChunkerService : Type := {
  maxChunkSize : Z;
  overlap : Z;
  minChunkSize : Z
}.

Definition newChunkerService (config : ChunkerConfig) : ChunkerService :=
  {| maxChunkSize := num_or (cfg_maxChunkSize config) 1000;
     overlap := num_or (cfg_overlap config) 100;
     minChunkSize := num_or (cfg_minChunkSize config) 100 |}.

Definition emptyChunkerConfig : ChunkerConfig :=
  {| cfg_maxChunkSize := None; cfg_overlap := None; cfg_minChunkSize := None |}.

(** The end index of the window that starts at [startIndex]: the naive
    end, pulled back to a paragraph, sentence or word break. *)
Definition chunkEnd (svc : ChunkerService) (text : string) (startIndex : Z) : Z :=
  let endIndex := startIndex + maxChunkSize svc in
  if endIndex <? strlen text then
    let paragraphBreak := lastIndexOf text (String.append LF LF) endIndex in
    let sentenceBreak := lastIndexOf text ". " endIndex in
    let wordBreak := lastIndexOf text " " endIndex in
    if (paragraphBreak >? startIndex) && (paragraphBreak >? endIndex - 200) then
      paragraphBreak + 2
    else if (sentenceBreak >? startIndex) && (sentenceBreak >? endIndex - 100) then
      sentenceBreak + 2
    else if wordBreak >? startIndex then
      wordBreak + 1
    else endIndex
  else endIndex.

(** One pass through the body of the [while] loop of [chunkText], on the
    loop state [(startIndex, chunks)]. *)
Definition chunkStep (svc : ChunkerService) (text : string)
    (st : Z * list string) : Z * list string :=
  let '(startIndex, chunks) := st in
  let endIndex := chunkEnd svc text startIndex in
  let chunk := js_substring text startIndex endIndex in
  let chunks :=
    if strlen chunk >=? minChunkSize svc then chunks ++ [chunk] else chunks in
  let startIndex := endIndex - overlap svc in
  let startIndex :=
    if (startIndex <=? 0) || (startIndex <=? Z.of_nat (length chunks) - 1)
    then endIndex else startIndex in
  (startIndex, chunks).

(** The [while (startIndex < text.length)] loop. [None] means that the
    loop is still running after [fuel] passes. *)
Fixpoint chunkLoop (fuel : nat) (svc : ChunkerService) (text : string)
    (st : Z * list string) : option (list string) :=
  if fst st <? strlen text then
    match fuel with
    | O => None
    | S fuel' => chunkLoop fuel' svc text (chunkStep svc text st)
    end
  else Some (snd st).

Definition chunkText (fuel : nat) (svc : ChunkerService) (text : string)
    : option (list string) :=
  if strlen text <=? maxChunkSize svc then Some [text]
  else chunkLoop fuel svc text (0, []).

(** The loop state after [n] passes, and the number of passes the loop
    makes when it stops within [fuel] passes. *)
Definition chunkState (svc : ChunkerService) (text : string) (n : nat)
    : Z * list string :=
  Nat.iter n (chunkStep svc text) (0, []).

Fixpoint chunkPasses (fuel : nat) (svc : ChunkerService) (text : string)
    (st : Z * list string) : option nat :=
  if fst st <? strlen text then
    match fuel with
    | O => None
    | S fuel' => S <$> chunkPasses fuel' svc text (chunkStep svc text st)
    end
  else Some O.

Record Document : Type := {
  doc_id : JsValue;
  doc_title : JsValue;
  doc_content : option string;
  doc_text : option string;
  doc_source : JsValue;
  doc_metadata : option (gmap string JsValue)
}.

Record Chunk : Type := {
  chunk_text : string;
  chunk_metadata : gmap string JsValue
}.

(** [{ ...base, ...extra }]: the properties of [extra] are written after
    those of [base]; spreading [undefined] adds nothing. *)
Definition spread_over (base : gmap string JsValue)
    (extra : option (gmap string JsValue)) : gmap string JsValue :=
  match extra with
  | Some m => m ∪ base
  | None => base
  end.

Definition nat_toString (n : nat) : string := pretty n.

(** The object literal of [processDocuments] before [...doc.metadata]. *)
Definition chunkFields (doc : Document) (docIndex chunkIndex totalChunks : nat)
    : gmap string JsValue :=
  <["docId" := js_or (doc_id doc) (JsString (nat_toString docIndex))]>
  (<["docTitle" := js_or (doc_title doc)
                    (JsString (String.append "Document " (nat_toString docIndex)))]>
  (<["chunkIndex" := JsNumber (Z.of_nat chunkIndex)]>
  (<["totalChunks" := JsNumber (Z.of_nat totalChunks)]>
  (<["source" := js_or (doc_source doc) (JsString "unknown")]> ∅)))).

Definition chunkObject (doc : Document) (docIndex totalChunks : nat)
    (chunkIndex : nat) (chunkText : string) : Chunk :=
  {| chunk_text := chunkText;
     chunk_metadata :=
       spread_over (chunkFields doc docIndex chunkIndex totalChunks)
                   (doc_metadata doc) |}.

Definition docText (doc : Document) : string :=
  match doc_content doc with
  | Some s => if str_truthy s then s else str_or (doc_text doc) EmptyString
  | None => str_or (doc_text doc) EmptyString
  end.

(** The outer [forEach] of [processDocuments], from document [docIndex]
    on, with the chunks pushed so far. *)
Fixpoint processFrom (fuel : nat) (svc : ChunkerService) (docIndex : nat)
    (documents : list Document) (chunks : list Chunk) : option (list Chunk) :=
  match documents with
  | [] => Some chunks
  | doc :: rest =>
      match chunkText fuel svc (docText doc) with
      | None => None
      | Some docChunks =>
          processFrom fuel svc (S docIndex) rest
            (chunks ++ imap (chunkObject doc docIndex (length docChunks)) docChunks)
      end
  end.

Definition processDocuments (fuel : nat) (svc : ChunkerService)
    (documents : list Document) : option (list Chunk) :=
  processFrom fuel svc 0 documents [].

(** ** The environment: external collaborators, trace and world *)

(** An embedding is a sequence of numbers; the services only move them
    around and build a vector of zeros, so rationals stand for the floats. *)
Definition Embedding : Type := list Q.

(** The [input] field of a request to the embedding API. *)
Inductive EmbedInput : Type :=
| InputText (text : string)
| InputBatch (texts : list string).

Record Point : Type := {
  point_id : string;
  point_vector : Embedding;
  point_payload : gmap string JsValue
}.

(** The search request of the Qdrant client. [sr_score_threshold] is the
    optional [score_threshold] of the client's API. *)
Record SearchRequest : Type := {
  sr_vector : Embedding;
  sr_limit : nat;
  sr_with_payload : bool;
  sr_with_vectors : bool;
  sr_score_threshold : option Q
}.

Record Hit : Type := {
  hit_payload : gmap string JsValue;
  hit_score : Q
}.

(** A turn of the generator's chat history: [{ role, parts: [{ text }] }]. *)
Record Turn : Type := {
  turn_role : string;
  turn_text : string
}.

Inductive Role : Type := User | Assistant.

Record Source : Type := {
  src_title : JsValue;
  src_source : JsValue;
  src_url : JsValue
}.

Record ChatMessage : Type := {
  role : Role;
  content : string;
  sources : option (list Source);
  timestamp : Z
}.

Record CachedResult : Type := {
  cr_response : string;
  cr_sources : list Source
}.

Inductive Event : Type :=
| EvEmbed (input : EmbedInput)
| EvUpsert (collection : string) (points : list Point)
| EvSearch (collection : string) (request : SearchRequest)
| EvGenerate (history : list Turn) (prompt : string)
| EvGenerateStream (history : list Turn) (prompt : string)
| EvUuid
| EvSaveChatMessage (sessionId : string) (message : ChatMessage).

(** The collaborators. A failing call answers [inl message], the message of
    the error it throws. The persistence service is the optional SQL sink
    of the chat controller: its [saveChatMessage] is called without
    [await], so what the caller can see of a failure is an error thrown
    during the call itself, [Some message] here. *)
Record Env : Type := {
  embed_post : list Event -> EmbedInput -> string + list Embedding;
  qdrant_upsert : list Event -> string -> list Point -> option string;
  qdrant_search : list Event -> string -> SearchRequest -> string + list Hit;
  gemini_sendMessage : list Event -> list Turn -> string -> string + string;
  gemini_sendMessageStream :
    list Event -> list Turn -> string -> list string * option string;
  persistence_saveChatMessage : list Event -> string -> ChatMessage -> option string;
  uuidv4 : list Event -> string
}.

(** Redis holds, under the prefixes [session:] and [query:], the JSON text
    of a message array and of a result object. The two prefixes never agree,
    so each has its own map here, keyed by what follows the prefix, and a
    value is kept with the time at which it expires. [JSON.parse] of
    [JSON.stringify] is the identity on these values, and the JSON text of
    an array or object is never the empty string. *)
Record World : Type := {
  trace : list Event;
  sessions : gmap string (list ChatMessage * Z);
  queries : gmap string (CachedResult * Z);
  redis_online : bool;
  now : Z
}.

Definition log_event (e : Event) (w : World) : World :=
  {| trace := trace w ++ [e]; sessions := sessions w; queries := queries w;
     redis_online := redis_online w; now := now w |}.

Definition set_sessions (s : gmap string (list ChatMessage * Z)) (w : World) : World :=
  {| trace := trace w; sessions := s; queries := queries w;
     redis_online := redis_online w; now := now w |}.

Definition set_queries (q : gmap string (CachedResult * Z)) (w : World) : World :=
  {| trace := trace w; sessions := sessions w; queries := q;
     redis_online := redis_online w; now := now w |}.

(** The clock moves between requests. *)
Definition set_now (t : Z) (w : World) : World :=
  {| trace := trace w; sessions := sessions w; queries := queries w;
     redis_online := redis_online w; now := t |}.

(** ** Computations that change the world and may throw *)

Inductive Outcome (A : Type) : Type :=
| Ok (a : A)
| Throw (message : string).
Arguments Ok {A} a.
Arguments Throw {A} message.

Definition M (A : Type) : Type := World -> World * Outcome A.

Definition ret {A} (a : A) : M A := fun w => (w, Ok a).

Definition throw {A} (message : string) : M A := fun w => (w, Throw message).

Definition bind {A B} (m : M A) (k : A -> M B) : M B :=
  fun w =>
    match m w with
    | (w', Ok a) => k a w'
    | (w', Throw message) => (w', Throw message)
    end.

(** [try { m } catch (error) { handler(error.message) }] *)
Definition try_catch {A} (m : M A) (handler : string -> M A) : M A :=
  fun w =>
    match m w with
    | (w', Ok a) => (w', Ok a)
    | (w', Throw message) => handler message w'
    end.

Notation "'let*' x ':=' m 'in' k" := (bind m (fun x => k))
  (at level 10, x name, m at level 100, k at level 200).
Notation "m ';;' k" := (bind m (fun _ => k))
  (at level 100, k at level 200, right associativity).

(** ** embeddingService.js *)

Record EmbeddingConfig : Type := {
  ecfg_batchSize : option nat;
  ecfg_dimension : option nat;
  ecfg_maxTokens : option nat
}.

Record JinaEmbeddingService : Type := {
  batchSize : nat;
  dimension : nat;
  maxTokens : nat;
  approximateCharsPerToken : nat
}.

(** [config.field || d] for a count. *)
Definition nat_or (field : option nat) (d : nat) : nat :=
  match field with
  | Some O | None => d
  | Some n => n
  end.

Definition newJinaEmbeddingService (config : EmbeddingConfig) : JinaEmbeddingService :=
  {| batchSize := nat_or (ecfg_batchSize config) 20;
     dimension := nat_or (ecfg_dimension config) 768;
     maxTokens := nat_or (ecfg_maxTokens config) 1000;
     approximateCharsPerToken := 4 |}.

Definition _truncateText (svc : JinaEmbeddingService) (text : string) : string :=
  let maxChars := (maxTokens svc * approximateCharsPerToken svc)%nat in
  if (maxChars <? String.length text)%nat
  then js_substring text 0 (Z.of_nat maxChars)
  else text.

(** [axios.post(apiUrl, { input, model })] followed by reading
    [response.data.data]. *)
Definition axios_post (env : Env) (input : EmbedInput) : M (list Embedding) :=
  fun w =>
    (log_event (EvEmbed input) w,
     match embed_post env (trace w) input with
     | inl message => Throw message
     | inr data => Ok data
     end).

Definition embedText (env : Env) (svc : JinaEmbeddingService) (text : string)
    : M Embedding :=
  try_catch
    (let truncatedText := _truncateText svc text in
     let* data := axios_post env (InputText truncatedText) in
     match data with
     | embedding :: _ => ret embedding
     | [] => throw "Cannot read properties of undefined (reading 'embedding')"
     end)
    (fun message =>
       throw (String.append "Failed to generate embedding: " message)).

(** [new Array(dimension).fill(0)] *)
Definition zeroEmbedding (dimension : nat) : Embedding := replicate dimension 0%Q.

(** The fallback of [embedBatch]: one [embedText] per text of the failed
    batch, a vector of zeros where that fails too. *)
Fixpoint embedEach (env : Env) (svc : JinaEmbeddingService)
    (batch : list string) (embeddings : list Embedding) : M (list Embedding) :=
  match batch with
  | [] => ret embeddings
  | text :: rest =>
      let* embeddings :=
        try_catch
          (let* embedding := embedText env svc text in
           ret (embeddings ++ [embedding]))
          (fun _ => ret (embeddings ++ [zeroEmbedding (dimension svc)])) in
      embedEach env svc rest embeddings
  end.

(** [truncatedTexts.slice(i, i + batchSize)] *)
Definition slice {A} (l : list A) (i j : nat) : list A := take (j - i) (drop i l).

(** The body of the loop of [embedBatch] for one batch: the request for
    the whole batch and, when it fails, the fallback or the rethrown error. *)
Definition embedBatchPass (env : Env) (svc : JinaEmbeddingService)
    (batch : list string) (embeddings : list Embedding) : M (list Embedding) :=
  try_catch
    (let* batchEmbeddings := axios_post env (InputBatch batch) in
     ret (embeddings ++ batchEmbeddings))
    (fun message =>
       if (1 <? length batch)%nat then embedEach env svc batch embeddings
       else throw (String.append "Failed to generate batch embeddings: " message)).

(** The [for (let i = 0; i < truncatedTexts.length; i += batchSize)] loop
    of [embedBatch]. [None] means that the loop is still running after
    [fuel] passes. *)
Fixpoint embedBatchLoop (fuel : nat) (env : Env) (svc : JinaEmbeddingService)
    (truncatedTexts : list string) (i : nat) (embeddings : list Embedding)
    (w : World) : option (World * Outcome (list Embedding)) :=
  if (i <? length truncatedTexts)%nat then
    match fuel with
    | O => None
    | S fuel' =>
        let batch := slice truncatedTexts i (i + batchSize svc) in
        match embedBatchPass env svc batch embeddings w with
        | (w', Ok embeddings') =>
            embedBatchLoop fuel' env svc truncatedTexts (i + batchSize svc)
                           embeddings' w'
        | (w', Throw message) => Some (w', Throw message)
        end
    end
  else Some (w, Ok embeddings).

Definition embedBatch (fuel : nat) (env : Env) (svc : JinaEmbeddingService)
    (texts : list string) (w : World) : option (World * Outcome (list Embedding)) :=
  let truncatedTexts := map (_truncateText svc) texts in
  embedBatchLoop fuel env svc truncatedTexts 0 [] w.

(** ** vectorStoreService.js *)

Record VectorStoreConfig : Type := {
  vcfg_collectionName : option string;
  vcfg_dimension : option nat
}.

Record QdrantVectorStore : Type := {
  collectionName : string;
  store_dimension : nat
}.

Definition newQdrantVectorStore (config : VectorStoreConfig) : QdrantVectorStore :=
  {| collectionName := str_or (vcfg_collectionName config) "news_articles";
     store_dimension := nat_or (vcfg_dimension config) 768 |}.

(** A document handed to [addDocuments]. [vd_embedding] is the field that
    [ingestArticles] adds to each document; [addDocuments] reads the text
    and the metadata only. *)
Record VectorDocument : Type := {
  vd_text : string;
  vd_embedding : option (list Embedding);
  vd_metadata : gmap string JsValue
}.

Definition Date_now : M Z := fun w => (w, Ok (now w)).

Definition client_upsert (env : Env) (collection : string) (points : list Point)
    : M unit :=
  fun w =>
    (log_event (EvUpsert collection points) w,
     match qdrant_upsert env (trace w) collection points with
     | Some message => Throw message
     | None => Ok tt
     end).

Definition client_search (env : Env) (collection : string) (request : SearchRequest)
    : M (list Hit) :=
  fun w =>
    (log_event (EvSearch collection request) w,
     match qdrant_search env (trace w) collection request with
     | inl message => Throw message
     | inr hits => Ok hits
     end).

(** The point built for document [i]. [embeddings[i]] is in range, the
    counts having been compared before. *)
Definition makePoint (time : Z) (embeddings : list Embedding) (i : nat)
    (doc : VectorDocument) : Point :=
  {| point_id := String.append (pretty time) (String.append "-" (pretty i));
     point_vector := default [] (embeddings !! i);
     point_payload :=
       spread_over (<["text" := JsString (vd_text doc)]> ∅) (Some (vd_metadata doc)) |}.

(** [addDocuments(documents, embeddings)]. A caller that passes no second
    argument leaves [embeddings] undefined ([None]); reading its [length]
    then throws inside the [try]. *)
Definition addDocuments (env : Env) (store : QdrantVectorStore)
    (documents : list VectorDocument) (embeddings : option (list Embedding))
    : M unit :=
  try_catch
    (match embeddings with
     | None => throw "Cannot read properties of undefined (reading 'length')"
     | Some embeddings =>
         if negb (length documents =? length embeddings)%nat
         then throw "Documents and embeddings count mismatch"
         else
           let* time := Date_now in
           let points := imap (makePoint time embeddings) documents in
           client_upsert env (collectionName store) points
     end)
    (fun message =>
       throw (String.append "Qdrant document insertion failed: " message)).

Record DocMetadata : Type := {
  md_title : JsValue;
  md_source : JsValue;
  md_url : JsValue;
  md_date : JsValue
}.

Record RetrievedDocument : Type := {
  rd_text : JsValue;
  rd_metadata : DocMetadata;
  rd_score : Q
}.

(** [object.key], undefined when the key is missing. *)
Definition prop (object : gmap string JsValue) (key : string) : JsValue :=
  default JsUndefined (object !! key).

Definition hitDocument (hit : Hit) : RetrievedDocument :=
  {| rd_text := prop (hit_payload hit) "text";
     rd_metadata :=
       {| md_title := prop (hit_payload hit) "title";
          md_source := prop (hit_payload hit) "source";
          md_url := prop (hit_payload hit) "url";
          md_date := prop (hit_payload hit) "date" |};
     rd_score := hit_score hit |}.

(** [similaritySearch(queryEmbedding, limit = 5)]: two parameters; the
    request has no score threshold. *)
Definition similaritySearch (env : Env) (store : QdrantVectorStore)
    (queryEmbedding : Embedding) (limit : option nat) : M (list RetrievedDocument) :=
  try_catch
    (let* response :=
       client_search env (collectionName store)
         {| sr_vector := queryEmbedding;
            sr_limit := default 5%nat limit;
            sr_with_payload := true;
            sr_with_vectors := false;
            sr_score_threshold := None |} in
     ret (map hitDocument response))
    (fun message => throw (String.append "Qdrant search failed: " message)).

(** ** ragService.js *)

(** The [embeddingService] that ragService.js imports from app.js. *)
Definition appEmbeddingService : JinaEmbeddingService :=
  newJinaEmbeddingService
    {| ecfg_batchSize := None; ecfg_dimension := None; ecfg_maxTokens := None |}.

Record RAGService : Type := {
  rag_embeddingService : JinaEmbeddingService;
  rag_vectorStore : QdrantVectorStore;
  rag_chunkerService : ChunkerService
}.

Definition newRAGService (embeddingService : JinaEmbeddingService)
    (vectorStore : QdrantVectorStore) : RAGService :=
  {| rag_embeddingService := embeddingService;
     rag_vectorStore := vectorStore;
     rag_chunkerService :=
       newChunkerService
         {| cfg_maxChunkSize := Some 6000; cfg_overlap := Some 200;
            cfg_minChunkSize := None |} |}.

(** The text that [ingestArticles] hands to [embedBatch] for every chunk. *)
Definition placeholderText : string :=
  String.concat LF
    [ "quia et suscipit";
      "suscipit recusandae consequuntur expedita et cum";
      "reprehenderit molestiae ut ut quas totam";
      "nostrum rerum est autem sunt rem eveniet architecto";
      EmptyString;
      "In conclusion, while sunt aut facere repellat provident occaecati excepturi optio reprehenderit presents significant opportunities, it also raises important questions that will need to be addressed as development continues. The conversation around this topic is likely to evolve as we gain more experience and data.";
      EmptyString;
      "From a policy perspective, there are important considerations regarding regulation, standardization, and oversight. Finding the right balance between enabling innovation and ensuring safety and fairness presents an ongoing challenge.";
      EmptyString;
      "The economic implications cannot be overlooked. Initial investment costs must be weighed against long-term benefits, and the distribution of these costs and benefits across different stakeholders requires careful analysis.";
      EmptyString;
      "Industry leaders have expressed varying opinions on this matter. Some see it as a revolutionary change that will transform established practices, while others view it as an incremental improvement on existing systems.";
      EmptyString;
      "Looking ahead, we can anticipate several possible trajectories for how this might evolve. Optimistic scenarios suggest rapid adoption and integration, while more conservative outlooks predict a slower, more measured approach.";
      EmptyString;
      "User experience is another critical dimension to consider. How will this affect the average person? Will it simplify processes or add additional complexity? These questions remain central to the discussion.";
      EmptyString;
      "The technical aspects of this topic warrant careful consideration. While the fundamental principles are relatively straightforward, the implementation details can become quite complex, especially when scaling to real-world scenarios.";
      EmptyString;
      "When examining sunt aut facere repellat provident occaecati excepturi optio reprehenderit, it's important to consider the historical context. Previous developments in this area have shown mixed results, with some initial excitement followed by periods of reassessment and critical evaluation." ].

(** [Promise.all] over calls that are all started, in order, before any
    is awaited: every call runs, and the first failure is the result. *)
Fixpoint promiseAll {A} (calls : list (World -> option (World * Outcome A)))
    (w : World) : option (World * Outcome (list A)) :=
  match calls with
  | [] => Some (w, Ok [])
  | call :: rest =>
      match call w with
      | None => None
      | Some (w1, r) =>
          match promiseAll rest w1 with
          | None => None
          | Some (w2, rs) =>
              Some (w2, match r, rs with
                        | Ok a, Ok l => Ok (a :: l)
                        | Throw message, _ => Throw message
                        | Ok _, Throw message => Throw message
                        end)
          end
      end
  end.

Record IngestResult : Type := {
  ir_success : bool;
  ir_message : string;
  ir_results : unit
}.

Definition ingestDocument (embeddings : list (list Embedding)) (index : nat)
    (chunk : Chunk) : VectorDocument :=
  {| vd_text := chunk_text chunk;
     vd_embedding := embeddings !! index;
     vd_metadata := chunk_metadata chunk |}.

Definition ingestFailure {A} (message : string) : Outcome A :=
  Throw (String.append "Failed to ingest articles: " message).

(** [ingestArticles({ articles })]. [None] means that a loop of the
    chunker or of [embedBatch] is still running after [fuel] passes. *)
Definition ingestArticles (fuel : nat) (env : Env) (rag : RAGService)
    (articles : list Document) (w : World) : option (World * Outcome IngestResult) :=
  match processDocuments fuel (rag_chunkerService rag) articles with
  | None => None
  | Some chunks =>
      let texts := map chunk_text chunks in
      match promiseAll
              (map (fun _ => embedBatch fuel env appEmbeddingService [placeholderText])
                   texts) w with
      | None => None
      | Some (w1, Throw message) => Some (w1, ingestFailure message)
      | Some (w1, Ok embeddings) =>
          match addDocuments env (rag_vectorStore rag)
                  (imap (ingestDocument embeddings) chunks) None w1 with
          | (w2, Throw message) => Some (w2, ingestFailure message)
          | (w2, Ok results) =>
              Some (w2, Ok {| ir_success := true;
                              ir_message :=
                                String.append "Successfully ingested "
                                  (String.append (pretty (length chunks))
                                     (String.append " chunks from "
                                        (String.append (pretty (length articles))
                                                       " articles")));
                              ir_results := results |})
          end
      end
  end.

Record QueryOptions : Type := {
  qo_topK : option nat;
  qo_threshold : option Q
}.

(** [query(query, options = {})]. The threshold is passed to
    [similaritySearch] as a third argument, for which that function has no
    parameter. *)
Definition query (env : Env) (rag : RAGService) (queryText : string)
    (options : QueryOptions) : M (list RetrievedDocument) :=
  try_catch
    (let topK := default 5%nat (qo_topK options) in
     let threshold := default (7 # 10)%Q (qo_threshold options) in
     let* queryEmbedding := embedText env (rag_embeddingService rag) queryText in
     let* results :=
       similaritySearch env (rag_vectorStore rag) queryEmbedding (Some topK) in
     ret results)
    (fun message => throw (String.append "Failed to query RAG system: " message)).

(** ** cacheService.js *)

Record CacheConfig : Type := {
  ccfg_defaultTTL : option Z
}.

Record RedisCacheService : Type := {
  defaultTTL : Z
}.

Definition newRedisCacheService (config : CacheConfig) : RedisCacheService :=
  {| defaultTTL := num_or (ccfg_defaultTTL config) 3600 |}.

Definition base64_alphabet : string :=
  "ABCDEFGHIJKLMNOPQRSTUVWXYZabcdefghijklmnopqrstuvwxyz0123456789+/".

Definition base64_digit (n : nat) : ascii :=
  match String.get n base64_alphabet with
  | Some c => c
  | None => "="%char
  end.

(** [Buffer.from(query).toString("base64")] *)
Fixpoint base64 (s : string) : string :=
  match s with
  | EmptyString => EmptyString
  | String a EmptyString =>
      let x := nat_of_ascii a in
      String (base64_digit (x / 4)) (String (base64_digit (x mod 4 * 16)) "==")
  | String a (String b EmptyString) =>
      let x := nat_of_ascii a in
      let y := nat_of_ascii b in
      String (base64_digit (x / 4))
        (String (base64_digit (x mod 4 * 16 + y / 16))
           (String (base64_digit (y mod 16 * 4)) "="))
  | String a (String b (String c rest)) =>
      let x := nat_of_ascii a in
      let y := nat_of_ascii b in
      let z := nat_of_ascii c in
      String (base64_digit (x / 4))
        (String (base64_digit (x mod 4 * 16 + y / 16))
           (String (base64_digit (y mod 16 * 4 + z / 64))
              (String (base64_digit (z mod 64)) (base64 rest))))
  end%nat.

Definition redis_unavailable : string := "Connection is closed.".

(** Redis refuses [SETEX] with a time to live that is not positive. *)
Definition redis_invalid_expire : string :=
  "ERR invalid expire time in 'setex' command".

(** What a key holds at time [t]: nothing once its time is up. *)
Definition live {A} (t : Z) (entry : option (A * Z)) : option A :=
  match entry with
  | Some (value, expiry) => if t <? expiry then Some value else None
  | None => None
  end.

(** [client.setex], [client.get] and [client.del] on keys [session:<id>].
    A command throws when Redis cannot be reached. *)
Definition setex_session (sessionId : string) (ttl : Z)
    (messages : list ChatMessage) : M unit :=
  fun w =>
    if redis_online w then
      if ttl <=? 0 then (w, Throw redis_invalid_expire)
      else (set_sessions (<[sessionId := (messages, now w + ttl)]> (sessions w)) w, Ok tt)
    else (w, Throw redis_unavailable).

Definition get_session (sessionId : string) : M (option (list ChatMessage)) :=
  fun w =>
    if redis_online w
    then (w, Ok (live (now w) (sessions w !! sessionId)))
    else (w, Throw redis_unavailable).

Definition del_session (sessionId : string) : M unit :=
  fun w =>
    if redis_online w
    then (set_sessions (delete sessionId (sessions w)) w, Ok tt)
    else (w, Throw redis_unavailable).

(** [client.setex] and [client.get] on keys [query:<base64>]. *)
Definition setex_query (key : string) (ttl : Z) (result : CachedResult) : M unit :=
  fun w =>
    if redis_online w then
      if ttl <=? 0 then (w, Throw redis_invalid_expire)
      else (set_queries (<[key := (result, now w + ttl)]> (queries w)) w, Ok tt)
    else (w, Throw redis_unavailable).

Definition get_query (key : string) : M (option CachedResult) :=
  fun w =>
    if redis_online w
    then (w, Ok (live (now w) (queries w !! key)))
    else (w, Throw redis_unavailable).

Definition storeChatSession (svc : RedisCacheService) (sessionId : string)
    (messages : list ChatMessage) (ttl : option Z) : M unit :=
  try_catch
    (setex_session sessionId (default (defaultTTL svc) ttl) messages)
    (fun _ => ret tt).

Definition getChatSession (svc : RedisCacheService) (sessionId : string)
    : M (option (list ChatMessage)) :=
  try_catch
    (let* data := get_session sessionId in
     match data with
     | None => ret None
     | Some messages => ret (Some messages)
     end)
    (fun _ => ret None).

Definition addMessageToSession (svc : RedisCacheService) (sessionId : string)
    (message : ChatMessage) (ttl : option Z) : M bool :=
  try_catch
    (let* data := get_session sessionId in
     let messages := default [] data in
     let messages := messages ++ [message] in
     setex_session sessionId (default (defaultTTL svc) ttl) messages ;;
     ret true)
    (fun _ => ret false).

Definition deleteChatSession (svc : RedisCacheService) (sessionId : string) : M bool :=
  try_catch
    (del_session sessionId ;; ret true)
    (fun _ => ret false).

Definition cacheQueryResult (svc : RedisCacheService) (queryText : string)
    (result : CachedResult) (ttl : option Z) : M unit :=
  try_catch
    (setex_query (base64 queryText) (default (defaultTTL svc) ttl) result)
    (fun _ => ret tt).

Definition getCachedQueryResult (svc : RedisCacheService) (queryText : string)
    : M (option CachedResult) :=
  try_catch
    (let* data := get_query (base64 queryText) in
     match data with
     | None => ret None
     | Some result => ret (Some result)
     end)
    (fun _ => ret None).

(** ** llmService.js *)

(** A value inside a template literal. *)
Definition js_toString (v : JsValue) : string :=
  match v with
  | JsUndefined => "undefined"
  | JsNull => "null"
  | JsBool true => "true"
  | JsBool false => "false"
  | JsNumber n => pretty n
  | JsString s => s
  end.

Definition formatDoc (doc : RetrievedDocument) : string :=
  String.concat EmptyString
    [ "Source: "; js_toString (md_title (rd_metadata doc));
      " ("; js_toString (md_source (rd_metadata doc)); ")"; LF;
      "Content: "; js_toString (rd_text doc) ].

Definition formatContext (retrievedDocs : list RetrievedDocument) : string :=
  String.concat (String.append LF LF) (map formatDoc retrievedDocs).

Definition role_name (r : Role) : string :=
  match r with User => "user" | Assistant => "assistant" end.

Definition formatHistory (chatHistory : list ChatMessage) : list Turn :=
  map (fun msg => {| turn_role := role_name (role msg); turn_text := content msg |})
      chatHistory.

Definition buildPrompt (context queryText : string) : string :=
  String.concat LF
    [ EmptyString;
      "You are a helpful assistant that answers questions based on provided context.";
      "Please only use the information from the provided news articles to answer the question. ";
      "If the information is not in the context, say that you don't know based on the available articles.";
      EmptyString;
      "CONTEXT:";
      context;
      EmptyString;
      "QUESTION:";
      queryText;
      EmptyString;
      "Please provide a concise, accurate answer based solely on the context. Include sources where appropriate." ].

Definition generateResponse (env : Env) (queryText : string)
    (retrievedDocs : list RetrievedDocument) (chatHistory : list ChatMessage)
    : M string :=
  try_catch
    (let context := formatContext retrievedDocs in
     let formattedHistory := formatHistory chatHistory in
     let prompt := buildPrompt context queryText in
     fun w =>
       (log_event (EvGenerate formattedHistory prompt) w,
        match gemini_sendMessage env (trace w) formattedHistory prompt with
        | inl message => Throw message
        | inr response => Ok response
        end))
    (fun message => throw (String.append "Gemini API error: " message)).

(** The generator [generateStreamingResponse], run to its end: the
    fragments it yields (the non-empty chunk texts) and the error it
    throws after them, if any. *)
Definition generateStreamingResponse (env : Env) (queryText : string)
    (retrievedDocs : list RetrievedDocument) (chatHistory : list ChatMessage)
    (w : World) : World * (list string * option string) :=
  let context := formatContext retrievedDocs in
  let formattedHistory := formatHistory chatHistory in
  let prompt := buildPrompt context queryText in
  let '(chunkTexts, failure) :=
    gemini_sendMessageStream env (trace w) formattedHistory prompt in
  (log_event (EvGenerateStream formattedHistory prompt) w,
   (filter (fun chunkText => str_truthy chunkText = true) chunkTexts,
    String.append "Gemini API streaming error: " <$> failure)).

(** ** chatController.js *)

Record ChatController : Type := {
  embeddingService : JinaEmbeddingService;
  vectorStoreService : QdrantVectorStore;
  cacheService : RedisCacheService;
  persistenceService : bool
}.

Inductive Body : Type :=
| BodyFailure (message : string)
| BodyCreated (sessionId : string) (message : string)
| BodyHistory (sessionId : string) (history : list ChatMessage)
| BodyResponse (response : ChatMessage) (cached : bool)
| BodySuccess (message : string).

Inductive SseEvent : Type :=
| SseStart
| SseSources (sources : list Source)
| SseChunk (content : string)
| SseEnd
| SseError (message : string).

(** What a handler sends: [res.status(s).json(body)], or the events
    written to the event stream before [res.end()]. *)
Inductive Response : Type :=
| JsonResponse (status : Z) (body : Body)
| EventStream (events : list SseEvent).

(** A request parameter that passes the [!param] test. *)
Definition present (param : option string) : option string :=
  match param with
  | Some s => if str_truthy s then Some s else None
  | None => None
  end.

(** [try { body } catch (error) { return failure }] of a handler. *)
Definition handler (body : M Response) (failure : Response) (w : World)
    : World * Response :=
  match body w with
  | (w', Ok response) => (w', response)
  | (w', Throw _) => (w', failure)
  end.

Definition docSource (doc : RetrievedDocument) : Source :=
  {| src_title := md_title (rd_metadata doc);
     src_source := md_source (rd_metadata doc);
     src_url := md_url (rd_metadata doc) |}.

(** [this.persistenceService.saveChatMessage(sessionId, message)] *)
Definition saveChatMessage (env : Env) (sessionId : string) (message : ChatMessage)
    : M unit :=
  fun w =>
    (log_event (EvSaveChatMessage sessionId message) w,
     match persistence_saveChatMessage env (trace w) sessionId message with
     | Some failure => Throw failure
     | None => Ok tt
     end).

(** [if (this.persistenceService) { ... }]: the two calls are inside the
    handler's [try], after the writes to Redis. *)
Definition persistChat (env : Env) (ctl : ChatController) (sessionId : string)
    (userMessage botMessage : ChatMessage) : M unit :=
  if persistenceService ctl then
    saveChatMessage env sessionId userMessage ;;
    saveChatMessage env sessionId botMessage
  else ret tt.

Definition createSession (env : Env) (ctl : ChatController) : World -> World * Response :=
  handler
    (let* sessionId := (fun w => (log_event EvUuid w, Ok (uuidv4 env (trace w)))) in
     storeChatSession (cacheService ctl) sessionId [] None ;;
     ret (JsonResponse 201 (BodyCreated sessionId "Chat session created")))
    (JsonResponse 500 (BodyFailure "Failed to create chat session")).

Definition getSessionHistory (ctl : ChatController) (sessionId : option string)
    : World -> World * Response :=
  handler
    (match present sessionId with
     | None => ret (JsonResponse 400 (BodyFailure "Session ID is required"))
     | Some sessionId =>
         let* history := getChatSession (cacheService ctl) sessionId in
         match history with
         | None => ret (JsonResponse 404 (BodyFailure "Chat session not found"))
         | Some history => ret (JsonResponse 200 (BodyHistory sessionId history))
         end
     end)
    (JsonResponse 500 (BodyFailure "Failed to get chat session history")).

Definition userMessageAt (time : Z) (message : string) : ChatMessage :=
  {| role := User; content := message; sources := None; timestamp := time |}.

Definition botMessageAt (time : Z) (response : string) (srcs : list Source)
    : ChatMessage :=
  {| role := Assistant; content := response; sources := Some srcs;
     timestamp := time |}.

(** The branch of [sendMessage] that answers from the query cache. *)
Definition replyFromCache (ctl : ChatController) (sessionId : string)
    (history : list ChatMessage) (cachedResult : CachedResult) : M Response :=
  let* time := Date_now in
  let botMessage :=
    botMessageAt time (cr_response cachedResult) (cr_sources cachedResult) in
  let history := history ++ [botMessage] in
  storeChatSession (cacheService ctl) sessionId history None ;;
  ret (JsonResponse 200 (BodyResponse botMessage true)).

(** The branch of [sendMessage] that retrieves documents and generates. *)
Definition replyFromRetrieval (env : Env) (ctl : ChatController)
    (sessionId message : string) (history : list ChatMessage)
    (userMessage : ChatMessage) : M Response :=
  let* queryEmbedding := embedText env (embeddingService ctl) message in
  let* relevantDocs :=
    similaritySearch env (vectorStoreService ctl) queryEmbedding (Some 5%nat) in
  let* response := generateResponse env message relevantDocs history in
  let* time := Date_now in
  let botMessage := botMessageAt time response (map docSource relevantDocs) in
  let history := history ++ [botMessage] in
  storeChatSession (cacheService ctl) sessionId history None ;;
  cacheQueryResult (cacheService ctl) message
    {| cr_response := response; cr_sources := map docSource relevantDocs |}
    None ;;
  persistChat env ctl sessionId userMessage botMessage ;;
  ret (JsonResponse 200 (BodyResponse botMessage false)).

Definition sendMessage (env : Env) (ctl : ChatController)
    (sessionId message : option string) : World -> World * Response :=
  handler
    (match present sessionId, present message with
     | Some sessionId, Some message =>
         let* stored := getChatSession (cacheService ctl) sessionId in
         let history := default [] stored in
         let* time := Date_now in
         let userMessage := userMessageAt time message in
         let history := history ++ [userMessage] in
         let* cachedResult := getCachedQueryResult (cacheService ctl) message in
         match cachedResult with
         | Some cachedResult => replyFromCache ctl sessionId history cachedResult
         | None => replyFromRetrieval env ctl sessionId message history userMessage
         end
     | _, _ =>
         ret (JsonResponse 400 (BodyFailure "Session ID and message are required"))
     end)
    (JsonResponse 500 (BodyFailure "Failed to process your message")).

Definition streamFailure : SseEvent :=
  SseError "An error occurred while processing your message".

(** The part of [streamMessage] that runs before anything is written to
    the stream. *)
Definition streamPrelude (env : Env) (ctl : ChatController)
    (sessionId message : string)
    : M (list ChatMessage * ChatMessage * list RetrievedDocument) :=
  let* stored := getChatSession (cacheService ctl) sessionId in
  let history := default [] stored in
  let* time := Date_now in
  let userMessage := userMessageAt time message in
  let history := history ++ [userMessage] in
  storeChatSession (cacheService ctl) sessionId history None ;;
  let* queryEmbedding := embedText env (embeddingService ctl) message in
  let* relevantDocs :=
    similaritySearch env (vectorStoreService ctl) queryEmbedding (Some 5%nat) in
  ret (history, userMessage, relevantDocs).

(** The part of [streamMessage] that follows the last fragment. *)
Definition streamEpilogue (env : Env) (ctl : ChatController)
    (sessionId message : string)
    (history : list ChatMessage) (userMessage : ChatMessage)
    (relevantDocs : list RetrievedDocument) (fullResponse : string) : M unit :=
  let* time := Date_now in
  let botMessage := botMessageAt time fullResponse (map docSource relevantDocs) in
  let history := history ++ [botMessage] in
  storeChatSession (cacheService ctl) sessionId history None ;;
  cacheQueryResult (cacheService ctl) message
    {| cr_response := fullResponse; cr_sources := map docSource relevantDocs |}
    None ;;
  persistChat env ctl sessionId userMessage botMessage.

Definition streamMessage (env : Env) (ctl : ChatController)
    (sessionId message : option string) (w : World) : World * Response :=
  match present sessionId, present message with
  | Some sessionId, Some message =>
      match streamPrelude env ctl sessionId message w with
      | (w1, Throw _) => (w1, EventStream [streamFailure])
      | (w1, Ok (history, userMessage, relevantDocs)) =>
          let written := [SseStart; SseSources (map docSource relevantDocs)] in
          let '(w2, (fragments, failure)) :=
            generateStreamingResponse env message relevantDocs history w1 in
          let written := written ++ map SseChunk fragments in
          let fullResponse := String.concat EmptyString fragments in
          match failure with
          | Some _ => (w2, EventStream (written ++ [streamFailure]))
          | None =>
              match streamEpilogue env ctl sessionId message history userMessage
                      relevantDocs fullResponse w2 with
              | (w3, Ok _) => (w3, EventStream (written ++ [SseEnd]))
              | (w3, Throw _) => (w3, EventStream (written ++ [streamFailure]))
              end
          end
      end
  | _, _ =>
      (w, JsonResponse 400 (BodyFailure "Session ID and message are required"))
  end.

Definition clearSession (ctl : ChatController) (sessionId : option string)
    : World -> World * Response :=
  handler
    (match present sessionId with
     | None => ret (JsonResponse 400 (BodyFailure "Session ID is required"))
     | Some sessionId =>
         deleteChatSession (cacheService ctl) sessionId ;;
         storeChatSession (cacheService ctl) sessionId [] None ;;
         ret (JsonResponse 200 (BodySuccess "Chat session cleared"))
     end)
    (JsonResponse 500 (BodyFailure "Failed to clear chat session")).

(** ** The bound of the design document and sample inputs *)

(** The number of loop passes that the design document allows [chunkText]:
    the text length divided by [maxSize - overlap], rounded up. *)
Definition specPassBound (svc : ChunkerService) (text : string) : Z :=
  let window := maxChunkSize svc - overlap svc in
  (strlen text + window - 1) / window.

Fixpoint string_repeat (c : ascii) (n : nat) : string :=
  match n with
  | O => EmptyString
  | S n' => String c (string_repeat c n')
  end.

Definition defaultVectorStore : QdrantVectorStore :=
  newQdrantVectorStore {| vcfg_collectionName := None; vcfg_dimension := None |}.

Definition defaultRAGService : RAGService :=
  newRAGService appEmbeddingService defaultVectorStore.

(** A chunker whose overlap is smaller than its minimum chunk size. *)
Definition stuckChunker : ChunkerService :=
  newChunkerService
    {| cfg_maxChunkSize := Some 1000; cfg_overlap := Some 50;
       cfg_minChunkSize := Some 100 |}.

(** A word of 99 letters, one space, and a word of 1000 letters. *)
Definition longWordText : string :=
  String.append (string_repeat "x" 99)
    (String.append " " (string_repeat "y" 1000)).

(** A word of 299 letters, one space, and a word of 6000 letters. *)
Definition earlyBreakText : string :=
  String.append (string_repeat "x" 299)
    (String.append " " (string_repeat "y" 6000)).

(** A document whose own metadata has a [chunkIndex]. *)
Definition taggedDocument : Document :=
  {| doc_id := JsString "a1";
     doc_title := JsString "Title";
     doc_content := Some "Sentence one. Sentence two. Sentence three.";
     doc_text := None;
     doc_source := JsString "feed";
     doc_metadata := Some (<["chunkIndex" := JsNumber 7]> (<["author" := JsString "ann"]> ∅)) |}.

(** An article as the collector produces it: no [metadata] field. *)
Definition plainArticle : Document :=
  {| doc_id := JsUndefined;
     doc_title := JsString "Title";
     doc_content := Some "Sentence one. Sentence two. Sentence three.";
     doc_text := None;
     doc_source := JsString "feed";
     doc_metadata := None |}.

(** ** Texts without break points *)

Fixpoint has_char (c : ascii) (s : string) : bool :=
  match s with
  | EmptyString => false
  | String a s' => Ascii.eqb a c || has_char c s'
  end.

(** A text without a space and without a line feed: it has no paragraph
    break, no sentence break and no word break. *)
Definition unbroken (text : string) : Prop :=
  has_char " " text = false /\ has_char LF_char text = false.

(** Words of 500, 500, 400 and 597 letters, one space between them. *)
Definition wordsText : string :=
  String.concat " "
    [ string_repeat "a" 500; string_repeat "b" 500; string_repeat "c" 400;
      string_repeat "d" 597 ].

(** ** Predicates on the embedding provider and on the result of [embedBatch] *)

(** The provider answers a batch with one embedding per text. *)
Definition answersPerText (env : Env) : Prop :=
  forall tr texts data,
    embed_post env tr (InputBatch texts) = inr data -> length data = length texts.

(** Every call to the provider fails. *)
Definition allCallsFail (env : Env) : Prop :=
  forall tr input, exists message, embed_post env tr input = inl message.

(** Entry [e] stands for [text] after the fallback: the provider's answer
    to the single-text request, or a vector of zeros where that request
    gave no embedding. *)
Definition fallbackSource (env : Env) (svc : JinaEmbeddingService)
    (text : string) (e : Embedding) : Prop :=
  (exists tr data,
      embed_post env tr (InputText (_truncateText svc text)) = inr (e :: data)) \/
  (e = zeroEmbedding (dimension svc) /\
   exists tr,
     match embed_post env tr (InputText (_truncateText svc text)) with
     | inr (_ :: _) => False
     | _ => True
     end).

(** Entry [j] of the result stands for text [j]: the provider's answer at
    the text's place in its batch, or the outcome of the fallback. *)
Definition entrySource (env : Env) (svc : JinaEmbeddingService)
    (truncatedTexts : list string) (j : nat) (e : Embedding) : Prop :=
  exists text,
    truncatedTexts !! j = Some text /\
    ((exists tr i data,
         embed_post env tr
           (InputBatch (slice truncatedTexts i (i + batchSize svc))) = inr data /\
         (i <= j)%nat /\ data !! (j - i)%nat = Some e) \/
     fallbackSource env svc text e).

(** A batch of exactly one text whose request failed. *)
Definition singleTextBatchFailed (env : Env) (svc : JinaEmbeddingService)
    (truncatedTexts : list string) : Prop :=
  exists i text tr message,
    slice truncatedTexts i (i + batchSize svc) = [text] /\
    embed_post env tr (InputBatch [text]) = inl message.

(** What [processDocuments] says of one chunk of its result: the document
    it was cut from, its place among the pieces of that document, and its
    metadata, key by key. *)
Definition chunkFrom (fuel : nat) (svc : ChunkerService) (documents : list Document)
    (base : nat) (chunk : Chunk) : Prop :=
  exists (k : nat) (doc : Document) (pieces : list string) (chunkIndex : nat),
    documents !! k = Some doc /\
    chunkText fuel svc (docText doc) = Some pieces /\
    pieces !! chunkIndex = Some (chunk_text chunk) /\
    forall key,
      chunk_metadata chunk !! key =
      match doc_metadata doc ≫= (.!! key) with
      | Some v => Some v
      | None => chunkFields doc (base + k) chunkIndex (length pieces) !! key
      end.

(** ** Sample collaborators and worlds *)

(** The embedding that the sample provider gives to a text: the length of
    the text, so that different lengths give different embeddings. *)
Definition lengthEmbedding (text : string) : Embedding := [inject_Z (strlen text)].

Definition answerEmbeddings (input : EmbedInput) : list Embedding :=
  match input with
  | InputText text => [lengthEmbedding text]
  | InputBatch texts => map lengthEmbedding texts
  end.

Definition sampleHit (text : string) (score : Q) : Hit :=
  {| hit_payload := <["text" := JsString text]> (<["source" := JsString "feed"]> ∅);
     hit_score := score |}.

(** What the sample collection holds for any query, best first. *)
Definition sampleHits : list Hit :=
  [ sampleHit "closely related" (9 # 10)%Q; sampleHit "barely related" (1 # 10)%Q ].

(** A search that honours the limit and, when the request has one, the
    score threshold. *)
Definition sampleSearch (request : SearchRequest) : list Hit :=
  take (sr_limit request)
    (List.filter
       (fun hit => match sr_score_threshold request with
                   | Some t => Qle_bool t (hit_score hit)
                   | None => true
                   end)
       sampleHits).

(** Collaborators that always answer. *)
Definition workingEnv : Env :=
  {| embed_post := fun _ input => inr (answerEmbeddings input);
     qdrant_upsert := fun _ _ _ => None;
     qdrant_search := fun _ _ request => inr (sampleSearch request);
     gemini_sendMessage := fun _ _ _ => inr "An answer from the articles.";
     gemini_sendMessageStream := fun _ _ _ => (["An answer "; "from the articles."], None);
     persistence_saveChatMessage := fun _ _ _ => None;
     uuidv4 := fun tr => String.append "session-" (pretty (length tr)) |}.

(** The same collaborators with an embedding provider that always fails. *)
Definition failingEnv : Env :=
  {| embed_post := fun _ _ => inl "Request failed with status code 500";
     qdrant_upsert := qdrant_upsert workingEnv;
     qdrant_search := qdrant_search workingEnv;
     gemini_sendMessage := gemini_sendMessage workingEnv;
     gemini_sendMessageStream := gemini_sendMessageStream workingEnv;
     persistence_saveChatMessage := persistence_saveChatMessage workingEnv;
     uuidv4 := uuidv4 workingEnv |}.

Definition emptyWorld : World :=
  {| trace := []; sessions := ∅; queries := ∅; redis_online := true; now := 1000 |}.

Definition pairBatches : EmbeddingConfig :=
  {| ecfg_batchSize := Some 2%nat; ecfg_dimension := Some 3%nat; ecfg_maxTokens := None |}.

Definition shortVector : Embedding := [(1 # 2)%Q].

Definition sampleVectorDocument : VectorDocument :=
  {| vd_text := "Sentence one.";
     vd_embedding := None;
     vd_metadata := <["source" := JsString "feed"]> ∅ |}.

(** Collaborators whose generator fails, in both modes, after one fragment. *)
Definition failingGeminiEnv : Env :=
  {| embed_post := embed_post workingEnv;
     qdrant_upsert := qdrant_upsert workingEnv;
     qdrant_search := qdrant_search workingEnv;
     gemini_sendMessage := fun _ _ _ => inl "fetch failed";
     gemini_sendMessageStream := fun _ _ _ => (["An ans"], Some "fetch failed");
     persistence_saveChatMessage := persistence_saveChatMessage workingEnv;
     uuidv4 := uuidv4 workingEnv |}.

(** ** What is stored, and when a turn is complete *)

(** The history that Redis holds for a session at the time of the world. *)
Definition storedHistory (w : World) (sessionId : string) : option (list ChatMessage) :=
  live (now w) (sessions w !! sessionId).

(** The result that Redis holds for a query at the time of the world. *)
Definition cachedAnswer (w : World) (queryText : string) : option CachedResult :=
  live (now w) (queries w !! base64 queryText).

(** A turn is complete when [sendMessage] answers 200 with a message, or
    when the last event of [streamMessage] is the end event. *)
Definition turnDone (r : Response) : bool :=
  match r with
  | JsonResponse 200 (BodyResponse _ _) => true
  | EventStream events =>
      match last events with
      | Some SseEnd => true
      | _ => false
      end
  | _ => false
  end.

Definition status (r : Response) : option Z :=
  match r with
  | JsonResponse s _ => Some s
  | EventStream _ => None
  end.

(** A controller on the default services, without the SQL sink. *)
Definition sampleController : ChatController :=
  {| embeddingService := appEmbeddingService;
     vectorStoreService := defaultVectorStore;
     cacheService := newRedisCacheService {| ccfg_defaultTTL := None |};
     persistenceService := false |}.

(** Two worlds with the same Redis content and clock. *)
Definition sameStore (w w' : World) : Prop :=
  sessions w' = sessions w /\ queries w' = queries w /\
  redis_online w' = redis_online w /\ now w' = now w.

(** A world in which the session [s1] holds one finished turn. *)
Definition worldWithHistory : World :=
  {| trace := [];
     sessions :=
       <["s1" := ([userMessageAt 900 "hello";
                   botMessageAt 900 "An answer from the articles." []], 4500)]> ∅;
     queries := ∅;
     redis_online := true;
     now := 1000 |}.

(** Two worlds that differ at most in the stored sessions, and
    computations whose result does not depend on the stored sessions. *)
Definition agreeOffSessions (wa wb : World) : Prop :=
  trace wa = trace wb /\ queries wa = queries wb /\
  redis_online wa = redis_online wb /\ now wa = now wb.

Definition sessionsBlind {A} (m : M A) : Prop :=
  forall wa wb,
    agreeOffSessions wa wb ->
    agreeOffSessions (fst (m wa)) (fst (m wb)) /\ snd (m wa) = snd (m wb).

(** ** Further sample inputs *)




(** The provider answers every batch request. *)
Definition batchesAnswered (env : Env) : Prop :=
  forall tr batch, exists data, embed_post env tr (InputBatch batch) = inr data.

(** ** vectorStoreService.js: the collection *)

(** Qdrant as far as [initialize] and [clearCollection] use it: the
    collections by name, each with the vector size and distance it was
    created with and its points, and whether the server can be reached.
    Creating a collection that exists is an error of the server; deleting
    one that does not exist is not. *)
Record CollectionInfo : Type := {
  ci_size : nat;
  ci_distance : string;
  ci_points : list Point
}.

Record Qdrant : Type := {
  qd_collections : gmap string CollectionInfo;
  qd_reachable : bool
}.

Definition qdrant_unreachable : string := "fetch failed".

Definition set_collections (c : gmap string CollectionInfo) (db : Qdrant) : Qdrant :=
  {| qd_collections := c; qd_reachable := qd_reachable db |}.

(** [client.getCollections()]: the names of the collections. *)
Definition getCollections (db : Qdrant) : Outcome (list string) :=
  if qd_reachable db then Ok (map fst (map_to_list (qd_collections db)))
  else Throw qdrant_unreachable.

(** [client.createCollection(name, { vectors: { size, distance }, ... })] *)
Definition createCollection (name : string) (size : nat) (distance : string)
    (db : Qdrant) : Qdrant * Outcome unit :=
  if qd_reachable db then
    match qd_collections db !! name with
    | Some _ => (db, Throw "Conflict")
    | None =>
        (set_collections
           (<[name := {| ci_size := size; ci_distance := distance; ci_points := [] |}]>
              (qd_collections db)) db,
         Ok tt)
    end
  else (db, Throw qdrant_unreachable).

(** [client.deleteCollection(name)] *)
Definition deleteCollection (name : string) (db : Qdrant) : Qdrant * Outcome unit :=
  if qd_reachable db
  then (set_collections (delete name (qd_collections db)) db, Ok tt)
  else (db, Throw qdrant_unreachable).

Definition initializeFailure (message : string) : Outcome unit :=
  Throw (String.append "Qdrant initialization failed: " message).

Definition initialize (store : QdrantVectorStore) (db : Qdrant)
    : Qdrant * Outcome unit :=
  match getCollections db with
  | Throw message => (db, initializeFailure message)
  | Ok collections =>
      let exists_ :=
        existsb (fun name => String.eqb name (collectionName store)) collections in
      if negb exists_ then
        match createCollection (collectionName store) (store_dimension store)
                "Cosine" db with
        | (db', Ok _) => (db', Ok tt)
        | (db', Throw message) => (db', initializeFailure message)
        end
      else (db, Ok tt)
  end.

Definition clearFailure (message : string) : Outcome unit :=
  Throw (String.append "Qdrant collection clear failed: " message).

Definition clearCollection (store : QdrantVectorStore) (db : Qdrant)
    : Qdrant * Outcome unit :=
  match deleteCollection (collectionName store) db with
  | (db1, Throw message) => (db1, clearFailure message)
  | (db1, Ok _) =>
      match initialize store db1 with
      | (db2, Ok _) => (db2, Ok tt)
      | (db2, Throw message) => (db2, clearFailure message)
      end
  end.

(** The collection that [initialize] creates for a store. *)
Definition freshCollection (store : QdrantVectorStore) : CollectionInfo :=
  {| ci_size := store_dimension store; ci_distance := "Cosine"; ci_points := [] |}.

(** A chunk as [addDocuments] receives it. *)
Definition chunkDocument (chunk : Chunk) : VectorDocument :=
  {| vd_text := chunk_text chunk; vd_embedding := None;
     vd_metadata := chunk_metadata chunk |}.

(** A server that holds the default collection with another vector size,
    and one point in it. *)
Definition sampleQdrant : Qdrant :=
  {| qd_collections :=
       <["news_articles" :=
           {| ci_size := 384; ci_distance := "Dot";
              ci_points := [makePoint 1000 [shortVector] 0 sampleVectorDocument] |}]>
       (<["other" := {| ci_size := 3; ci_distance := "Cosine"; ci_points := [] |}]> ∅);
     qd_reachable := true |}.

(** ** Cache keys *)

(** Text whose characters are all below 128: each of them is one byte of
    the buffer that [Buffer.from] builds from the text. *)
Fixpoint asciiText (s : string) : bool :=
  match s with
  | EmptyString => true
  | String a rest => (nat_of_ascii a <? 128)%nat && asciiText rest
  end.

(** The 64 digits differ from each other and from the padding sign. *)
Definition base64_digits_distinct : bool :=
  forallb
    (fun n =>
       negb (Ascii.eqb (base64_digit n) "="%char) &&
       forallb
         (fun m => implb (Ascii.eqb (base64_digit n) (base64_digit m)) (n =? m)%nat)
         (seq 0 64))
    (seq 0 64).

(** A world in which Redis cannot be reached. *)
Definition offlineWorld : World :=
  {| trace := []; sessions := ∅; queries := ∅; redis_online := false; now := 1000 |}.

Definition sampleCache : RedisCacheService :=
  newRedisCacheService {| ccfg_defaultTTL := None |}.

Definition sampleMessage : ChatMessage :=
  {| role := User; content := "What happened today?"; sources := None;
     timestamp := 1000 |}.

Definition sampleResult : CachedResult :=
  {| cr_response := "Nothing much."; cr_sources := [] |}.

(** The message of a response that carries one. *)
Definition responseMessage (r : Response) : option ChatMessage :=
  match r with
  | JsonResponse _ (BodyResponse botMessage _) => Some botMessage
  | _ => None
  end.

(** ** The SQL sink and providers that answer *)

(** Every provider answers the requests of a chat turn, and the SQL sink
    does not throw. *)
Definition providersAnswer (env : Env) : Prop :=
  (forall tr text,
      exists e data, embed_post env tr (InputText text) = inr (e :: data)) /\
  (forall tr collection request,
      exists hits, qdrant_search env tr collection request = inr hits) /\
  (forall tr turns prompt,
      exists response, gemini_sendMessage env tr turns prompt = inr response) /\
  (forall tr turns prompt, snd (gemini_sendMessageStream env tr turns prompt) = None) /\
  (forall tr sessionId message,
      persistence_saveChatMessage env tr sessionId message = None).

(** Working providers with an SQL sink that throws on every call. *)
Definition throwingSinkEnv : Env :=
  {| embed_post := embed_post workingEnv;
     qdrant_upsert := qdrant_upsert workingEnv;
     qdrant_search := qdrant_search workingEnv;
     gemini_sendMessage := gemini_sendMessage workingEnv;
     gemini_sendMessageStream := gemini_sendMessageStream workingEnv;
     persistence_saveChatMessage := fun _ _ _ => Some "SQLITE_BUSY: database is locked";
     uuidv4 := uuidv4 workingEnv |}.

(** The controller of [sampleController] with the SQL sink configured. *)
Definition persistingController : ChatController :=
  {| embeddingService := appEmbeddingService;
     vectorStoreService := defaultVectorStore;
     cacheService := newRedisCacheService {| ccfg_defaultTTL := None |};
     persistenceService := true |}.

(** A controller whose cache is configured with a time to live of -5. *)
Definition shortLivedController : ChatController :=
  {| embeddingService := appEmbeddingService;
     vectorStoreService := defaultVectorStore;
     cacheService := newRedisCacheService {| ccfg_defaultTTL := Some (-5) |};
     persistenceService := false |}.

(** The world of [worldWithHistory] while Redis cannot be reached. *)
Definition unreachableWorld : World :=
  {| trace := trace worldWithHistory; sessions := sessions worldWithHistory;
     queries := queries worldWithHistory; redis_online := false;
     now := now worldWithHistory |}.

(** * Properties *)

(** ** The primitives on sample values *)

Example lastIndexOf_samples :
  lastIndexOf "ab cd ef" " " 4 = 2 /\
  lastIndexOf "ab cd ef" " " 5 = 5 /\
  lastIndexOf "ab cd ef" " " 1 = -1 /\
  lastIndexOf "ab cd ef" "ef" 100 = 6 /\
  lastIndexOf "ab. cd. ef" ". " 8 = 6 /\
  lastIndexOf "ab cd ef" "ab" (-3) = 0.
Proof. repeat split; reflexivity. Qed.

Example js_substring_samples :
  js_substring "abcdef" 2 4 = "cd" /\
  js_substring "abcdef" 4 2 = "cd" /\
  js_substring "abcdef" 4 100 = "ef" /\
  js_substring "abcdef" (-5) 2 = "ab".
Proof. repeat split; reflexivity. Qed.

Example base64_samples :
  base64 "hello" = "aGVsbG8=" /\
  base64 "What is this system about?" = "V2hhdCBpcyB0aGlzIHN5c3RlbSBhYm91dD8=".
Proof. split; reflexivity. Qed.

(** ** Chunker *)

(** A text that is not longer than the maximum is its own only chunk, and
    the chunk of an article without metadata has the computed fields. *)
Example processDocuments_plainArticle :
  exists chunk,
    processDocuments 0 (rag_chunkerService defaultRAGService) [plainArticle]
      = Some [chunk] /\
    chunk_text chunk = "Sentence one. Sentence two. Sentence three." /\
    chunk_metadata chunk !! "docId" = Some (JsString "0") /\
    chunk_metadata chunk !! "docTitle" = Some (JsString "Title") /\
    chunk_metadata chunk !! "chunkIndex" = Some (JsNumber 0) /\
    chunk_metadata chunk !! "totalChunks" = Some (JsNumber 1) /\
    chunk_metadata chunk !! "source" = Some (JsString "feed").
Proof. eexists. split; [reflexivity |]. vm_compute. repeat split; reflexivity. Qed.


Lemma chunkLoop_unfold fuel svc text st :
  chunkLoop fuel svc text st =
  if fst st <? strlen text then
    match fuel with
    | O => None
    | S fuel' => chunkLoop fuel' svc text (chunkStep svc text st)
    end
  else Some (snd st).
Proof. destruct fuel; reflexivity. Qed.

(** A loop state that the body maps to itself, and that passes the loop
    test, is never left. *)
Lemma chunkLoop_stuck svc text st :
  (fst st <? strlen text) = true ->
  chunkStep svc text st = st ->
  forall fuel, chunkLoop fuel svc text st = None.
Proof.
  intros Hguard Hstep fuel.
  induction fuel as [|fuel IH]; rewrite chunkLoop_unfold, Hguard.
  - reflexivity.
  - rewrite Hstep. exact IH.
Qed.

Lemma chunkText_short fuel svc text :
  strlen text <= maxChunkSize svc -> chunkText fuel svc text = Some [text].
Proof.
  intros Hle. unfold chunkText.
  destruct (Z.leb_spec (strlen text) (maxChunkSize svc)); [reflexivity | lia].
Qed.

(** The test under "Ensure we make progress" in [chunkText] compares the
    next start index with the number of chunks, not with the previous
    start index. With maxChunkSize 1000, overlap 50 and minChunkSize 100,
    on a text of 1100 characters whose only space is at index 99, the loop
    never ends: from the second pass on, the start index is 50 again after
    every pass. With the settings of the ingestion service (6000, 200,
    100), on a text of 6300 characters whose only space is at index 299,
    the loop ends after 103 passes, where the rounded-up quotient of the
    text length by maxSize - overlap is 2. *)
Lemma chunkText_progress_guard_fails :
  (strlen longWordText > maxChunkSize stuckChunker /\
   forall fuel, chunkText fuel stuckChunker longWordText = None) /\
  (strlen earlyBreakText > maxChunkSize (rag_chunkerService defaultRAGService) /\
   chunkPasses 103 (rag_chunkerService defaultRAGService) earlyBreakText (0, [])
     = Some 103%nat /\
   specPassBound (rag_chunkerService defaultRAGService) earlyBreakText = 2).
Proof.
  split.
  - split; [vm_compute; reflexivity |].
    intros fuel. unfold chunkText.
    replace (strlen longWordText <=? maxChunkSize stuckChunker) with false
      by (vm_compute; reflexivity).
    rewrite chunkLoop_unfold.
    replace (fst (0, @nil string) <? strlen longWordText) with true
      by (vm_compute; reflexivity).
    destruct fuel as [|fuel]; [reflexivity |].
    apply chunkLoop_stuck.
    + vm_compute; reflexivity.
    + vm_compute; reflexivity.
  - split; [vm_compute; reflexivity |].
    split; vm_compute; reflexivity.
Qed.

Lemma chunkPasses_unfold fuel svc text st :
  chunkPasses fuel svc text st =
  if fst st <? strlen text then
    match fuel with
    | O => None
    | S fuel' => S <$> chunkPasses fuel' svc text (chunkStep svc text st)
    end
  else Some O.
Proof. destruct fuel; reflexivity. Qed.

(** When the passes can be counted, the loop has ended. *)
Lemma chunkPasses_chunkLoop svc text :
  forall fuel st n,
    chunkPasses fuel svc text st = Some n ->
    exists chunks, chunkLoop fuel svc text st = Some chunks.
Proof.
  induction fuel as [|fuel IH]; intros st n Hn;
    rewrite chunkPasses_unfold in Hn; rewrite chunkLoop_unfold;
    destruct (fst st <? strlen text); try discriminate; try (eexists; reflexivity).
  destruct (chunkPasses fuel svc text (chunkStep svc text st)) as [m|] eqn:Hm;
    [|discriminate].
  apply (IH _ _ Hm).
Qed.

Lemma unbroken_tail a s : unbroken (String a s) -> unbroken s.
Proof.
  intros [Hs Hl]. simpl in Hs, Hl.
  apply orb_false_iff in Hs as [_ Hs], Hl as [_ Hl]. split; assumption.
Qed.

Lemma prefix_first c pat s :
  has_char c s = false -> String.prefix (String c pat) s = false.
Proof.
  destruct s as [|a s']; simpl; [reflexivity |].
  intros H. apply orb_false_iff in H as [Ha _].
  destruct (ascii_dec c a) as [-> | _]; [|reflexivity].
  rewrite Ascii.eqb_refl in Ha. discriminate.
Qed.

Lemma prefix_second c0 c s :
  has_char c s = false ->
  String.prefix (String c0 (String c EmptyString)) s = false.
Proof.
  destruct s as [|a [|b s']]; simpl; try reflexivity.
  - destruct (ascii_dec c0 a); reflexivity.
  - intros H. apply orb_false_iff in H as [_ H].
    apply orb_false_iff in H as [Hb _].
    destruct (ascii_dec c0 a); [|reflexivity].
    destruct (ascii_dec c b) as [-> | _]; [|reflexivity].
    rewrite Ascii.eqb_refl in Hb. discriminate.
Qed.

Lemma lastIndexOf_scan_unfold pat text i steps found :
  lastIndexOf_scan pat text i steps found =
  let found := if String.prefix pat text then Z.of_nat i else found in
  match steps, text with
  | S steps', String _ rest => lastIndexOf_scan pat rest (S i) steps' found
  | _, _ => found
  end.
Proof. destruct text; reflexivity. Qed.

Lemma lastIndexOf_scan_unbroken pat :
  (forall s, unbroken s -> String.prefix pat s = false) ->
  forall text i steps found,
    unbroken text -> lastIndexOf_scan pat text i steps found = found.
Proof.
  intros Hpat. induction text as [|a text IH]; intros i steps found Hu;
    rewrite lastIndexOf_scan_unfold, (Hpat _ Hu); cbv zeta;
    destruct steps; try reflexivity.
  apply IH. apply (unbroken_tail _ _ Hu).
Qed.

(** Without break points the window ends at the naive end. *)
Lemma chunkEnd_unbroken svc text startIndex :
  unbroken text -> 0 <= startIndex ->
  chunkEnd svc text startIndex = startIndex + maxChunkSize svc.
Proof.
  intros Hu Hstart. unfold chunkEnd, lastIndexOf.
  rewrite !lastIndexOf_scan_unbroken; try assumption.
  - destruct (startIndex + maxChunkSize svc <? strlen text); [|reflexivity].
    destruct (Z.gtb_spec (-1) startIndex); [lia | reflexivity].
  - intros s [Hs _]. apply prefix_first. exact Hs.
  - intros s [Hs _]. apply prefix_second. exact Hs.
  - intros s [_ Hl]. apply prefix_first. exact Hl.
Qed.

Lemma chunkStep_unbroken svc text startIndex chunks :
  unbroken text -> 0 <= startIndex ->
  let step := maxChunkSize svc - overlap svc in
  0 < startIndex + step ->
  Z.of_nat (length chunks) < startIndex + step ->
  exists chunks',
    chunkStep svc text (startIndex, chunks) = (startIndex + step, chunks') /\
    (length chunks' <= S (length chunks))%nat.
Proof.
  intros Hu Hstart step Hpos Hcount. unfold chunkStep.
  rewrite (chunkEnd_unbroken _ _ _ Hu Hstart).
  set (chunk := js_substring text startIndex (startIndex + maxChunkSize svc)).
  set (chunks' := if strlen chunk >=? minChunkSize svc then chunks ++ [chunk]
                  else chunks).
  assert (Hlen : (length chunks' <= S (length chunks))%nat).
  { unfold chunks'. destruct (strlen chunk >=? minChunkSize svc);
      [rewrite length_app; simpl; lia | lia]. }
  exists chunks'. split; [|exact Hlen].
  replace (startIndex + maxChunkSize svc - overlap svc) with (startIndex + step)
    by (unfold step; lia).
  destruct (Z.leb_spec (startIndex + step) 0); [lia |].
  destruct (Z.leb_spec (startIndex + step) (Z.of_nat (length chunks') - 1));
    [lia | reflexivity].
Qed.

(** Without break points, pass [k] starts at [k] times [maxSize - overlap],
    and the loop ends after the rounded-up quotient of the text length by
    that step. *)
Lemma chunkPasses_unbroken svc text :
  unbroken text ->
  let step := maxChunkSize svc - overlap svc in
  0 < step ->
  forall fuel k chunks,
    0 <= k <= specPassBound svc text ->
    Z.of_nat (length chunks) <= k ->
    (Z.to_nat (specPassBound svc text - k) <= fuel)%nat ->
    chunkPasses fuel svc text (k * step, chunks)
    = Some (Z.to_nat (specPassBound svc text - k)).
Proof.
  intros Hu step Hstep.
  assert (Hlen : 0 <= strlen text) by (unfold strlen; lia).
  assert (Hbelow : forall k, k * step < strlen text -> k < specPassBound svc text).
  { intros k Hk. unfold specPassBound. fold step.
    assert (k + 1 <= (strlen text + step - 1) / step)
      by (apply Z.div_le_lower_bound; [exact Hstep | lia]).
    lia. }
  assert (Habove : forall k, strlen text <= k * step -> specPassBound svc text <= k).
  { intros k Hk. unfold specPassBound. fold step.
    assert ((strlen text + step - 1) / step < k + 1)
      by (apply Z.div_lt_upper_bound; [exact Hstep | lia]).
    lia. }
  induction fuel as [|fuel IH]; intros k chunks Hk Hcount Hfuel;
    rewrite chunkPasses_unfold; simpl fst;
    destruct (Z.ltb_spec (k * step) (strlen text)) as [Hin | Hout].
  - apply Hbelow in Hin. lia.
  - apply Habove in Hout. replace (specPassBound svc text - k) with 0 by lia.
    reflexivity.
  - apply Hbelow in Hin as Hlt.
    destruct (chunkStep_unbroken svc text (k * step) chunks Hu)
      as (chunks' & -> & Hcount'); [nia | fold step; nia | fold step; nia |].
    fold step. replace (k * step + step) with ((k + 1) * step) by lia.
    rewrite IH by lia.
    simpl. f_equal. lia.
  - apply Habove in Hout. replace (specPassBound svc text - k) with 0 by lia.
    reflexivity.
Qed.

(** C6 (as amended). On a text longer than maxSize that has no space and
    no line feed, so that no break point is found, and with an overlap
    smaller than maxSize, [chunkText] ends, after exactly the rounded-up
    quotient of the text length by maxSize - overlap loop passes. In every
    pass, on any text, the cursor is set to the boundary when boundary -
    overlap is not positive. *)
Theorem chunkText_unbroken_passes svc text fuel :
  unbroken text ->
  overlap svc < maxChunkSize svc ->
  maxChunkSize svc < strlen text ->
  (Z.to_nat (specPassBound svc text) <= fuel)%nat ->
  chunkPasses fuel svc text (0, []) = Some (Z.to_nat (specPassBound svc text)) /\
  (exists chunks, chunkText fuel svc text = Some chunks) /\
  (forall startIndex chunks,
     chunkEnd svc text startIndex - overlap svc <= 0 ->
     fst (chunkStep svc text (startIndex, chunks)) = chunkEnd svc text startIndex).
Proof.
  intros Hu Hoverlap Hlong Hfuel.
  assert (Hpasses : chunkPasses fuel svc text (0, [])
                    = Some (Z.to_nat (specPassBound svc text))).
  { pose proof (chunkPasses_unbroken svc text Hu) as H. cbv zeta in H.
    specialize (H ltac:(lia) fuel 0 []).
    rewrite Z.mul_0_l, Z.sub_0_r in H. apply H.
    - split; [lia |]. unfold specPassBound. apply Z.div_pos; unfold strlen; lia.
    - simpl. lia.
    - exact Hfuel. }
  split; [exact Hpasses |]. split.
  - unfold chunkText.
    destruct (Z.leb_spec (strlen text) (maxChunkSize svc)); [lia |].
    apply (chunkPasses_chunkLoop _ _ _ _ _ Hpasses).
  - intros startIndex chunks Hback. unfold chunkStep. simpl.
    destruct (Z.leb_spec (chunkEnd svc text startIndex - overlap svc) 0);
      [reflexivity | lia].
Qed.

(** With the default settings, [wordsText] (2000 characters, spaces at
    500, 1001 and 1402) is cut in four passes, which start at 0, 401, 902
    and 1303; the rounded-up quotient of 2000 by 1000 - 100 is 3. *)
Lemma chunkText_exceeds_pass_bound :
  strlen wordsText > maxChunkSize (newChunkerService emptyChunkerConfig) /\
  chunkPasses 4 (newChunkerService emptyChunkerConfig) wordsText (0, [])
    = Some 4%nat /\
  map fst (map (chunkState (newChunkerService emptyChunkerConfig) wordsText)
             [0; 1; 2; 3]%nat) = [0; 401; 902; 1303] /\
  specPassBound (newChunkerService emptyChunkerConfig) wordsText = 3.
Proof.
  split; [vm_compute; reflexivity |].
  split; [vm_compute; reflexivity |].
  split; vm_compute; reflexivity.
Qed.

Lemma chunkText_unbroken_passes_witness :
  chunkPasses 3 (newChunkerService emptyChunkerConfig) (string_repeat "y" 2500) (0, [])
    = Some 3%nat /\
  (exists chunks,
      chunkText 3 (newChunkerService emptyChunkerConfig) (string_repeat "y" 2500)
      = Some chunks) /\
  (forall startIndex chunks,
     chunkEnd (newChunkerService emptyChunkerConfig) (string_repeat "y" 2500) startIndex
       - overlap (newChunkerService emptyChunkerConfig) <= 0 ->
     fst (chunkStep (newChunkerService emptyChunkerConfig) (string_repeat "y" 2500)
            (startIndex, chunks))
     = chunkEnd (newChunkerService emptyChunkerConfig) (string_repeat "y" 2500)
         startIndex).
Proof.
  apply (chunkText_unbroken_passes (newChunkerService emptyChunkerConfig)
           (string_repeat "y" 2500) 3).
  - split; vm_compute; reflexivity.
  - reflexivity.
  - vm_compute. reflexivity.
  - vm_compute. lia.
Defined.

(** [{ ...base, ...extra }] read at one key: the value of [extra] where it
    has the key, that of [base] elsewhere. *)
Lemma lookup_spread_over base extra key :
  spread_over base extra !! key =
  match extra ≫= (.!! key) with
  | Some v => Some v
  | None => base !! key
  end.
Proof.
  destruct extra as [m|]; simpl; [|reflexivity].
  rewrite lookup_union. destruct (m !! key), (base !! key); reflexivity.
Qed.

Lemma processFrom_chunks fuel svc documents :
  forall docIndex chunks result,
    processFrom fuel svc docIndex documents chunks = Some result ->
    exists added,
      result = chunks ++ added /\
      Forall (chunkFrom fuel svc documents docIndex) added.
Proof.
  induction documents as [|doc rest IH]; intros docIndex chunks result Hrun.
  - simpl in Hrun. injection Hrun as <-. exists []. split.
    + symmetry. apply app_nil_r.
    + constructor.
  - simpl in Hrun.
    destruct (chunkText fuel svc (docText doc)) as [pieces|] eqn:Hpieces;
      [|discriminate].
    destruct (IH _ _ _ Hrun) as (added & -> & Hadded).
    exists (imap (chunkObject doc docIndex (length pieces)) pieces ++ added).
    split; [symmetry; apply app_assoc |].
    apply Forall_app. split.
    + apply Forall_forall. intros chunk Hin.
      apply elem_of_lookup_imap_1 in Hin as (chunkIndex & piece & -> & Hpiece).
      exists 0%nat, doc, pieces, chunkIndex.
      repeat split; [assumption | assumption |].
      intros key. simpl. rewrite Nat.add_0_r. apply lookup_spread_over.
    + eapply Forall_impl; [exact Hadded |].
      intros chunk (k & doc' & pieces' & chunkIndex & Hdoc & Hcut & Hpiece & Hmeta).
      exists (S k), doc', pieces', chunkIndex.
      repeat split; try assumption.
      intros key. rewrite Hmeta. replace (docIndex + S k)%nat with (S docIndex + k)%nat by lia.
      reflexivity.
Qed.

(** [processDocuments] gives no result only while the loop of [chunkText]
    is still running on one of the documents. *)
Lemma processFrom_None fuel svc documents :
  forall docIndex chunks,
    processFrom fuel svc docIndex documents chunks = None ->
    exists doc, doc ∈ documents /\ chunkText fuel svc (docText doc) = None.
Proof.
  induction documents as [|doc rest IH]; intros docIndex chunks Hrun.
  - discriminate.
  - simpl in Hrun.
    destruct (chunkText fuel svc (docText doc)) as [pieces|] eqn:Hpieces.
    + destruct (IH _ _ Hrun) as (doc' & Hin & Hstuck).
      exists doc'. split; [right; exact Hin | exact Hstuck].
    + exists doc. split; [left | exact Hpieces].
Qed.

(** C3 (as amended). Every chunk that [processDocuments] produces comes
    from one of the documents, and its metadata has, for every key of that
    document's metadata, the document's value: also for docId, docTitle,
    chunkIndex, totalChunks and source. The values computed for the chunk
    appear only under the keys that the document's metadata lacks.
    [processDocuments] produces its chunks unless the loop of [chunkText]
    does not end on one of the documents. *)
Theorem processDocuments_metadata_precedence fuel svc documents :
  match processDocuments fuel svc documents with
  | Some chunks => Forall (chunkFrom fuel svc documents 0) chunks
  | None => exists doc, doc ∈ documents /\ chunkText fuel svc (docText doc) = None
  end.
Proof.
  unfold processDocuments.
  destruct (processFrom fuel svc 0 documents []) as [chunks|] eqn:Hrun.
  - apply processFrom_chunks in Hrun as (added & -> & Hadded).
    exact Hadded.
  - apply processFrom_None in Hrun. exact Hrun.
Qed.

(** The chunk-computed [chunkIndex] of the only chunk of [taggedDocument]
    is 0; the chunk carries the document's 7. *)
Lemma processDocuments_reserved_key_overwritten :
  exists chunk,
    processDocuments 0 (newChunkerService emptyChunkerConfig) [taggedDocument]
      = Some [chunk] /\
    chunkFields taggedDocument 0 0 1 !! "chunkIndex" = Some (JsNumber 0) /\
    chunk_metadata chunk !! "chunkIndex" = Some (JsNumber 7).
Proof.
  eexists. split; [reflexivity |]. split; vm_compute; reflexivity.
Qed.

Lemma processDocuments_metadata_precedence_witness :
  Forall (chunkFrom 0 (newChunkerService emptyChunkerConfig) [taggedDocument] 0)
    [chunkObject taggedDocument 0 1 0 (docText taggedDocument)].
Proof.
  exact (processDocuments_metadata_precedence 0 (newChunkerService emptyChunkerConfig)
           [taggedDocument]).
Defined.

(** ** Embedding service *)

Lemma embedText_run env svc text w :
  embedText env svc text w =
  (log_event (EvEmbed (InputText (_truncateText svc text))) w,
   match embed_post env (trace w) (InputText (_truncateText svc text)) with
   | inr (e :: _) => Ok e
   | inr [] =>
       Throw (String.append "Failed to generate embedding: "
                "Cannot read properties of undefined (reading 'embedding')")
   | inl message => Throw (String.append "Failed to generate embedding: " message)
   end).
Proof.
  unfold embedText, try_catch, bind, axios_post, ret, throw.
  destruct (embed_post env (trace w) (InputText (_truncateText svc text)))
    as [message | [|e data]]; reflexivity.
Qed.

Lemma slice_length {A} (l : list A) i n :
  length (slice l i (i + n)) = Nat.min n (length l - i).
Proof.
  unfold slice. rewrite length_take, length_drop.
  replace (i + n - i)%nat with n by lia. reflexivity.
Qed.

Lemma slice_lookup {A} (l : list A) i n k x :
  slice l i (i + n) !! k = Some x -> l !! (i + k)%nat = Some x.
Proof.
  unfold slice. replace (i + n - i)%nat with n by lia.
  intros H. apply lookup_take_Some in H as [H _].
  rewrite lookup_drop in H. exact H.
Qed.

Lemma zeroEmbedding_length d : length (zeroEmbedding d) = d.
Proof. apply length_replicate. Qed.

(** The fallback never throws: it appends one entry per text of the batch. *)
Lemma embedEach_spec env svc batch :
  forall embeddings w,
  exists w' added,
    embedEach env svc batch embeddings w = (w', Ok (embeddings ++ added)) /\
    length added = length batch /\
    forall k e, added !! k = Some e ->
      exists text, batch !! k = Some text /\ fallbackSource env svc text e.
Proof.
  induction batch as [|text rest IH]; intros embeddings w.
  - exists w, []. simpl. unfold ret. rewrite app_nil_r.
    split; [reflexivity |]. split; [reflexivity |].
    intros k e Hk. rewrite lookup_nil in Hk. discriminate.
  - simpl. unfold bind at 1. unfold try_catch, bind. rewrite embedText_run.
    destruct (embed_post env (trace w) (InputText (_truncateText svc text)))
      as [message | [|e0 data]] eqn:Hpost; unfold ret.
    all: match goal with
         | |- context [embedEach _ _ _ (_ ++ [?x]) ?w1] =>
             destruct (IH (embeddings ++ [x]) w1) as (w' & added & Hrun & Hlen & Hsrc);
             exists w', (x :: added)
         end.
    all: rewrite Hrun, <- app_assoc; simpl.
    all: split; [reflexivity |]; split; [lia |].
    all: intros [|k] e Hk; simpl in Hk;
         [injection Hk as <-; exists text; split; [reflexivity |]
         | destruct (Hsrc k e Hk) as (text' & Hin & Hfb); exists text'; split; assumption].
    + right. split; [reflexivity |]. exists (trace w). rewrite Hpost. exact I.
    + right. split; [reflexivity |]. exists (trace w). rewrite Hpost. exact I.
    + left. exists (trace w), data. exact Hpost.
Qed.

Lemma embedBatchLoop_unfold fuel env svc truncatedTexts i embeddings w :
  embedBatchLoop fuel env svc truncatedTexts i embeddings w =
  if (i <? length truncatedTexts)%nat then
    match fuel with
    | O => None
    | S fuel' =>
        match embedBatchPass env svc (slice truncatedTexts i (i + batchSize svc))
                embeddings w with
        | (w', Ok embeddings') =>
            embedBatchLoop fuel' env svc truncatedTexts (i + batchSize svc)
                           embeddings' w'
        | (w', Throw message) => Some (w', Throw message)
        end
    end
  else Some (w, Ok embeddings).
Proof. destruct fuel; reflexivity. Qed.

(** One pass either throws, for a failed batch of one text, or appends one
    entry per text of the batch. *)
Lemma embedBatchPass_spec env svc truncatedTexts i embeddings w :
  answersPerText env ->
  (i < length truncatedTexts)%nat ->
  (1 <= batchSize svc)%nat ->
  let batch := slice truncatedTexts i (i + batchSize svc) in
  exists w' r,
    embedBatchPass env svc batch embeddings w = (w', r) /\
    match r with
    | Ok result =>
        exists added,
          result = embeddings ++ added /\
          length added = length batch /\
          forall k e, added !! k = Some e ->
            entrySource env svc truncatedTexts (i + k) e
    | Throw _ => singleTextBatchFailed env svc truncatedTexts
    end.
Proof.
  intros Hanswers Hi Hsize batch.
  assert (Hbatch : length batch = Nat.min (batchSize svc) (length truncatedTexts - i))
    by apply slice_length.
  unfold embedBatchPass, try_catch, bind, axios_post, ret.
  destruct (embed_post env (trace w) (InputBatch batch)) as [message | data] eqn:Hpost.
  - destruct (Nat.ltb_spec 1 (length batch)) as [Hmany | Hone].
    + destruct (embedEach_spec env svc batch embeddings
                  (log_event (EvEmbed (InputBatch batch)) w))
        as (w' & added & Hrun & Hlen & Hsrc).
      exists w', (Ok (embeddings ++ added)). split; [exact Hrun |].
      exists added. split; [reflexivity |]. split; [exact Hlen |].
      intros k e Hk. destruct (Hsrc k e Hk) as (text & Hin & Hfb).
      exists text. split; [|right; exact Hfb].
      apply (slice_lookup _ _ _ _ _ Hin).
    + eexists _, (Throw _). split; [reflexivity |].
      destruct batch as [|text [|text' rest]] eqn:Hshape; simpl in *; try lia.
      exists i, text, (trace w), message. split; [exact Hshape | exact Hpost].
  - exists (log_event (EvEmbed (InputBatch batch)) w), (Ok (embeddings ++ data)).
    split; [reflexivity |].
    exists data. split; [reflexivity |]. split; [exact (Hanswers _ _ _ Hpost) |].
    intros k e Hk.
    assert (Hlt : (k < length batch)%nat).
    { rewrite <- (Hanswers _ _ _ Hpost). apply lookup_lt_Some in Hk. exact Hk. }
    destruct (lookup_lt_is_Some_2 batch k Hlt) as [text Htext].
    exists text. split; [apply (slice_lookup _ _ _ _ _ Htext) |].
    left. exists (trace w), i, data. split; [exact Hpost |]. split; [lia |].
    replace (i + k - i)%nat with k by lia. exact Hk.
Qed.

Lemma embedBatchLoop_spec env svc truncatedTexts :
  answersPerText env ->
  (1 <= batchSize svc)%nat ->
  forall fuel i embeddings w,
    (length truncatedTexts - i <= fuel)%nat ->
    length embeddings = Nat.min i (length truncatedTexts) ->
    (forall j e, embeddings !! j = Some e ->
       entrySource env svc truncatedTexts j e) ->
    exists w' r,
      embedBatchLoop fuel env svc truncatedTexts i embeddings w = Some (w', r) /\
      match r with
      | Ok result =>
          length result = length truncatedTexts /\
          forall j e, result !! j = Some e ->
            entrySource env svc truncatedTexts j e
      | Throw _ => singleTextBatchFailed env svc truncatedTexts
      end.
Proof.
  intros Hanswers Hsize fuel.
  induction fuel as [|fuel IH]; intros i embeddings w Hfuel Hlen Hsrc;
    rewrite embedBatchLoop_unfold;
    destruct (Nat.ltb_spec i (length truncatedTexts)) as [Hi | Hi].
  - lia.
  - exists w, (Ok embeddings). split; [reflexivity |]. split; [lia | exact Hsrc].
  - destruct (embedBatchPass_spec env svc truncatedTexts i embeddings w
                Hanswers Hi Hsize) as (w1 & r & Hpass & Hpost).
    rewrite Hpass. destruct r as [result | message].
    + destruct Hpost as (added & -> & Hadded & Hnew).
      rewrite slice_length in Hadded.
      apply IH.
      * lia.
      * rewrite length_app. lia.
      * intros j e Hj.
        destruct (Nat.lt_ge_cases j (length embeddings)) as [Hold | Hfresh].
        -- rewrite lookup_app_l in Hj by exact Hold. apply Hsrc. exact Hj.
        -- rewrite lookup_app_r in Hj by exact Hfresh.
           replace j with (i + (j - length embeddings))%nat by lia.
           apply Hnew. exact Hj.
    + exists w1, (Throw message). split; [reflexivity | exact Hpost].
  - exists w, (Ok embeddings). split; [reflexivity |]. split; [lia | exact Hsrc].
Qed.

Lemma batchSize_positive config :
  (1 <= batchSize (newJinaEmbeddingService config))%nat.
Proof.
  destruct config as [[[|n]|] d m]; simpl; lia.
Qed.

(** C2 (as amended). With enough fuel for one pass per text, and a provider
    that answers a batch with one embedding per text, [embedBatch] always
    ends. It throws only after the request for a batch of exactly one text
    has failed. Otherwise it returns as many entries as there are texts,
    entry [j] being the provider's answer for text [j] or, where the
    single-text request of the fallback gave no embedding, a vector of
    zeros of the configured dimension; when every call to the provider
    fails, all entries are such vectors of zeros. *)
Theorem embedBatch_outcome env config texts fuel w :
  let svc := newJinaEmbeddingService config in
  (length texts <= fuel)%nat ->
  answersPerText env ->
  exists w' r,
    embedBatch fuel env svc texts w = Some (w', r) /\
    match r with
    | Ok embeddings =>
        length embeddings = length texts /\
        (forall j e, embeddings !! j = Some e ->
           entrySource env svc (map (_truncateText svc) texts) j e) /\
        (allCallsFail env ->
           embeddings = replicate (length texts) (zeroEmbedding (dimension svc)))
    | Throw _ => singleTextBatchFailed env svc (map (_truncateText svc) texts)
    end.
Proof.
  intros svc Hfuel Hanswers. unfold embedBatch.
  destruct (embedBatchLoop_spec env svc (map (_truncateText svc) texts)
              Hanswers (batchSize_positive config) fuel 0%nat [] w)
    as (w' & r & Hrun & Hpost).
  - rewrite length_map. lia.
  - reflexivity.
  - intros j e Hj. rewrite lookup_nil in Hj. discriminate.
  - exists w', r. split; [exact Hrun |].
    destruct r as [embeddings | message]; [|exact Hpost].
    destruct Hpost as [Hlen Hsrc]. rewrite length_map in Hlen.
    split; [exact Hlen |]. split; [exact Hsrc |].
    intros Hfail. apply list_eq. intros j.
    destruct (embeddings !! j) as [e|] eqn:Hj.
    + assert (Hlt : (j < length texts)%nat).
      { apply lookup_lt_Some in Hj. rewrite Hlen in Hj. exact Hj. }
      rewrite (lookup_replicate_2 _ (zeroEmbedding (dimension svc)) _ Hlt). f_equal.
      destruct (Hsrc j e Hj) as (text & _ & [(tr & i & data & Hpost & _) | Hfb]).
      * destruct (Hfail tr (InputBatch (slice (map (_truncateText svc) texts) i
                                            (i + batchSize svc)))) as [m Hm].
        rewrite Hm in Hpost. discriminate.
      * destruct Hfb as [(tr & data & Hpost) | [Hzero _]].
        -- destruct (Hfail tr (InputText (_truncateText svc text))) as [m Hm].
           rewrite Hm in Hpost. discriminate.
        -- exact Hzero.
    + symmetry. apply lookup_replicate_None.
      apply lookup_ge_None in Hj. lia.
Qed.

(** With a provider that always fails, [embedBatch] of one text throws:
    no list of length one is returned. *)
Lemma embedBatch_single_text_throws :
  allCallsFail failingEnv /\
  embedBatch 1 failingEnv appEmbeddingService ["only text"] emptyWorld =
  Some (log_event (EvEmbed (InputBatch ["only text"])) emptyWorld,
        Throw "Failed to generate batch embeddings: Request failed with status code 500").
Proof.
  split; [|reflexivity].
  intros tr input. eexists. reflexivity.
Qed.

Lemma embedBatch_outcome_witness :
  exists w' r,
    embedBatch 3 workingEnv (newJinaEmbeddingService pairBatches)
      ["a"; "bb"; "ccc"] emptyWorld = Some (w', r) /\
    match r with
    | Ok embeddings =>
        length embeddings = 3%nat /\
        (forall j e, embeddings !! j = Some e ->
           entrySource workingEnv (newJinaEmbeddingService pairBatches)
             (map (_truncateText (newJinaEmbeddingService pairBatches))
                  ["a"; "bb"; "ccc"]) j e) /\
        (allCallsFail workingEnv ->
           embeddings =
           replicate 3 (zeroEmbedding (dimension (newJinaEmbeddingService pairBatches))))
    | Throw _ =>
        singleTextBatchFailed workingEnv (newJinaEmbeddingService pairBatches)
          (map (_truncateText (newJinaEmbeddingService pairBatches)) ["a"; "bb"; "ccc"])
    end.
Proof.
  apply (embedBatch_outcome workingEnv pairBatches ["a"; "bb"; "ccc"] 3 emptyWorld).
  - simpl. lia.
  - intros tr texts data Hpost. simpl in Hpost.
    injection Hpost as <-. apply length_map.
Defined.

(** With every call failing and no batch of one text, all entries are zeros. *)
Example embedBatch_all_zero :
  embedBatch 2 failingEnv (newJinaEmbeddingService pairBatches) ["a"; "bb"] emptyWorld
  = Some (log_event (EvEmbed (InputText "bb"))
            (log_event (EvEmbed (InputText "a"))
               (log_event (EvEmbed (InputBatch ["a"; "bb"])) emptyWorld)),
          Ok [[0; 0; 0]%Q; [0; 0; 0]%Q]).
Proof. reflexivity. Qed.

(** ** Vector store *)

Lemma makePoint_vector time embeddings documents i doc :
  length documents = length embeddings ->
  documents !! i = Some doc ->
  point_vector <$> imap (makePoint time embeddings) documents !! i = embeddings !! i.
Proof.
  intros Hlen Hdoc. rewrite list_lookup_imap, Hdoc. simpl.
  destruct (lookup_lt_is_Some_2 embeddings i) as [v Hv].
  - rewrite <- Hlen. apply lookup_lt_Some in Hdoc. exact Hdoc.
  - unfold Embedding in *. rewrite Hv. reflexivity.
Qed.

(** C5 (as amended). [addDocuments] compares, before the call to the
    provider, the number of documents with the number of embeddings, and
    nothing else: when the counts differ it throws without calling the
    provider; when they agree it hands every vector to the provider as it
    is, whatever its length, and fails only if the provider does. *)
Theorem addDocuments_checks_counts_only env store documents embeddings w :
  let points := imap (makePoint (now w) embeddings) documents in
  addDocuments env store documents (Some embeddings) w =
  (if decide (length documents = length embeddings) then
     (log_event (EvUpsert (collectionName store) points) w,
      match qdrant_upsert env (trace w) (collectionName store) points with
      | Some message =>
          Throw (String.append "Qdrant document insertion failed: " message)
      | None => Ok tt
      end)
   else
     (w, Throw "Qdrant document insertion failed: Documents and embeddings count mismatch"))
  /\
  (length documents = length embeddings ->
   forall i doc, documents !! i = Some doc ->
     point_vector <$> points !! i = embeddings !! i).
Proof.
  intros points. split.
  - unfold addDocuments, try_catch, bind, Date_now, client_upsert, throw.
    destruct (decide (length documents = length embeddings)) as [Heq | Hne].
    + rewrite (proj2 (Nat.eqb_eq _ _) Heq). simpl. fold points.
      destruct (qdrant_upsert env (trace w) (collectionName store) points);
        reflexivity.
    + rewrite (proj2 (Nat.eqb_neq _ _) Hne). reflexivity.
  - intros Hlen i doc Hdoc. apply (makePoint_vector _ _ _ _ _ Hlen Hdoc).
Qed.

(** A store configured for 768 dimensions accepts a vector of length 1
    and sends it to the provider. *)
Lemma addDocuments_accepts_any_length :
  store_dimension defaultVectorStore = 768%nat /\
  length shortVector = 1%nat /\
  exists point,
    point_vector point = shortVector /\
    addDocuments workingEnv defaultVectorStore [sampleVectorDocument]
      (Some [shortVector]) emptyWorld
    = (log_event (EvUpsert "news_articles" [point]) emptyWorld, Ok tt).
Proof.
  split; [reflexivity |]. split; [reflexivity |].
  eexists. split; [|reflexivity]. reflexivity.
Qed.

(** The request that [similaritySearch] sends has no score threshold, and
    the documents it returns are the provider's hits, in the provider's
    order, with the provider's scores. *)
Lemma similaritySearch_run env store queryEmbedding limit w :
  let request :=
    {| sr_vector := queryEmbedding; sr_limit := default 5%nat limit;
       sr_with_payload := true; sr_with_vectors := false;
       sr_score_threshold := None |} in
  similaritySearch env store queryEmbedding limit w =
  (log_event (EvSearch (collectionName store) request) w,
   match qdrant_search env (trace w) (collectionName store) request with
   | inl message => Throw (String.append "Qdrant search failed: " message)
   | inr hits => Ok (map hitDocument hits)
   end).
Proof.
  intros request.
  unfold similaritySearch, try_catch, bind, client_search, ret, throw.
  fold request.
  destruct (qdrant_search env (trace w) (collectionName store) request);
    reflexivity.
Qed.

(** The documents have the provider's scores, in the provider's order. *)
Lemma similaritySearch_scores env store queryEmbedding limit w w' docs :
  similaritySearch env store queryEmbedding limit w = (w', Ok docs) ->
  exists hits,
    qdrant_search env (trace w) (collectionName store)
      {| sr_vector := queryEmbedding; sr_limit := default 5%nat limit;
         sr_with_payload := true; sr_with_vectors := false;
         sr_score_threshold := None |} = inr hits /\
    length docs = length hits /\
    map rd_score docs = map hit_score hits.
Proof.
  rewrite similaritySearch_run. cbv zeta.
  destruct (qdrant_search env (trace w) (collectionName store) _) as [m | hits];
    [discriminate |].
  intros [= _ <-]. exists hits. split; [reflexivity |].
  split; [apply length_map |].
  rewrite map_map. reflexivity.
Qed.

(** ** RAG service *)

(** C4. [query] is called with threshold 0.7 on a collection that holds
    one document of score 0.9 and one of score 0.1. The search request
    that reaches the provider has no threshold, and the document of score
    0.1 is returned; the same provider, given the threshold, leaves it out. *)
Theorem query_returns_below_threshold :
  exists w' kept dropped,
    query workingEnv defaultRAGService "what happened?"
      {| qo_topK := Some 5%nat; qo_threshold := Some (7 # 10)%Q |} emptyWorld
    = (w', Ok [kept; dropped]) /\
    rd_score dropped = (1 # 10)%Q /\
    Qlt (rd_score dropped) (7 # 10) /\
    last (trace w') =
      Some (EvSearch "news_articles"
              {| sr_vector := lengthEmbedding "what happened?"; sr_limit := 5;
                 sr_with_payload := true; sr_with_vectors := false;
                 sr_score_threshold := None |}) /\
    map hitDocument
      (sampleSearch
         {| sr_vector := lengthEmbedding "what happened?"; sr_limit := 5;
            sr_with_payload := true; sr_with_vectors := false;
            sr_score_threshold := Some (7 # 10)%Q |}) = [kept].
Proof.
  eexists _, _, _. split; [reflexivity |].
  split; [reflexivity |]. split; [reflexivity |]. split; reflexivity.
Qed.

(** [embedBatch] of one text makes one request, for that text alone. *)
Lemma embedBatch_single fuel env svc text w :
  (1 <= batchSize svc)%nat ->
  embedBatch (S fuel) env svc [text] w =
  Some (log_event (EvEmbed (InputBatch [_truncateText svc text])) w,
        match embed_post env (trace w) (InputBatch [_truncateText svc text]) with
        | inl message =>
            Throw (String.append "Failed to generate batch embeddings: " message)
        | inr data => Ok data
        end).
Proof.
  intros Hsize. unfold embedBatch. simpl map.
  rewrite embedBatchLoop_unfold. simpl length.
  replace (slice [_truncateText svc text] 0 (0 + batchSize svc))
    with [_truncateText svc text].
  2: { unfold slice. replace (0 + batchSize svc - 0)%nat with (batchSize svc) by lia.
       destruct (batchSize svc); [lia | simpl; rewrite take_nil; reflexivity]. }
  simpl (0 <? 1)%nat. cbv iota.
  unfold embedBatchPass, try_catch, bind, axios_post, ret, throw.
  destruct (embed_post env (trace w) (InputBatch [_truncateText svc text]))
    as [message | data]; simpl; [reflexivity |].
  rewrite embedBatchLoop_unfold. simpl.
  destruct (Nat.ltb_spec (batchSize svc) 1); [lia | reflexivity].
Qed.

Lemma placeholderText_fits :
  _truncateText appEmbeddingService placeholderText = placeholderText.
Proof. vm_compute. reflexivity. Qed.

(** The requests that [ingestArticles] makes for its chunks: one per
    chunk, each for the placeholder text. *)
Lemma promiseAll_placeholder fuel env (texts : list string) :
  forall w w' r,
    promiseAll
      (map (fun _ => embedBatch fuel env appEmbeddingService [placeholderText]) texts) w
    = Some (w', r) ->
    trace w' =
    trace w ++ replicate (length texts) (EvEmbed (InputBatch [placeholderText])).
Proof.
  induction texts as [|text rest IH]; intros w w' r Hrun.
  - simpl in Hrun. injection Hrun as <- _. simpl. symmetry. apply app_nil_r.
  - simpl in Hrun. destruct fuel as [|fuel]; [discriminate |].
    rewrite embedBatch_single in Hrun by (vm_compute; lia).
    rewrite placeholderText_fits in Hrun.
    match type of Hrun with
    | context [promiseAll ?calls ?w1] =>
        destruct (promiseAll calls w1) as [[w2 rs]|] eqn:Hrest; [|discriminate]
    end.
    apply IH in Hrest. injection Hrun as <- _.
    rewrite Hrest. simpl. rewrite <- app_assoc. reflexivity.
Qed.

Lemma promiseAll_placeholder_None fuel env (texts : list string) :
  forall w,
    promiseAll
      (map (fun _ => embedBatch fuel env appEmbeddingService [placeholderText]) texts) w
    = None ->
    fuel = 0%nat.
Proof.
  induction texts as [|text rest IH]; intros w Hrun.
  - discriminate.
  - simpl in Hrun. destruct fuel as [|fuel]; [reflexivity |].
    rewrite embedBatch_single in Hrun by (vm_compute; lia).
    match type of Hrun with
    | context [promiseAll ?calls ?w1] =>
        destruct (promiseAll calls w1) as [[w2 rs]|] eqn:Hrest; [discriminate |]
    end.
    apply IH in Hrest. exact Hrest.
Qed.

(** C1. [ingestArticles] asks the provider, once per chunk, for the
    embedding of a fixed placeholder text, not of the chunk's text, and
    calls [addDocuments] with the documents alone; [addDocuments] then has
    no embeddings to count and throws. Whenever [ingestArticles] ends, it
    has thrown, and the only calls it has made are those requests: nothing
    is upserted. It ends unless the loop of the chunker does not, given
    fuel for one pass of [embedBatch]. *)
Theorem ingestArticles_never_stores fuel env rag articles w :
  match ingestArticles fuel env rag articles w with
  | Some (w', r) =>
      (exists message, r = Throw message) /\
      exists chunks,
        processDocuments fuel (rag_chunkerService rag) articles = Some chunks /\
        trace w' =
        trace w ++ replicate (length chunks) (EvEmbed (InputBatch [placeholderText]))
  | None =>
      fuel = 0%nat \/
      processDocuments fuel (rag_chunkerService rag) articles = None
  end.
Proof.
  unfold ingestArticles.
  destruct (processDocuments fuel (rag_chunkerService rag) articles)
    as [chunks|]; [|right; reflexivity].
  destruct (promiseAll _ w) as [[w1 [embeddings | message]]|] eqn:Hall.
  - apply promiseAll_placeholder in Hall. rewrite length_map in Hall.
    unfold addDocuments, try_catch, throw, ingestFailure.
    split; [eexists; reflexivity |].
    exists chunks. split; [reflexivity | exact Hall].
  - apply promiseAll_placeholder in Hall. rewrite length_map in Hall.
    split; [eexists; reflexivity |].
    exists chunks. split; [reflexivity | exact Hall].
  - left. apply promiseAll_placeholder_None in Hall. exact Hall.
Qed.

(** The article of [taggedDocument] on working collaborators: the one
    request made is for the placeholder text, and the error is the one of
    the missing second argument. *)
Example ingestArticles_sample :
  ingestArticles 1 workingEnv defaultRAGService [taggedDocument] emptyWorld
  = Some (log_event (EvEmbed (InputBatch [placeholderText])) emptyWorld,
          Throw "Failed to ingest articles: Qdrant document insertion failed: Cannot read properties of undefined (reading 'length')").
Proof. vm_compute. reflexivity. Qed.

(** ** Cache service *)

Section CacheRuns.
Variable svc : RedisCacheService.
Variable w : World.
Hypothesis Honline : redis_online w = true.

Lemma getChatSession_run sessionId :
  getChatSession svc sessionId w = (w, Ok (storedHistory w sessionId)).
Proof.
  unfold getChatSession, try_catch, bind, get_session, ret, storedHistory.
  rewrite Honline. destruct (live (now w) (sessions w !! sessionId)); reflexivity.
Qed.

Lemma getCachedQueryResult_run queryText :
  getCachedQueryResult svc queryText w = (w, Ok (cachedAnswer w queryText)).
Proof.
  unfold getCachedQueryResult, try_catch, bind, get_query, ret, cachedAnswer.
  rewrite Honline. destruct (live (now w) (queries w !! base64 queryText));
    reflexivity.
Qed.

Lemma deleteChatSession_run sessionId :
  deleteChatSession svc sessionId w
  = (set_sessions (delete sessionId (sessions w)) w, Ok true).
Proof.
  unfold deleteChatSession, try_catch, bind, del_session, ret.
  rewrite Honline. reflexivity.
Qed.

Hypothesis Httl : 0 < defaultTTL svc.

Lemma storeChatSession_run sessionId messages :
  storeChatSession svc sessionId messages None w
  = (set_sessions
       (<[sessionId := (messages, now w + defaultTTL svc)]> (sessions w)) w,
     Ok tt).
Proof.
  unfold storeChatSession, try_catch, setex_session, ret. simpl.
  rewrite Honline. destruct (Z.leb_spec (defaultTTL svc) 0); [lia | reflexivity].
Qed.

Lemma cacheQueryResult_run queryText result :
  cacheQueryResult svc queryText result None w
  = (set_queries
       (<[base64 queryText := (result, now w + defaultTTL svc)]> (queries w)) w,
     Ok tt).
Proof.
  unfold cacheQueryResult, try_catch, setex_query, ret. simpl.
  rewrite Honline. destruct (Z.leb_spec (defaultTTL svc) 0); [lia | reflexivity].
Qed.
End CacheRuns.

(** A value stored with a positive time to live is read back until that
    time has passed. *)
Lemma live_insert {A} (m : gmap string (A * Z)) key (value : A) (t0 ttl t : Z) :
  t < t0 + ttl -> live t (<[key := (value, t0 + ttl)]> m !! key) = Some value.
Proof.
  intros Hlt. rewrite lookup_insert_eq. simpl.
  destruct (Z.ltb_spec t (t0 + ttl)); [reflexivity | lia].
Qed.

(** The cache methods on any Redis, reachable or not. *)
Lemma storeChatSession_total svc sessionId messages ttl w :
  exists w',
    storeChatSession svc sessionId messages ttl w = (w', Ok tt) /\
    trace w' = trace w /\ queries w' = queries w /\
    redis_online w' = redis_online w /\ now w' = now w /\
    (redis_online w = false -> w' = w).
Proof.
  unfold storeChatSession, try_catch, setex_session, ret.
  destruct (redis_online w) eqn:Honline;
    [destruct (default (defaultTTL svc) ttl <=? 0) |];
    eexists; (split; [reflexivity |]); simpl;
    repeat split; try discriminate; auto.
Qed.

Lemma cacheQueryResult_total svc queryText result ttl w :
  exists w',
    cacheQueryResult svc queryText result ttl w = (w', Ok tt) /\
    trace w' = trace w /\ sessions w' = sessions w /\
    redis_online w' = redis_online w /\ now w' = now w /\
    (redis_online w = false -> w' = w).
Proof.
  unfold cacheQueryResult, try_catch, setex_query, ret.
  destruct (redis_online w) eqn:Honline;
    [destruct (default (defaultTTL svc) ttl <=? 0) |];
    eexists; (split; [reflexivity |]); simpl;
    repeat split; try discriminate; auto.
Qed.

Lemma getChatSession_total svc sessionId w :
  getChatSession svc sessionId w
  = (w, Ok (if redis_online w then storedHistory w sessionId else None)).
Proof.
  unfold getChatSession, try_catch, bind, get_session, ret, storedHistory.
  destruct (redis_online w); [|reflexivity].
  destruct (live (now w) (sessions w !! sessionId)); reflexivity.
Qed.

Lemma getCachedQueryResult_total svc queryText w :
  getCachedQueryResult svc queryText w
  = (w, Ok (if redis_online w then cachedAnswer w queryText else None)).
Proof.
  unfold getCachedQueryResult, try_catch, bind, get_query, ret, cachedAnswer.
  destruct (redis_online w); [|reflexivity].
  destruct (live (now w) (queries w !! base64 queryText)); reflexivity.
Qed.

Lemma deleteChatSession_total svc sessionId w :
  exists w' b,
    deleteChatSession svc sessionId w = (w', Ok b) /\
    (redis_online w = false -> w' = w).
Proof.
  unfold deleteChatSession, try_catch, bind, del_session, ret.
  destruct (redis_online w); eexists _, _; split; try reflexivity; try discriminate.
Qed.

Lemma storeChatSession_sessions svc sessionId messages ttl w :
  redis_online w = true ->
  0 < default (defaultTTL svc) ttl ->
  sessions (fst (storeChatSession svc sessionId messages ttl w)) =
  <[sessionId := (messages, now w + default (defaultTTL svc) ttl)]> (sessions w).
Proof.
  intros Honline Httl. unfold storeChatSession, try_catch, setex_session, ret.
  rewrite Honline.
  destruct (Z.leb_spec (default (defaultTTL svc) ttl) 0); [lia | reflexivity].
Qed.

Lemma cacheQueryResult_queries svc queryText result ttl w :
  redis_online w = true ->
  0 < default (defaultTTL svc) ttl ->
  queries (fst (cacheQueryResult svc queryText result ttl w)) =
  <[base64 queryText := (result, now w + default (defaultTTL svc) ttl)]> (queries w).
Proof.
  intros Honline Httl. unfold cacheQueryResult, try_catch, setex_query, ret.
  rewrite Honline.
  destruct (Z.leb_spec (default (defaultTTL svc) ttl) 0); [lia | reflexivity].
Qed.

(** ** Chat controller *)

Lemma sameStore_refl w : sameStore w w.
Proof. repeat split. Qed.

Lemma sameStore_log e w : sameStore w (log_event e w).
Proof. repeat split. Qed.

Lemma generateResponse_run env queryText retrievedDocs chatHistory w :
  let formattedHistory := formatHistory chatHistory in
  let prompt := buildPrompt (formatContext retrievedDocs) queryText in
  generateResponse env queryText retrievedDocs chatHistory w =
  (log_event (EvGenerate formattedHistory prompt) w,
   match gemini_sendMessage env (trace w) formattedHistory prompt with
   | inl message => Throw (String.append "Gemini API error: " message)
   | inr response => Ok response
   end).
Proof.
  intros formattedHistory prompt.
  unfold generateResponse, try_catch, throw.
  fold formattedHistory. fold prompt.
  destruct (gemini_sendMessage env (trace w) formattedHistory prompt); reflexivity.
Qed.

(** The calls to the embedding provider, to Qdrant and to Gemini leave
    Redis and the clock alone. *)
Lemma embedText_frame env svc text w :
  sameStore w (fst (embedText env svc text w)).
Proof. rewrite embedText_run. apply sameStore_log. Qed.

Lemma similaritySearch_frame env store queryEmbedding limit w :
  sameStore w (fst (similaritySearch env store queryEmbedding limit w)).
Proof. rewrite similaritySearch_run. apply sameStore_log. Qed.

Lemma generateResponse_frame env queryText retrievedDocs chatHistory w :
  sameStore w (fst (generateResponse env queryText retrievedDocs chatHistory w)).
Proof. rewrite generateResponse_run. apply sameStore_log. Qed.

(** The two calls to the SQL sink: the second is not made when the first
    throws, and none is made without a sink. *)
Lemma persistChat_run env ctl sessionId userMessage botMessage w :
  let w1 := log_event (EvSaveChatMessage sessionId userMessage) w in
  let w2 := log_event (EvSaveChatMessage sessionId botMessage) w1 in
  persistChat env ctl sessionId userMessage botMessage w =
  if persistenceService ctl then
    match persistence_saveChatMessage env (trace w) sessionId userMessage with
    | Some failure => (w1, Throw failure)
    | None =>
        (w2,
         match persistence_saveChatMessage env (trace w1) sessionId botMessage with
         | Some failure => Throw failure
         | None => Ok tt
         end)
    end
  else (w, Ok tt).
Proof.
  intros w1 w2. unfold persistChat, saveChatMessage, bind, ret.
  destruct (persistenceService ctl); [|reflexivity].
  destruct (persistence_saveChatMessage env (trace w) sessionId userMessage);
    reflexivity.
Qed.

Lemma persistChat_frame env ctl sessionId userMessage botMessage w :
  exists w' r,
    persistChat env ctl sessionId userMessage botMessage w = (w', r) /\
    sameStore w w' /\
    (r = Ok tt \/ persistenceService ctl = true /\ exists failure, r = Throw failure).
Proof.
  rewrite persistChat_run. cbv zeta.
  destruct (persistenceService ctl); [|eexists _, _; repeat split; auto].
  destruct (persistence_saveChatMessage env (trace w) sessionId userMessage)
    as [failure|].
  - eexists _, _. split; [reflexivity |]. split; [repeat split |].
    right. split; [reflexivity | eexists; reflexivity].
  - match goal with
    | |- context [persistence_saveChatMessage env ?tr sessionId botMessage] =>
        destruct (persistence_saveChatMessage env tr sessionId botMessage)
          as [failure|]
    end; eexists _, _; (split; [reflexivity |]); (split; [repeat split |]).
    + right. split; [reflexivity | eexists; reflexivity].
    + left. reflexivity.
Qed.

(** The retrieval branch of [sendMessage]: when it answers, the session
    holds the history followed by the assistant message, and the query
    cache holds the answer; when it throws, Redis is as before, unless
    it was the SQL sink that threw. *)
Lemma replyFromRetrieval_cases env ctl sessionId message history userMessage w :
  redis_online w = true ->
  0 < defaultTTL (cacheService ctl) ->
  exists w' r,
    replyFromRetrieval env ctl sessionId message history userMessage w = (w', r) /\
    match r with
    | Ok resp =>
        exists response srcs,
          let bot := botMessageAt (now w) response srcs in
          resp = JsonResponse 200 (BodyResponse bot false) /\
          sessions w' =
            <[sessionId := (history ++ [bot], now w + defaultTTL (cacheService ctl))]>
              (sessions w) /\
          queries w' =
            <[base64 message :=
                ({| cr_response := response; cr_sources := srcs |},
                 now w + defaultTTL (cacheService ctl))]> (queries w) /\
          redis_online w' = true /\ now w' = now w
    | Throw _ => sameStore w w' \/ persistenceService ctl = true
    end.
Proof.
  intros Honline Httl. unfold replyFromRetrieval.
  unfold bind at 1. rewrite embedText_run.
  destruct (embed_post env (trace w) _) as [m | [|queryEmbedding data]].
  1, 2: eexists _, (Throw _); split; [reflexivity | left; apply sameStore_log].
  unfold bind at 1. rewrite similaritySearch_run. cbv zeta.
  match goal with
  | |- context [qdrant_search env ?tr ?col ?req] =>
      destruct (qdrant_search env tr col req) as [m | hits]
  end.
  1: eexists _, (Throw _); split; [reflexivity | left; repeat split].
  unfold bind at 1. rewrite generateResponse_run. cbv zeta.
  match goal with
  | |- context [gemini_sendMessage env ?tr ?h ?p] =>
      destruct (gemini_sendMessage env tr h p) as [m | response]
  end.
  1: eexists _, (Throw _); split; [reflexivity | left; repeat split].
  unfold bind at 1. unfold Date_now at 1.
  unfold bind at 1. rewrite storeChatSession_run by (simpl; assumption).
  unfold bind at 1. rewrite cacheQueryResult_run by (simpl; assumption).
  unfold bind at 1.
  match goal with
  | |- context [persistChat env ctl sessionId ?u ?b ?w0] =>
      destruct (persistChat_frame env ctl sessionId u b w0)
        as (w' & r & -> & (Hs & Hq & Ho & Hn) & [-> | (Hsink & failure & ->)])
  end.
  - unfold ret. eexists w', (Ok _). split; [reflexivity |].
    exists response, (map docSource (map hitDocument hits)). simpl in *.
    repeat split; try assumption. congruence.
  - eexists w', (Throw _). split; [reflexivity |]. right. exact Hsink.
Qed.

Lemma present_Some s : str_truthy s = true -> present (Some s) = Some s.
Proof. intros H. simpl. rewrite H. reflexivity. Qed.

Lemma present_truthy param s : present param = Some s -> param = Some s /\ str_truthy s = true.
Proof.
  destruct param as [s'|]; simpl; [|discriminate].
  destruct (str_truthy s') eqn:Ht; [|discriminate].
  intros [= <-]. split; [reflexivity | exact Ht].
Qed.

(** The three ways in which [sendMessage] answers a request that has a
    session id and a message: from the query cache, from retrieval and
    generation, or with status 500 when one of those steps throws. *)
Lemma sendMessage_cases env ctl sessionId message w :
  redis_online w = true ->
  0 < defaultTTL (cacheService ctl) ->
  str_truthy sessionId = true ->
  str_truthy message = true ->
  let ttl := defaultTTL (cacheService ctl) in
  let history :=
    default [] (storedHistory w sessionId) ++ [userMessageAt (now w) message] in
  exists w' r,
    sendMessage env ctl (Some sessionId) (Some message) w = (w', r) /\
    ((exists c,
         cachedAnswer w message = Some c /\
         let bot := botMessageAt (now w) (cr_response c) (cr_sources c) in
         r = JsonResponse 200 (BodyResponse bot true) /\
         w' = set_sessions
                (<[sessionId := (history ++ [bot], now w + ttl)]> (sessions w)) w) \/
     (cachedAnswer w message = None /\
      exists response srcs,
        let bot := botMessageAt (now w) response srcs in
        r = JsonResponse 200 (BodyResponse bot false) /\
        sessions w' = <[sessionId := (history ++ [bot], now w + ttl)]> (sessions w) /\
        queries w' =
          <[base64 message :=
              ({| cr_response := response; cr_sources := srcs |}, now w + ttl)]>
            (queries w) /\
        redis_online w' = true /\ now w' = now w) \/
     (cachedAnswer w message = None /\
      r = JsonResponse 500 (BodyFailure "Failed to process your message") /\
      (sameStore w w' \/ persistenceService ctl = true))).
Proof.
  intros Honline Httl Hsid Hmsg ttl history.
  unfold sendMessage, handler.
  rewrite (present_Some _ Hsid), (present_Some _ Hmsg).
  unfold bind at 1. rewrite getChatSession_run by assumption.
  unfold bind at 1. unfold Date_now at 1.
  unfold bind at 1. rewrite getCachedQueryResult_run by assumption.
  fold history.
  destruct (cachedAnswer w message) as [c|] eqn:Hcached.
  - unfold replyFromCache, bind, Date_now.
    rewrite storeChatSession_run by assumption. unfold ret.
    eexists _, _. split; [reflexivity |].
    left. exists c. repeat split.
  - destruct (replyFromRetrieval_cases env ctl sessionId message history
                (userMessageAt (now w) message) w Honline Httl)
      as (w' & r & -> & Hpost).
    destruct r as [resp | m].
    + destruct Hpost as (response & srcs & -> & Hs & Hq & Ho & Hn).
      eexists _, _. split; [reflexivity |].
      right. left. split; [reflexivity |].
      exists response, srcs. repeat split; assumption.
    + eexists _, _. split; [reflexivity |].
      right. right. repeat split; apply Hpost.
Qed.

Lemma generateStreamingResponse_frame env queryText retrievedDocs chatHistory w :
  sameStore w (fst (generateStreamingResponse env queryText retrievedDocs chatHistory w)).
Proof.
  unfold generateStreamingResponse.
  destruct (gemini_sendMessageStream env (trace w) _ _). apply sameStore_log.
Qed.

(** The part of [streamMessage] before the stream: when it does not
    throw, it hands on the stored history followed by the user message. *)
Lemma streamPrelude_cases env ctl sessionId message w :
  redis_online w = true ->
  0 < defaultTTL (cacheService ctl) ->
  exists w1 r,
    streamPrelude env ctl sessionId message w = (w1, r) /\
    match r with
    | Ok (history, userMessage, _) =>
        userMessage = userMessageAt (now w) message /\
        history = default [] (storedHistory w sessionId) ++ [userMessage] /\
        redis_online w1 = true /\ now w1 = now w
    | Throw _ => True
    end.
Proof.
  intros Honline Httl. unfold streamPrelude.
  unfold bind at 1. rewrite getChatSession_run by assumption.
  unfold bind at 1. unfold Date_now at 1.
  unfold bind at 1. rewrite storeChatSession_run by assumption.
  unfold bind at 1. rewrite embedText_run.
  destruct (embed_post env _ _) as [m | [|queryEmbedding data]].
  1, 2: eexists _, (Throw _); split; [reflexivity | exact I].
  unfold bind at 1. rewrite similaritySearch_run. cbv zeta.
  match goal with
  | |- context [qdrant_search env ?tr ?col ?req] =>
      destruct (qdrant_search env tr col req) as [m | hits]
  end.
  1: eexists _, (Throw _); split; [reflexivity | exact I].
  unfold ret. eexists _, (Ok (_, _, _)). split; [reflexivity |].
  repeat split. simpl. exact Honline.
Qed.

(** The part of [streamMessage] after the stream stores the history
    followed by the assistant message; only the SQL sink can make it
    throw, after that. *)
Lemma streamEpilogue_run env ctl sessionId message history userMessage
    relevantDocs fullResponse w :
  redis_online w = true ->
  0 < defaultTTL (cacheService ctl) ->
  exists w' r,
    streamEpilogue env ctl sessionId message history userMessage relevantDocs
      fullResponse w = (w', r) /\
    sessions w' =
      <[sessionId :=
          (history ++ [botMessageAt (now w) fullResponse (map docSource relevantDocs)],
           now w + defaultTTL (cacheService ctl))]> (sessions w) /\
    now w' = now w.
Proof.
  intros Honline Httl. unfold streamEpilogue.
  unfold bind at 1. unfold Date_now at 1.
  unfold bind at 1. rewrite storeChatSession_run by assumption.
  unfold bind at 1. rewrite cacheQueryResult_run by (simpl; assumption).
  match goal with
  | |- context [persistChat env ctl sessionId ?u ?b ?w0] =>
      destruct (persistChat_frame env ctl sessionId u b w0)
        as (w' & r & -> & (Hs & Hq & Ho & Hn) & _)
  end.
  exists w', r. split; [reflexivity |]. simpl in *. split; assumption.
Qed.

Lemma sendMessage_missing env ctl sessionId message w :
  present sessionId = None \/ present message = None ->
  sendMessage env ctl sessionId message w =
  (w, JsonResponse 400 (BodyFailure "Session ID and message are required")).
Proof.
  intros Hmissing. unfold sendMessage, handler.
  destruct (present sessionId), (present message), Hmissing;
    try discriminate; reflexivity.
Qed.

Lemma storedHistory_after (w w' : World) sessionId messages ttl :
  0 < ttl ->
  sessions w' = <[sessionId := (messages, now w + ttl)]> (sessions w) ->
  now w' = now w ->
  storedHistory w' sessionId = Some messages.
Proof.
  intros Httl Hs Hn. unfold storedHistory. rewrite Hs, Hn.
  apply live_insert. lia.
Qed.

(** When every provider answers, the retrieval branch answers. *)
Lemma replyFromRetrieval_answers env ctl sessionId message history userMessage w :
  providersAnswer env ->
  exists w' bot,
    replyFromRetrieval env ctl sessionId message history userMessage w
    = (w', Ok (JsonResponse 200 (BodyResponse bot false))).
Proof.
  intros (Hembed & Hsearch & Hgen & _ & Hsink). unfold replyFromRetrieval.
  unfold bind at 1. rewrite embedText_run.
  match goal with
  | |- context [embed_post env ?tr (InputText ?text)] =>
      destruct (Hembed tr text) as (e & data & ->)
  end.
  unfold bind at 1. rewrite similaritySearch_run. cbv zeta.
  match goal with
  | |- context [qdrant_search env ?tr ?col ?req] =>
      destruct (Hsearch tr col req) as (hits & ->)
  end.
  unfold bind at 1. rewrite generateResponse_run. cbv zeta.
  match goal with
  | |- context [gemini_sendMessage env ?tr ?h ?p] =>
      destruct (Hgen tr h p) as (response & ->)
  end.
  unfold bind at 1. unfold Date_now at 1. unfold bind at 1.
  match goal with
  | |- context [storeChatSession ?s ?i ?ms ?t ?w0] =>
      destruct (storeChatSession_total s i ms t w0) as (w4 & -> & _)
  end.
  unfold bind at 1.
  match goal with
  | |- context [cacheQueryResult ?s ?q ?c ?t w4] =>
      destruct (cacheQueryResult_total s q c t w4) as (w5 & -> & _)
  end.
  unfold bind at 1. rewrite persistChat_run. cbv zeta. rewrite !Hsink.
  destruct (persistenceService ctl); unfold ret; eexists _, _; reflexivity.
Qed.

(** [sendMessage] completes the turn when the answer is cached, and when
    every provider answers; [streamMessage] when every provider answers. *)
Lemma sendMessage_completes env ctl sessionId message w :
  str_truthy sessionId = true ->
  str_truthy message = true ->
  redis_online w = true /\ cachedAnswer w message <> None \/ providersAnswer env ->
  turnDone (snd (sendMessage env ctl (Some sessionId) (Some message) w)) = true.
Proof.
  intros Hsid Hmsg Hwhy. unfold sendMessage, handler.
  rewrite (present_Some _ Hsid), (present_Some _ Hmsg).
  unfold bind at 1. rewrite getChatSession_total.
  unfold bind at 1. unfold Date_now at 1.
  unfold bind at 1. rewrite getCachedQueryResult_total.
  destruct (if redis_online w then cachedAnswer w message else None)
    as [c|] eqn:Hcached.
  - unfold replyFromCache, bind, Date_now.
    match goal with
    | |- context [storeChatSession ?s ?i ?ms ?t ?w0] =>
        destruct (storeChatSession_total s i ms t w0) as (w1 & -> & _)
    end.
    reflexivity.
  - destruct Hwhy as [[Hup Hsome] | Hanswer].
    + rewrite Hup in Hcached. contradiction.
    + match goal with
      | |- context [replyFromRetrieval env ctl sessionId message ?h ?u w] =>
          destruct (replyFromRetrieval_answers env ctl sessionId message h u w
                      Hanswer) as (w' & bot & ->)
      end.
      reflexivity.
Qed.

Lemma streamMessage_completes env ctl sessionId message w :
  str_truthy sessionId = true ->
  str_truthy message = true ->
  providersAnswer env ->
  turnDone (snd (streamMessage env ctl (Some sessionId) (Some message) w)) = true.
Proof.
  intros Hsid Hmsg (Hembed & Hsearch & _ & Hstream & Hsink).
  unfold streamMessage.
  rewrite (present_Some _ Hsid), (present_Some _ Hmsg).
  unfold streamPrelude.
  unfold bind at 1. rewrite getChatSession_total.
  unfold bind at 1. unfold Date_now at 1. unfold bind at 1.
  match goal with
  | |- context [storeChatSession ?s ?i ?ms ?t ?w0] =>
      destruct (storeChatSession_total s i ms t w0) as (w1 & -> & _)
  end.
  unfold bind at 1. rewrite embedText_run.
  match goal with
  | |- context [embed_post env ?tr (InputText ?text)] =>
      destruct (Hembed tr text) as (e & data & ->)
  end.
  unfold bind at 1. rewrite similaritySearch_run. cbv zeta.
  match goal with
  | |- context [qdrant_search env ?tr ?col ?req] =>
      destruct (Hsearch tr col req) as (hits & ->)
  end.
  unfold ret. unfold generateStreamingResponse.
  match goal with
  | |- context [gemini_sendMessageStream env ?tr ?h ?p] =>
      pose proof (Hstream tr h p) as Hnone;
      destruct (gemini_sendMessageStream env tr h p) as [chunkTexts failure]
  end.
  simpl in Hnone. subst failure. simpl fmap.
  unfold streamEpilogue.
  unfold bind at 1. unfold Date_now at 1. unfold bind at 1.
  match goal with
  | |- context [storeChatSession ?s ?i ?ms ?t ?w0] =>
      destruct (storeChatSession_total s i ms t w0) as (w4 & -> & _)
  end.
  unfold bind at 1.
  match goal with
  | |- context [cacheQueryResult ?s ?q ?c ?t w4] =>
      destruct (cacheQueryResult_total s q c t w4) as (w5 & -> & _)
  end.
  rewrite persistChat_run. cbv zeta. rewrite !Hsink.
  destruct (persistenceService ctl); cbn [snd turnDone];
    rewrite last_snoc; reflexivity.
Qed.

Lemma workingEnv_answers : providersAnswer workingEnv.
Proof.
  repeat split; intros; simpl; eauto.
Qed.

(** A complete turn of [sendMessage], on either path. *)
Lemma sendMessage_done_history env ctl sid text w w' r :
  redis_online w = true ->
  0 < defaultTTL (cacheService ctl) ->
  str_truthy sid = true ->
  str_truthy text = true ->
  sendMessage env ctl (Some sid) (Some text) w = (w', r) ->
  turnDone r = true ->
  exists bot cached,
    r = JsonResponse 200 (BodyResponse bot cached) /\
    role bot = Assistant /\
    storedHistory w' sid =
    Some (default [] (storedHistory w sid) ++ [userMessageAt (now w) text; bot]).
Proof.
  intros Honline Httl Hsid Hmsg Hrun Hdone.
  destruct (sendMessage_cases env ctl sid text w Honline Httl Hsid Hmsg)
    as (w0 & r0 & Hrun0 & Hcases).
  rewrite Hrun in Hrun0. injection Hrun0 as <- <-.
  destruct Hcases as [(c & _ & -> & ->) | [(_ & response & srcs & -> & Hs & _ & _ & Hn)
                                          | (_ & -> & _)]].
  - exists (botMessageAt (now w) (cr_response c) (cr_sources c)), true.
    split; [reflexivity |]. split; [reflexivity |].
    rewrite <- app_assoc. simpl.
    apply (storedHistory_after w _ sid _ _ Httl); reflexivity.
  - exists (botMessageAt (now w) response srcs), false.
    split; [reflexivity |]. split; [reflexivity |].
    rewrite <- app_assoc in Hs. simpl in Hs.
    apply (storedHistory_after w w' _ _ _ Httl Hs Hn).
  - discriminate.
Qed.

(** A complete turn of [streamMessage]. *)
Lemma streamMessage_done_history env ctl sid text w w' r :
  redis_online w = true ->
  0 < defaultTTL (cacheService ctl) ->
  str_truthy sid = true ->
  str_truthy text = true ->
  streamMessage env ctl (Some sid) (Some text) w = (w', r) ->
  turnDone r = true ->
  exists bot,
    role bot = Assistant /\
    storedHistory w' sid =
    Some (default [] (storedHistory w sid) ++ [userMessageAt (now w) text; bot]).
Proof.
  intros Honline Httl Hsid Hmsg Hrun Hdone.
  unfold streamMessage in Hrun.
  rewrite (present_Some _ Hsid), (present_Some _ Hmsg) in Hrun.
  destruct (streamPrelude_cases env ctl sid text w Honline Httl)
    as (w1 & r1 & Hpre & Hpost).
  rewrite Hpre in Hrun.
  destruct r1 as [[[history userMessage] relevantDocs] | m].
  2: { injection Hrun as <- <-. discriminate. }
  destruct Hpost as (-> & -> & Honline1 & Hnow1).
  pose proof (generateStreamingResponse_frame env text relevantDocs
                (default [] (storedHistory w sid) ++ [userMessageAt (now w) text]) w1)
    as (_ & _ & Ho2 & Hn2).
  destruct (generateStreamingResponse env text relevantDocs _ w1)
    as [w2 [fragments failure]].
  simpl in Ho2, Hn2.
  destruct failure as [m|].
  { injection Hrun as <- <-. unfold turnDone in Hdone.
    rewrite !app_comm_cons, last_snoc in Hdone. discriminate. }
  match type of Hrun with
  | context [streamEpilogue env ctl sid text ?h ?u ?d ?f w2] =>
      destruct (streamEpilogue_run env ctl sid text h u d f w2)
        as (w3 & r3 & Hepi & Hs & Hn)
  end; [congruence | exact Httl |].
  rewrite Hepi in Hrun. destruct r3 as [[]|m].
  2: { injection Hrun as <- <-. unfold turnDone in Hdone.
       rewrite !app_comm_cons, last_snoc in Hdone. discriminate. }
  injection Hrun as <- <-.
  exists (botMessageAt (now w2) (String.concat EmptyString fragments)
            (map docSource relevantDocs)).
  split; [reflexivity |].
  rewrite <- app_assoc in Hs. simpl in Hs.
  unfold storedHistory at 1. rewrite Hs, Hn, Hn2, Hnow1.
  apply live_insert. lia.
Qed.

(** C7 (as amended). On a reachable Redis with a positive time to live,
    a turn that is complete, whether [sendMessage] answered from the
    query cache or from retrieval and generation, or [streamMessage]
    reached its end event, leaves in Redis the history that was stored
    before (none counts as empty) followed by exactly two messages: the
    user's message and one assistant message, which for [sendMessage] is
    the message of the response. The turn is complete whenever the answer
    is cached ([sendMessage]) and whenever every provider answers and the
    SQL sink does not throw (both handlers). *)
Theorem turn_appends_user_and_assistant env ctl sessionId message w :
  redis_online w = true ->
  0 < defaultTTL (cacheService ctl) ->
  str_truthy sessionId = true ->
  str_truthy message = true ->
  let before := default [] (storedHistory w sessionId) in
  let user := userMessageAt (now w) message in
  let sent := sendMessage env ctl (Some sessionId) (Some message) w in
  let streamed := streamMessage env ctl (Some sessionId) (Some message) w in
  (turnDone (snd sent) = true ->
   exists bot cached,
     snd sent = JsonResponse 200 (BodyResponse bot cached) /\
     role bot = Assistant /\
     storedHistory (fst sent) sessionId = Some (before ++ [user; bot])) /\
  (turnDone (snd streamed) = true ->
   exists bot,
     role bot = Assistant /\
     storedHistory (fst streamed) sessionId = Some (before ++ [user; bot])) /\
  (cachedAnswer w message <> None -> turnDone (snd sent) = true) /\
  (providersAnswer env ->
   turnDone (snd sent) = true /\ turnDone (snd streamed) = true).
Proof.
  intros Honline Httl Hsid Hmsg before user sent streamed.
  split; [|split; [|split]].
  - intros Hdone.
    apply (sendMessage_done_history env ctl sessionId message w (fst sent) (snd sent)
             Honline Httl Hsid Hmsg); [apply surjective_pairing | exact Hdone].
  - intros Hdone.
    apply (streamMessage_done_history env ctl sessionId message w (fst streamed)
             (snd streamed) Honline Httl Hsid Hmsg);
      [apply surjective_pairing | exact Hdone].
  - intros Hcached. apply sendMessage_completes; try assumption.
    left. split; assumption.
  - intros Hanswer. split.
    + apply sendMessage_completes; try assumption. right. exact Hanswer.
    + apply streamMessage_completes; assumption.
Qed.

(** A turn that completes and stores nothing: [sendMessage] with a cache
    whose time to live is -5, and [streamMessage] while Redis cannot be
    reached. The session held two messages before and holds the same two
    afterwards. *)
Lemma turn_completes_without_storing :
  let sent := sendMessage workingEnv shortLivedController (Some "s1")
                (Some "and then?") worldWithHistory in
  let streamed := streamMessage workingEnv sampleController (Some "s1")
                    (Some "and then?") unreachableWorld in
  length <$> storedHistory worldWithHistory "s1" = Some 2%nat /\
  turnDone (snd sent) = true /\
  storedHistory (fst sent) "s1" = storedHistory worldWithHistory "s1" /\
  turnDone (snd streamed) = true /\
  storedHistory (fst streamed) "s1" = storedHistory worldWithHistory "s1".
Proof. vm_compute. repeat split; reflexivity. Qed.

(** A turn that is not complete: when the generator fails, [sendMessage]
    answers 500 and stores nothing, and [streamMessage] ends with the error
    event, the user message alone having been stored before the stream. *)
Example failed_turns :
  let sent := sendMessage failingGeminiEnv sampleController (Some "s1")
                (Some "and then?") worldWithHistory in
  let streamed := streamMessage failingGeminiEnv sampleController (Some "s1")
                    (Some "and then?") worldWithHistory in
  snd sent = JsonResponse 500 (BodyFailure "Failed to process your message") /\
  storedHistory (fst sent) "s1" = storedHistory worldWithHistory "s1" /\
  snd streamed =
    EventStream [SseStart; SseSources (map docSource (map hitDocument sampleHits));
                 SseChunk "An ans"; streamFailure] /\
  storedHistory (fst streamed) "s1" =
    Some (default [] (storedHistory worldWithHistory "s1")
          ++ [userMessageAt 1000 "and then?"]).
Proof. vm_compute. repeat split; reflexivity. Qed.

(** The three paths on the sample collaborators: retrieval and
    generation, the stream, and the same question again, answered from
    the cache. *)
Lemma turn_appends_user_and_assistant_witness :
  let sent := sendMessage workingEnv sampleController (Some "s1")
                (Some "and then?") worldWithHistory in
  let streamed := streamMessage workingEnv sampleController (Some "s1")
                    (Some "and then?") worldWithHistory in
  let later := set_now 1200 (fst sent) in
  let again := sendMessage workingEnv sampleController (Some "s1")
                 (Some "and then?") later in
  (exists bot,
      role bot = Assistant /\
      storedHistory (fst sent) "s1" =
      Some (default [] (storedHistory worldWithHistory "s1")
            ++ [userMessageAt 1000 "and then?"; bot])) /\
  (exists bot,
      role bot = Assistant /\
      storedHistory (fst streamed) "s1" =
      Some (default [] (storedHistory worldWithHistory "s1")
            ++ [userMessageAt 1000 "and then?"; bot])) /\
  (exists bot,
      role bot = Assistant /\
      storedHistory (fst again) "s1" =
      Some (default [] (storedHistory later "s1")
            ++ [userMessageAt 1200 "and then?"; bot])).
Proof.
  intros sent streamed later again.
  destruct (turn_appends_user_and_assistant workingEnv sampleController "s1"
              "and then?" worldWithHistory eq_refl eq_refl eq_refl eq_refl)
    as (Hsent & Hstreamed & _ & Hcomplete).
  destruct (Hcomplete workingEnv_answers) as [Hdone1 Hdone2].
  destruct (Hsent Hdone1) as (bot1 & cached1 & _ & Hrole1 & Hstored1).
  destruct (Hstreamed Hdone2) as (bot2 & Hrole2 & Hstored2).
  destruct (turn_appends_user_and_assistant workingEnv sampleController "s1"
              "and then?" later eq_refl eq_refl eq_refl eq_refl)
    as (Hagain & _ & Hhit & _).
  assert (Hcached : cachedAnswer later "and then?" <> None)
    by (vm_compute; discriminate).
  destruct (Hagain (Hhit Hcached)) as (bot3 & cached3 & _ & Hrole3 & Hstored3).
  split; [exists bot1; split; assumption |].
  split; [exists bot2; split; assumption |].
  exists bot3. split; assumption.
Defined.

(** Both paths of [sendMessage] on the sample collaborators: the first
    call retrieves and generates, the second is answered from the cache. *)
Example sendMessage_twice :
  let first := sendMessage workingEnv sampleController (Some "s1") (Some "hello")
                 emptyWorld in
  let second := sendMessage workingEnv sampleController (Some "s1") (Some "hello")
                  (set_now 1200 (fst first)) in
  turnDone (snd first) = true /\
  length <$> storedHistory (fst first) "s1" = Some 2%nat /\
  turnDone (snd second) = true /\
  length <$> storedHistory (fst second) "s1" = Some 4%nat /\
  length (trace (fst first)) = 3%nat /\
  length (trace (fst second)) = 3%nat.
Proof. vm_compute. repeat split; reflexivity. Qed.

(** C8. The first [sendMessage] answers a query from retrieval and
    generation, which stores the answer in the query cache. A second
    [sendMessage] with the same query string, on any session, at a time
    before that entry expires, answers 200 with [cached: true] and the
    stored content and sources, and makes no call to the embedding
    provider, to Qdrant or to Gemini: the trace of calls is unchanged. *)
Theorem repeated_query_answered_from_cache
    env ctl sessionId1 sessionId2 queryText w w1 bot1 t2 :
  redis_online w = true ->
  0 < defaultTTL (cacheService ctl) ->
  str_truthy sessionId2 = true ->
  sendMessage env ctl (Some sessionId1) (Some queryText) w
    = (w1, JsonResponse 200 (BodyResponse bot1 false)) ->
  t2 < now w + defaultTTL (cacheService ctl) ->
  exists w2 bot2,
    sendMessage env ctl (Some sessionId2) (Some queryText) (set_now t2 w1)
      = (w2, JsonResponse 200 (BodyResponse bot2 true)) /\
    role bot2 = Assistant /\
    content bot2 = content bot1 /\
    sources bot2 = sources bot1 /\
    trace w2 = trace w1.
Proof.
  intros Honline Httl Hsid2 Hfirst Hfresh.
  assert (Hsid1 : str_truthy sessionId1 = true).
  { destruct (str_truthy sessionId1) eqn:Ht; [reflexivity |].
    rewrite sendMessage_missing in Hfirst by (left; simpl; rewrite Ht; reflexivity).
    discriminate. }
  assert (Hquery : str_truthy queryText = true).
  { destruct (str_truthy queryText) eqn:Ht; [reflexivity |].
    rewrite sendMessage_missing in Hfirst by (right; simpl; rewrite Ht; reflexivity).
    discriminate. }
  destruct (sendMessage_cases env ctl sessionId1 queryText w Honline Httl Hsid1 Hquery)
    as (w0 & r0 & Hrun0 & Hcases).
  rewrite Hfirst in Hrun0. injection Hrun0 as <- <-.
  destruct Hcases as [(c & _ & Hr & _) | [(_ & response & srcs & Hr & _ & Hq & Ho & Hn)
                                        | (_ & Hr & _)]];
    try discriminate.
  injection Hr as ->.
  assert (Hcached : cachedAnswer (set_now t2 w1) queryText
                    = Some {| cr_response := response; cr_sources := srcs |}).
  { unfold cachedAnswer. simpl. rewrite Hq. apply live_insert. exact Hfresh. }
  destruct (sendMessage_cases env ctl sessionId2 queryText (set_now t2 w1))
    as (w2 & r2 & Hrun2 & Hcases2); try assumption.
  rewrite Hrun2.
  destruct Hcases2 as [(c & Hc & -> & ->) | [(Hnone & _) | (Hnone & _)]].
  - rewrite Hcached in Hc. injection Hc as <-.
    eexists _, _. split; [reflexivity |]. repeat split.
  - rewrite Hcached in Hnone. discriminate.
  - rewrite Hcached in Hnone. discriminate.
Qed.

Lemma repeated_query_answered_from_cache_witness :
  exists w2 bot2,
    sendMessage workingEnv sampleController (Some "s2") (Some "hello")
      (set_now 1200
         (fst (sendMessage workingEnv sampleController (Some "s1") (Some "hello")
                 emptyWorld)))
    = (w2, JsonResponse 200 (BodyResponse bot2 true)) /\
    role bot2 = Assistant /\
    content bot2 = "An answer from the articles." /\
    sources bot2 =
      sources (botMessageAt 1000 "An answer from the articles."
                 (map docSource (map hitDocument sampleHits))) /\
    trace w2 =
      trace (fst (sendMessage workingEnv sampleController (Some "s1") (Some "hello")
                    emptyWorld)).
Proof.
  apply (repeated_query_answered_from_cache workingEnv sampleController
           "s1" "s2" "hello" emptyWorld _
           (botMessageAt 1000 "An answer from the articles."
              (map docSource (map hitDocument sampleHits))) 1200).
  - reflexivity.
  - reflexivity.
  - reflexivity.
  - vm_compute. reflexivity.
  - vm_compute. reflexivity.
Defined.

(** C9. [clearSession] answers 200 and leaves the session stored with no
    messages; a [getSessionHistory] that follows, at any time before that
    entry expires, answers 200 with the empty history, whatever the
    session held before. Redis is reachable and the time to live is
    positive. *)
Theorem clearSession_then_history_empty ctl sessionId w t2 :
  redis_online w = true ->
  0 < defaultTTL (cacheService ctl) ->
  str_truthy sessionId = true ->
  t2 < now w + defaultTTL (cacheService ctl) ->
  exists w1,
    clearSession ctl (Some sessionId) w
      = (w1, JsonResponse 200 (BodySuccess "Chat session cleared")) /\
    getSessionHistory ctl (Some sessionId) (set_now t2 w1)
      = (set_now t2 w1, JsonResponse 200 (BodyHistory sessionId [])).
Proof.
  intros Honline Httl Hsid Hfresh.
  unfold clearSession, getSessionHistory, handler.
  rewrite (present_Some _ Hsid).
  unfold bind at 1. rewrite deleteChatSession_run by assumption.
  unfold bind at 1. rewrite storeChatSession_run by assumption.
  unfold ret. eexists. split; [reflexivity |].
  unfold bind. rewrite getChatSession_run by assumption.
  unfold storedHistory. simpl.
  rewrite live_insert by exact Hfresh. reflexivity.
Qed.

Lemma clearSession_then_history_empty_witness :
  storedHistory worldWithHistory "s1" =
    Some [userMessageAt 900 "hello";
          botMessageAt 900 "An answer from the articles." []] /\
  exists w1,
    clearSession sampleController (Some "s1") worldWithHistory
      = (w1, JsonResponse 200 (BodySuccess "Chat session cleared")) /\
    getSessionHistory sampleController (Some "s1") (set_now 2000 w1)
      = (set_now 2000 w1, JsonResponse 200 (BodyHistory "s1" [])).
Proof.
  split; [reflexivity |].
  apply (clearSession_then_history_empty sampleController "s1" worldWithHistory 2000);
    reflexivity.
Defined.

(** *** Steps that do not read the stored sessions *)

Lemma blind_ret {A} (a : A) : sessionsBlind (ret a).
Proof. intros wa wb Hab. split; [exact Hab | reflexivity]. Qed.

Lemma blind_throw {A} message : sessionsBlind (@throw A message).
Proof. intros wa wb Hab. split; [exact Hab | reflexivity]. Qed.

Lemma blind_bind {A B} (m : M A) (k : A -> M B) :
  sessionsBlind m -> (forall a, sessionsBlind (k a)) -> sessionsBlind (bind m k).
Proof.
  intros Hm Hk wa wb Hab. unfold bind.
  destruct (Hm wa wb Hab) as [Hw Hr].
  destruct (m wa) as [wa' ra], (m wb) as [wb' rb]. simpl in Hw, Hr. subst rb.
  destruct ra as [a | message].
  - apply Hk. exact Hw.
  - split; [exact Hw | reflexivity].
Qed.

Lemma blind_try_catch {A} (m : M A) (h : string -> M A) :
  sessionsBlind m -> (forall message, sessionsBlind (h message)) ->
  sessionsBlind (try_catch m h).
Proof.
  intros Hm Hh wa wb Hab. unfold try_catch.
  destruct (Hm wa wb Hab) as [Hw Hr].
  destruct (m wa) as [wa' ra], (m wb) as [wb' rb]. simpl in Hw, Hr. subst rb.
  destruct ra as [a | message].
  - split; [exact Hw | reflexivity].
  - apply Hh. exact Hw.
Qed.

Ltac blind_step :=
  intros wa wb (Htr & Hq & Ho & Hn); unfold agreeOffSessions; simpl;
  rewrite ?Htr, ?Hq, ?Ho, ?Hn.

Ltac blind_done := unfold agreeOffSessions; simpl; repeat split; congruence.

Lemma blind_Date_now : sessionsBlind Date_now.
Proof. unfold Date_now. blind_step. blind_done. Qed.

Lemma blind_embedText env svc text : sessionsBlind (embedText env svc text).
Proof.
  intros wa wb Hab. rewrite !embedText_run. revert wa wb Hab.
  blind_step. blind_done.
Qed.

Lemma blind_similaritySearch env store queryEmbedding limit :
  sessionsBlind (similaritySearch env store queryEmbedding limit).
Proof.
  intros wa wb Hab. rewrite !similaritySearch_run. revert wa wb Hab.
  blind_step. blind_done.
Qed.

Lemma blind_generateResponse env queryText retrievedDocs chatHistory :
  sessionsBlind (generateResponse env queryText retrievedDocs chatHistory).
Proof.
  intros wa wb Hab. rewrite !generateResponse_run. revert wa wb Hab.
  blind_step. blind_done.
Qed.

Lemma blind_storeChatSession svc sessionId messages ttl :
  sessionsBlind (storeChatSession svc sessionId messages ttl).
Proof.
  unfold storeChatSession, try_catch, setex_session, ret. blind_step.
  destruct (redis_online wb) eqn:Hob; [|blind_done].
  destruct (default (defaultTTL svc) ttl <=? 0); blind_done.
Qed.

Lemma blind_cacheQueryResult svc queryText result ttl :
  sessionsBlind (cacheQueryResult svc queryText result ttl).
Proof.
  unfold cacheQueryResult, try_catch, setex_query, ret. blind_step.
  destruct (redis_online wb) eqn:Hob; [|blind_done].
  destruct (default (defaultTTL svc) ttl <=? 0); blind_done.
Qed.

Lemma blind_getCachedQueryResult svc queryText :
  sessionsBlind (getCachedQueryResult svc queryText).
Proof.
  unfold getCachedQueryResult, try_catch, bind, get_query, ret. blind_step.
  destruct (redis_online wb) eqn:Hob; [|blind_done].
  destruct (live (now wb) (queries wb !! base64 queryText)); blind_done.
Qed.

Lemma blind_saveChatMessage env sessionId message :
  sessionsBlind (saveChatMessage env sessionId message).
Proof. unfold saveChatMessage. blind_step. blind_done. Qed.

Lemma blind_persistChat env ctl sessionId userMessage botMessage :
  sessionsBlind (persistChat env ctl sessionId userMessage botMessage).
Proof.
  unfold persistChat. destruct (persistenceService ctl); [|apply blind_ret].
  apply blind_bind; [|intros _]; apply blind_saveChatMessage.
Qed.

Create HintDb blind.

#[local] Hint Resolve blind_ret blind_throw blind_Date_now blind_embedText
  blind_similaritySearch blind_generateResponse blind_storeChatSession
  blind_cacheQueryResult blind_getCachedQueryResult blind_persistChat : blind.

Ltac blind :=
  repeat first
    [ solve [auto with blind]
    | apply blind_bind; [|intros ?]
    | apply blind_try_catch; [|intros ?]
    | progress cbv beta zeta ].

Lemma blind_replyFromCache ctl sessionId history cachedResult :
  sessionsBlind (replyFromCache ctl sessionId history cachedResult).
Proof. unfold replyFromCache. blind. Qed.

Lemma blind_replyFromRetrieval env ctl sessionId message history userMessage :
  sessionsBlind (replyFromRetrieval env ctl sessionId message history userMessage).
Proof. unfold replyFromRetrieval. blind. Qed.

Lemma bind_run {A B} (m : M A) (k : A -> M B) w w' a :
  m w = (w', Ok a) -> bind m k w = k a w'.
Proof. intros Hm. unfold bind. rewrite Hm. reflexivity. Qed.

Lemma handler_snd body failure wa wb :
  snd (body wa) = snd (body wb) ->
  snd (handler body failure wa) = snd (handler body failure wb).
Proof.
  unfold handler. destruct (body wa) as [wa' ra], (body wb) as [wb' rb].
  simpl. intros ->. destruct rb; reflexivity.
Qed.

(** The answer of [sendMessage] depends on the stored sessions only
    through the history read for its session, none counting as empty. *)
Lemma sendMessage_reads_history_only env ctl sessionId message wa wb :
  agreeOffSessions wa wb ->
  redis_online wa = true ->
  (forall sid, present sessionId = Some sid ->
     default [] (storedHistory wa sid) = default [] (storedHistory wb sid)) ->
  snd (sendMessage env ctl sessionId message wa)
  = snd (sendMessage env ctl sessionId message wb).
Proof.
  intros Hab Honline Hhistory.
  assert (Honline' : redis_online wb = true)
    by (destruct Hab as (_ & _ & <- & _); exact Honline).
  unfold sendMessage. apply handler_snd.
  destruct (present sessionId) as [sid|]; [|reflexivity].
  destruct (present message) as [text|]; [|reflexivity].
  rewrite (bind_run _ _ wa _ _ (getChatSession_run _ wa Honline sid)).
  rewrite (bind_run _ _ wb _ _ (getChatSession_run _ wb Honline' sid)).
  cbv beta zeta. rewrite (Hhistory sid eq_refl).
  match goal with
  | |- snd (?m wa) = snd (?m wb) => assert (Hblind : sessionsBlind m)
  end.
  { apply blind_bind; [apply blind_Date_now | intros time].
    apply blind_bind; [apply blind_getCachedQueryResult | intros [c|]].
    - apply blind_replyFromCache.
    - apply blind_replyFromRetrieval. }
  apply (Hblind wa wb Hab).
Qed.

(** C10 (as amended). On a reachable Redis with a positive time to live,
    for a session id under which Redis holds nothing (never stored, or
    expired), [getSessionHistory] answers 404, and [sendMessage] does not:
    its answer is the one it gives when the session is stored with no
    messages. The turn is complete whenever the answer is cached or every
    provider answers and the SQL sink does not throw, and when it is
    complete the session holds exactly the new user message and the
    assistant message of the response. *)
Theorem sendMessage_unknown_session env ctl sessionId message w :
  redis_online w = true ->
  0 < defaultTTL (cacheService ctl) ->
  str_truthy sessionId = true ->
  str_truthy message = true ->
  storedHistory w sessionId = None ->
  let sent := sendMessage env ctl (Some sessionId) (Some message) w in
  getSessionHistory ctl (Some sessionId) w
    = (w, JsonResponse 404 (BodyFailure "Chat session not found")) /\
  status (snd sent) <> Some 404 /\
  (forall expiry,
     now w < expiry ->
     snd (sendMessage env ctl (Some sessionId) (Some message)
            (set_sessions (<[sessionId := ([], expiry)]> (sessions w)) w))
     = snd sent) /\
  (cachedAnswer w message <> None \/ providersAnswer env ->
   turnDone (snd sent) = true) /\
  (turnDone (snd sent) = true ->
   exists bot cached,
     snd sent = JsonResponse 200 (BodyResponse bot cached) /\
     role bot = Assistant /\
     storedHistory (fst sent) sessionId
     = Some [userMessageAt (now w) message; bot]).
Proof.
  intros Honline Httl Hsid Hmsg Habsent sent. split; [|split; [|split; [|split]]].
  - unfold getSessionHistory, handler. rewrite (present_Some _ Hsid).
    unfold bind. rewrite getChatSession_run by assumption.
    rewrite Habsent. reflexivity.
  - unfold sent.
    destruct (sendMessage_cases env ctl sessionId message w Honline Httl Hsid Hmsg)
      as (w0 & r0 & -> & Hcases).
    destruct Hcases as [(c & _ & -> & _) | [(_ & response & srcs & -> & _)
                                          | (_ & -> & _)]]; discriminate.
  - intros expiry Hlater. unfold sent. symmetry.
    apply sendMessage_reads_history_only.
    + repeat split.
    + exact Honline.
    + intros sid Hpresent. rewrite (present_Some _ Hsid) in Hpresent.
      injection Hpresent as <-. rewrite Habsent.
      unfold storedHistory. simpl. rewrite lookup_insert_eq. simpl.
      destruct (Z.ltb_spec (now w) expiry); [reflexivity | lia].
  - intros Hwhy. apply sendMessage_completes; try assumption.
    destruct Hwhy as [Hcached | Hanswer]; [left; split; assumption | right; exact Hanswer].
  - intros Hdone.
    destruct (sendMessage_done_history env ctl sessionId message w (fst sent)
                (snd sent) Honline Httl Hsid Hmsg (surjective_pairing _) Hdone)
      as (bot & cached & Hr & Hrole & Hstored).
    exists bot, cached. split; [exact Hr |]. split; [exact Hrole |].
    rewrite Hstored, Habsent. reflexivity.
Qed.

(** A session id under which nothing is stored, and a cache whose time
    to live is -5: [sendMessage] answers 200 with a message, and nothing
    is stored under the session id afterwards. *)
Lemma sendMessage_unknown_session_not_stored :
  let sent := sendMessage workingEnv shortLivedController (Some "s9")
                (Some "hello") worldWithHistory in
  storedHistory worldWithHistory "s9" = None /\
  turnDone (snd sent) = true /\
  status (snd sent) = Some 200 /\
  storedHistory (fst sent) "s9" = None.
Proof. vm_compute. repeat split; reflexivity. Qed.

(** The session [s1] of [worldWithHistory], asked after its entry has
    expired. *)
Lemma sendMessage_unknown_session_witness :
  let w := set_now 5000 worldWithHistory in
  let sent := sendMessage workingEnv sampleController (Some "s1") (Some "hello") w in
  storedHistory w "s1" = None /\
  getSessionHistory sampleController (Some "s1") w
    = (w, JsonResponse 404 (BodyFailure "Chat session not found")) /\
  status (snd sent) <> Some 404 /\
  exists bot cached,
    snd sent = JsonResponse 200 (BodyResponse bot cached) /\
    role bot = Assistant /\
    storedHistory (fst sent) "s1" = Some [userMessageAt 5000 "hello"; bot].
Proof.
  intros w sent. split; [reflexivity |].
  destruct (sendMessage_unknown_session workingEnv sampleController "s1" "hello"
              w eq_refl eq_refl eq_refl eq_refl eq_refl)
    as (Hmissing & Hstatus & _ & Hcomplete & Hstored).
  split; [exact Hmissing |]. split; [exact Hstatus |].
  apply Hstored. apply Hcomplete. right. exact workingEnv_answers.
Defined.

(** On the sample collaborators that turn is complete. *)
Example sendMessage_unknown_session_completes :
  turnDone
    (snd (sendMessage workingEnv sampleController (Some "s1") (Some "hello")
            (set_now 5000 worldWithHistory))) = true.
Proof. vm_compute. reflexivity. Qed.

(** * Further properties of the services *)

(** ** Chunker: size and order of the chunks *)










Lemma chunk_text_imap doc docIndex total pieces :
  map chunk_text (imap (chunkObject doc docIndex total) pieces) = pieces.
Proof.
  apply list_eq. intros i.
  rewrite list_lookup_fmap, list_lookup_imap.
  destruct (pieces !! i); reflexivity.
Qed.

Lemma processFrom_texts fuel svc documents :
  forall docIndex chunks result,
    processFrom fuel svc docIndex documents chunks = Some result ->
    exists pieces,
      Forall2 (fun doc ps => chunkText fuel svc (docText doc) = Some ps)
              documents pieces /\
      map chunk_text result = map chunk_text chunks ++ concat pieces.
Proof.
  induction documents as [|doc rest IH]; intros docIndex chunks result Hrun.
  - simpl in Hrun. injection Hrun as <-. exists []. split; [constructor |].
    simpl. symmetry. apply app_nil_r.
  - simpl in Hrun.
    destruct (chunkText fuel svc (docText doc)) as [ps|] eqn:Hps; [|discriminate].
    destruct (IH _ _ _ Hrun) as (pieces & Hall & Htexts).
    exists (ps :: pieces). split; [constructor; assumption |].
    rewrite Htexts, map_app, chunk_text_imap, <- app_assoc. reflexivity.
Qed.

(** X2. The texts of the chunks that [processDocuments] returns are the
    chunks of the first document in their order, then those of the second,
    and so on: nothing is dropped, repeated or reordered, so the number of
    chunks is the sum over the documents. *)
Theorem processDocuments_texts_in_order fuel svc documents chunks :
  processDocuments fuel svc documents = Some chunks ->
  exists pieces,
    Forall2 (fun doc ps => chunkText fuel svc (docText doc) = Some ps)
            documents pieces /\
    map chunk_text chunks = concat pieces.
Proof.
  intros Hrun. apply processFrom_texts in Hrun as (pieces & Hall & Htexts).
  exists pieces. split; [exact Hall | exact Htexts].
Qed.

Lemma processDocuments_texts_in_order_witness :
  exists pieces,
    Forall2 (fun doc ps => chunkText 0 (newChunkerService emptyChunkerConfig)
                             (docText doc) = Some ps)
            [plainArticle; taggedDocument] pieces /\
    map chunk_text
      [chunkObject plainArticle 0 1 0 (docText plainArticle);
       chunkObject taggedDocument 1 1 0 (docText taggedDocument)]
    = concat pieces.
Proof.
  apply (processDocuments_texts_in_order 0 (newChunkerService emptyChunkerConfig)
           [plainArticle; taggedDocument]).
  reflexivity.
Defined.

(** ** Embedding service: truncation and batching *)

Lemma substring_prefix_length m s :
  String.length (String.substring 0 m s) = Nat.min m (String.length s) /\
  String.prefix (String.substring 0 m s) s = true.
Proof.
  revert m. induction s as [|a s IH]; intros [|m]; simpl; try (split; reflexivity).
  destruct (IH m) as [Hlen Hpre]. rewrite Hlen, Hpre.
  destruct (ascii_dec a a); [split; reflexivity | contradiction].
Qed.

Lemma prefix_refl s : String.prefix s s = true.
Proof.
  induction s as [|a s IH]; simpl; [reflexivity |].
  destruct (ascii_dec a a); [exact IH | contradiction].
Qed.

Lemma js_substring_from_0 text n :
  js_substring text 0 (Z.of_nat n)
  = String.substring 0 (Nat.min n (String.length text)) text.
Proof.
  unfold js_substring, strlen. f_equal; lia.
Qed.

(** X3. [_truncateText] keeps the first maxTokens * approximateCharsPerToken
    characters of a longer text and leaves any other text as it is: the
    result is a prefix of the text, its length is the smaller of the two
    lengths, and truncating it again changes nothing. *)
Theorem truncateText_prefix svc text :
  let maxChars := (maxTokens svc * approximateCharsPerToken svc)%nat in
  String.prefix (_truncateText svc text) text = true /\
  String.length (_truncateText svc text) = Nat.min maxChars (String.length text) /\
  _truncateText svc (_truncateText svc text) = _truncateText svc text.
Proof.
  intros maxChars.
  assert (Hlen : String.length (_truncateText svc text)
                 = Nat.min maxChars (String.length text)).
  { unfold _truncateText. fold maxChars.
    destruct (Nat.ltb_spec maxChars (String.length text)); [|lia].
    rewrite js_substring_from_0.
    rewrite (proj1 (substring_prefix_length _ _)). lia. }
  split; [|split; [exact Hlen |]].
  - unfold _truncateText. fold maxChars.
    destruct (Nat.ltb_spec maxChars (String.length text)); [|apply prefix_refl].
    rewrite js_substring_from_0. apply substring_prefix_length.
  - unfold _truncateText at 1. fold maxChars. rewrite Hlen.
    destruct (Nat.ltb_spec maxChars (Nat.min maxChars (String.length text)));
      [lia | reflexivity].
Qed.

Lemma embedBatchLoop_requests env svc truncatedTexts :
  batchesAnswered env ->
  (1 <= batchSize svc)%nat ->
  forall fuel i embeddings w,
    (length truncatedTexts - i <= fuel)%nat ->
    exists w' result batches,
      embedBatchLoop fuel env svc truncatedTexts i embeddings w
        = Some (w', Ok result) /\
      trace w' = trace w ++ map (fun batch => EvEmbed (InputBatch batch)) batches /\
      concat batches = drop i truncatedTexts /\
      Forall (fun batch => (1 <= length batch <= batchSize svc)%nat) batches.
Proof.
  intros Hok Hsize fuel.
  induction fuel as [|fuel IH]; intros i embeddings w Hfuel;
    rewrite embedBatchLoop_unfold;
    destruct (Nat.ltb_spec i (length truncatedTexts)) as [Hi | Hi]; try lia.
  1, 3: exists w, embeddings, []; split; [reflexivity |]; simpl;
        rewrite app_nil_r, drop_ge by lia; repeat split; constructor.
  set (batch := slice truncatedTexts i (i + batchSize svc)).
  unfold embedBatchPass, try_catch, bind, axios_post, ret.
  destruct (Hok (trace w) batch) as [data ->].
  destruct (IH (i + batchSize svc)%nat (embeddings ++ data)
              (log_event (EvEmbed (InputBatch batch)) w) ltac:(lia))
    as (w' & result & batches & -> & Htrace & Hconcat & Hsizes).
  exists w', result, (batch :: batches). split; [reflexivity |].
  split; [|split].
  - rewrite Htrace. simpl. rewrite <- app_assoc. reflexivity.
  - simpl. rewrite Hconcat. unfold batch, slice.
    replace (i + batchSize svc - i)%nat with (batchSize svc) by lia.
    rewrite <- (drop_drop truncatedTexts). apply take_drop.
  - constructor; [|exact Hsizes].
    unfold batch. rewrite slice_length. lia.
Qed.

(** X4. With a provider that answers every batch request, [embedBatch]
    ends without throwing and without any single-text request: its calls
    are batch requests only, each of at least one and at most batchSize
    texts, and the batches, one after the other, are the truncated texts
    in their order, each text sent once. For no texts it makes no call. *)
Theorem embedBatch_requests env config texts fuel w :
  let svc := newJinaEmbeddingService config in
  (length texts <= fuel)%nat ->
  batchesAnswered env ->
  exists w' result batches,
    embedBatch fuel env svc texts w = Some (w', Ok result) /\
    trace w' = trace w ++ map (fun batch => EvEmbed (InputBatch batch)) batches /\
    concat batches = map (_truncateText svc) texts /\
    Forall (fun batch => (1 <= length batch <= batchSize svc)%nat) batches /\
    (texts = [] -> w' = w /\ result = []).
Proof.
  intros svc Hfuel Hok. unfold embedBatch.
  destruct (embedBatchLoop_requests env svc (map (_truncateText svc) texts) Hok
              (batchSize_positive config) fuel 0%nat [] w)
    as (w' & result & batches & Hrun & Htrace & Hconcat & Hsizes).
  { rewrite length_map. lia. }
  exists w', result, batches. repeat split; try assumption.
  - subst texts. rewrite embedBatchLoop_unfold in Hrun. simpl in Hrun. congruence.
  - subst texts. rewrite embedBatchLoop_unfold in Hrun. simpl in Hrun. congruence.
Qed.

Lemma embedBatch_requests_witness :
  exists w' result batches,
    embedBatch 3 workingEnv (newJinaEmbeddingService pairBatches)
      ["a"; "bb"; "ccc"] emptyWorld = Some (w', Ok result) /\
    trace w' =
      trace emptyWorld ++ map (fun batch => EvEmbed (InputBatch batch)) batches /\
    concat batches =
      map (_truncateText (newJinaEmbeddingService pairBatches)) ["a"; "bb"; "ccc"] /\
    Forall (fun batch =>
              (1 <= length batch
               <= batchSize (newJinaEmbeddingService pairBatches))%nat) batches /\
    (["a"; "bb"; "ccc"] = [] -> w' = emptyWorld /\ result = []).
Proof.
  apply (embedBatch_requests workingEnv pairBatches ["a"; "bb"; "ccc"] 3 emptyWorld).
  - simpl. lia.
  - intros tr batch. eexists. reflexivity.
Defined.

(** ** Vector store: what is stored and what a search gives back *)

Lemma chunkFields_other doc docIndex chunkIndex total key :
  key <> "docId" -> key <> "docTitle" -> key <> "chunkIndex" ->
  key <> "totalChunks" -> key <> "source" ->
  chunkFields doc docIndex chunkIndex total !! key = None.
Proof.
  intros. unfold chunkFields.
  rewrite !lookup_insert_ne by congruence. apply lookup_empty.
Qed.

(** The payload stored for a chunk, read at one key: the value of the
    document's metadata where it has the key, else the field computed for
    the chunk, else the text under the key "text". *)
Lemma chunk_payload_lookup doc docIndex total chunkIndex piece time embeddings i key :
  point_payload
    (makePoint time embeddings i
       (chunkDocument (chunkObject doc docIndex total chunkIndex piece))) !! key =
  match doc_metadata doc ≫= (.!! key) with
  | Some v => Some v
  | None =>
      match chunkFields doc docIndex chunkIndex total !! key with
      | Some v => Some v
      | None => if decide (key = "text") then Some (JsString piece) else None
      end
  end.
Proof.
  unfold makePoint, chunkDocument, chunkObject.
  cbn [point_payload vd_text vd_metadata chunk_text chunk_metadata].
  rewrite lookup_spread_over. cbn [mbind option_bind].
  rewrite lookup_spread_over.
  destruct (doc_metadata doc ≫= (.!! key)); [reflexivity |].
  destruct (chunkFields doc docIndex chunkIndex total !! key); [reflexivity |].
  destruct (decide (key = "text")) as [-> | Hne].
  - apply lookup_insert_eq.
  - rewrite lookup_insert_ne by congruence. apply lookup_empty.
Qed.

(** X5. A chunk made by [processDocuments], stored by [addDocuments] and
    found again by [similaritySearch] comes back with its text and its
    source, but without the article's title: the title was stored under
    docTitle, and the search reads title, url and date, which are undefined
    unless the document's own metadata has these keys. A key "text" or
    "source" in the document's metadata replaces the chunk's text or
    source. *)
Theorem stored_chunk_as_search_result
    doc docIndex total chunkIndex piece time embeddings i score :
  let own key := doc_metadata doc ≫= (.!! key) in
  let found :=
    hitDocument
      {| hit_payload :=
           point_payload
             (makePoint time embeddings i
                (chunkDocument (chunkObject doc docIndex total chunkIndex piece)));
         hit_score := score |} in
  rd_text found = default (JsString piece) (own "text") /\
  md_source (rd_metadata found)
    = default (js_or (doc_source doc) (JsString "unknown")) (own "source") /\
  md_title (rd_metadata found) = default JsUndefined (own "title") /\
  md_url (rd_metadata found) = default JsUndefined (own "url") /\
  md_date (rd_metadata found) = default JsUndefined (own "date") /\
  rd_score found = score.
Proof.
  intros own found. unfold found, hitDocument, prop.
  cbn [rd_text rd_metadata md_title md_source md_url md_date rd_score
       hit_payload hit_score].
  rewrite !chunk_payload_lookup. fold (own "text") (own "source") (own "title")
    (own "url") (own "date").
  rewrite !chunkFields_other by discriminate.
  repeat split.
  - destruct (own "text"); reflexivity.
  - destruct (own "source"); reflexivity.
  - destruct (own "title"); reflexivity.
  - destruct (own "url"); reflexivity.
  - destruct (own "date"); reflexivity.
Qed.

Lemma point_id_inj time embeddings i j doc doc' :
  point_id (makePoint time embeddings i doc)
  = point_id (makePoint time embeddings j doc') -> i = j.
Proof.
  unfold makePoint. simpl. intros H.
  apply (inj (String.append _)) in H. apply (inj (String.append _)) in H.
  apply (inj pretty) in H. exact H.
Qed.

(** X6. The points that one call of [addDocuments] sends to the provider
    have pairwise different ids, and there is one point per document, in
    the order of the documents. *)
Theorem addDocuments_ids_distinct env store documents embeddings w w' :
  addDocuments env store documents (Some embeddings) w = (w', Ok tt) ->
  exists points,
    trace w' = trace w ++ [EvUpsert (collectionName store) points] /\
    length points = length documents /\
    NoDup (map point_id points).
Proof.
  unfold addDocuments, try_catch, bind, Date_now, client_upsert, throw.
  destruct (length documents =? length embeddings)%nat; simpl; [|discriminate].
  destruct (qdrant_upsert env (trace w) (collectionName store) _); [discriminate |].
  intros [= <-].
  eexists. split; [reflexivity |]. split; [apply length_imap |].
  apply NoDup_alt. intros i j id Hi Hj.
  rewrite list_lookup_fmap, list_lookup_imap in Hi, Hj.
  destruct (documents !! i) as [doc|]; [|discriminate].
  destruct (documents !! j) as [doc'|]; [|discriminate].
  simpl in Hi, Hj. injection Hi as Hi. injection Hj as Hj.
  apply (point_id_inj (now w) embeddings i j doc doc').
  unfold makePoint. simpl. congruence.
Qed.

Lemma addDocuments_ids_distinct_witness :
  exists points,
    trace (fst (addDocuments workingEnv defaultVectorStore
                  [sampleVectorDocument; sampleVectorDocument]
                  (Some [shortVector; shortVector]) emptyWorld))
    = trace emptyWorld ++ [EvUpsert (collectionName defaultVectorStore) points] /\
    length points = 2%nat /\
    NoDup (map point_id points).
Proof.
  apply (addDocuments_ids_distinct workingEnv defaultVectorStore
           [sampleVectorDocument; sampleVectorDocument]
           [shortVector; shortVector] emptyWorld).
  reflexivity.
Defined.

Lemma collection_listed (m : gmap string CollectionInfo) name :
  existsb (fun n => String.eqb n name) (map fst (map_to_list m))
  = match m !! name with Some _ => true | None => false end.
Proof.
  destruct (m !! name) as [info|] eqn:Hname.
  - apply existsb_exists. exists name. split; [|apply String.eqb_refl].
    apply in_map_iff. exists (name, info). split; [reflexivity |].
    apply list_elem_of_In, elem_of_map_to_list. exact Hname.
  - apply not_true_is_false. intros Hsome.
    apply existsb_exists in Hsome as (n & Hin & Heq).
    apply String.eqb_eq in Heq. subst n.
    apply in_map_iff in Hin as ([n info] & Hfst & Hin). simpl in Hfst. subst n.
    apply list_elem_of_In, elem_of_map_to_list in Hin. congruence.
Qed.

Lemma initialize_run store db :
  initialize store db =
  if qd_reachable db then
    match qd_collections db !! collectionName store with
    | Some _ => (db, Ok tt)
    | None =>
        (set_collections
           (<[collectionName store := freshCollection store]> (qd_collections db)) db,
         Ok tt)
    end
  else (db, initializeFailure qdrant_unreachable).
Proof.
  unfold initialize, getCollections, createCollection.
  destruct (qd_reachable db); [|reflexivity].
  rewrite collection_listed.
  destruct (qd_collections db !! collectionName store); reflexivity.
Qed.

(** X7. [initialize] on a reachable server does not fail and, run again,
    changes nothing. A collection that exists under the store's name is
    left as it is, with its points, also when its vector size is not the
    configured dimension; a missing one is created empty, with the
    configured dimension and the cosine distance. The other collections
    are not touched. On an unreachable server it throws and changes
    nothing. *)
Theorem initialize_idempotent store db :
  let name := collectionName store in
  let db' := fst (initialize store db) in
  (qd_reachable db = true ->
   initialize store db = (db', Ok tt) /\
   initialize store db' = (db', Ok tt) /\
   qd_collections db' =
     match qd_collections db !! name with
     | Some _ => qd_collections db
     | None => <[name := freshCollection store]> (qd_collections db)
     end) /\
  (qd_reachable db = false ->
   initialize store db
   = (db, Throw "Qdrant initialization failed: fetch failed")).
Proof.
  intros name db'. unfold db'. rewrite initialize_run. fold name. split.
  - intros Hup. rewrite Hup.
    destruct (qd_collections db !! name) as [info|] eqn:Hname; simpl.
    + rewrite initialize_run. fold name. rewrite Hup, Hname.
      repeat split; reflexivity.
    + rewrite initialize_run. fold name. simpl.
      rewrite Hup, lookup_insert_eq. repeat split; reflexivity.
  - intros Hup. rewrite Hup. reflexivity.
Qed.

(** X8. [clearCollection] on a reachable server that has the store's
    collection does not fail: afterwards that collection has no points,
    the configured dimension and the cosine distance, and the other
    collections are as before. On an unreachable server it throws and
    changes nothing. *)
Theorem clearCollection_empties store db :
  is_Some (qd_collections db !! collectionName store) ->
  clearCollection store db =
  if qd_reachable db then
    (set_collections
       (<[collectionName store := freshCollection store]> (qd_collections db)) db,
     Ok tt)
  else (db, Throw "Qdrant collection clear failed: fetch failed").
Proof.
  intros _. unfold clearCollection, deleteCollection.
  destruct (qd_reachable db) eqn:Hup; [|reflexivity].
  rewrite initialize_run. simpl. rewrite Hup, lookup_delete_eq.
  unfold set_collections. simpl. rewrite insert_delete_eq. reflexivity.
Qed.

Lemma clearCollection_empties_witness :
  ci_size <$> qd_collections sampleQdrant !! "news_articles" = Some 384%nat /\
  clearCollection defaultVectorStore sampleQdrant =
  (set_collections
     (<["news_articles" := freshCollection defaultVectorStore]>
        (qd_collections sampleQdrant)) sampleQdrant,
   Ok tt).
Proof.
  split; [reflexivity |].
  apply (clearCollection_empties defaultVectorStore sampleQdrant).
  eexists. reflexivity.
Defined.

Lemma initialize_idempotent_witness :
  qd_reachable sampleQdrant = true /\
  initialize defaultVectorStore sampleQdrant
  = (fst (initialize defaultVectorStore sampleQdrant), Ok tt).
Proof.
  split; [reflexivity |].
  apply (proj1 (initialize_idempotent defaultVectorStore sampleQdrant)).
  reflexivity.
Defined.

(** [initialize] keeps the collection of 384 dimensions of [sampleQdrant]
    although the store is configured for 768. *)
Example initialize_keeps_other_size :
  initialize defaultVectorStore sampleQdrant = (sampleQdrant, Ok tt) /\
  store_dimension defaultVectorStore = 768%nat.
Proof. split; [|reflexivity]. rewrite initialize_run. reflexivity. Qed.

(** ** Cache service: failures, expiry and keys *)

Lemma base64_digits_checked n :
  (n < 64)%nat ->
  base64_digit n <> "="%char /\
  forall m, (m < 64)%nat -> base64_digit n = base64_digit m -> n = m.
Proof.
  intros Hn.
  assert (Hall : base64_digits_distinct = true) by (vm_compute; reflexivity).
  unfold base64_digits_distinct in Hall.
  rewrite forallb_forall in Hall.
  specialize (Hall n). rewrite in_seq in Hall.
  specialize (Hall ltac:(lia)).
  apply andb_prop in Hall as [Hpad Hall]. split.
  - intros Heq. rewrite Heq in Hpad. discriminate.
  - intros m Hm Heq. rewrite forallb_forall in Hall.
    specialize (Hall m). rewrite in_seq in Hall.
    specialize (Hall ltac:(lia)).
    rewrite Heq, Ascii.eqb_refl in Hall. simpl in Hall.
    apply Nat.eqb_eq. exact Hall.
Qed.

Lemma base64_digit_inj n m :
  (n < 64)%nat -> (m < 64)%nat -> base64_digit n = base64_digit m -> n = m.
Proof. intros Hn Hm. apply (base64_digits_checked n Hn); exact Hm. Qed.

Lemma base64_digit_pad n : (n < 64)%nat -> "="%char <> base64_digit n.
Proof. intros Hn Heq. apply (base64_digits_checked n Hn). symmetry. exact Heq. Qed.

Lemma nat_of_ascii_inj a b : nat_of_ascii a = nat_of_ascii b -> a = b.
Proof.
  intros Heq. rewrite <- (ascii_nat_embedding a), <- (ascii_nat_embedding b).
  rewrite Heq. reflexivity.
Qed.

Lemma string_ind3 (P : string -> Prop) :
  P EmptyString ->
  (forall a, P (String a EmptyString)) ->
  (forall a b, P (String a (String b EmptyString))) ->
  (forall a b c rest, P rest -> P (String a (String b (String c rest)))) ->
  forall s, P s.
Proof.
  intros H0 H1 H2 H3 s.
  assert (H : P s /\ (forall a, P (String a s)) /\
              (forall a b, P (String a (String b s)))).
  { induction s as [|c rest (IH0 & IH1 & IH2)].
    - repeat split; auto.
    - repeat split; auto. }
  apply H.
Qed.

Lemma String_inj a b s t : String a s = String b t -> a = b /\ s = t.
Proof. intros Heq. injection Heq as -> ->. split; reflexivity. Qed.

Ltac divmod x d :=
  pose proof (Nat.div_mod_eq x d);
  pose proof (Nat.mod_upper_bound x d ltac:(lia)).

Ltac ascii_facts :=
  repeat match goal with
  | a : ascii |- _ =>
      lazymatch goal with
      | _ : (nat_of_ascii a < 256)%nat |- _ => fail
      | _ =>
          pose proof (nat_ascii_bounded a);
          divmod (nat_of_ascii a) 4%nat;
          divmod (nat_of_ascii a) 16%nat;
          divmod (nat_of_ascii a) 64%nat
      end
  end.

Ltac base64_digits :=
  repeat match goal with
  | H : String _ _ = String _ _ |- _ => apply String_inj in H; destruct H as [? ?]
  end;
  try discriminate;
  repeat match goal with
  | H : base64_digit _ = base64_digit _ |- _ =>
      apply base64_digit_inj in H; [| lia | lia]
  | H : "="%char = base64_digit _ |- _ =>
      exfalso; revert H; apply base64_digit_pad; lia
  | H : base64_digit _ = "="%char |- _ =>
      exfalso; symmetry in H; revert H; apply base64_digit_pad; lia
  end.

Lemma base64_one a :
  base64 (String a EmptyString) =
  String (base64_digit (nat_of_ascii a / 4))
    (String (base64_digit (nat_of_ascii a mod 4 * 16)) "==").
Proof. reflexivity. Qed.

Lemma base64_two a b :
  base64 (String a (String b EmptyString)) =
  String (base64_digit (nat_of_ascii a / 4))
    (String (base64_digit (nat_of_ascii a mod 4 * 16 + nat_of_ascii b / 16))
       (String (base64_digit (nat_of_ascii b mod 16 * 4)) "=")).
Proof. reflexivity. Qed.

Lemma base64_three a b c rest :
  base64 (String a (String b (String c rest))) =
  String (base64_digit (nat_of_ascii a / 4))
    (String (base64_digit (nat_of_ascii a mod 4 * 16 + nat_of_ascii b / 16))
       (String (base64_digit (nat_of_ascii b mod 16 * 4 + nat_of_ascii c / 64))
          (String (base64_digit (nat_of_ascii c mod 64)) (base64 rest)))).
Proof. reflexivity. Qed.

(** Two texts with the same base64 text are the same text. *)
Lemma base64_inj s t : base64 s = base64 t -> s = t.
Proof.
  revert t. induction s as [|a|a b|a b c rest IH] using string_ind3;
    intros [|a' [|b' [|c' rest']]] Heq;
    rewrite ?base64_one, ?base64_two, ?base64_three in Heq;
    try discriminate; try reflexivity;
    ascii_facts; base64_digits;
    repeat match goal with
    | |- String _ _ = String _ _ => f_equal; try (apply nat_of_ascii_inj; lia)
    end;
    try reflexivity.
  match goal with
  | IH : forall t, base64 _ = base64 t -> _ |- _ => apply IH; assumption
  end.
Qed.

(** X9. No method of the cache service throws, whatever Redis does, and the
    two reading methods change nothing. *)
Theorem cache_methods_never_throw svc sessionId messages message queryText
    result ttl w :
  (exists w', storeChatSession svc sessionId messages ttl w = (w', Ok tt)) /\
  (exists r, getChatSession svc sessionId w = (w, Ok r)) /\
  (exists w' b, addMessageToSession svc sessionId message ttl w = (w', Ok b)) /\
  (exists w' b, deleteChatSession svc sessionId w = (w', Ok b)) /\
  (exists w', cacheQueryResult svc queryText result ttl w = (w', Ok tt)) /\
  (exists r, getCachedQueryResult svc queryText w = (w, Ok r)).
Proof.
  unfold storeChatSession, getChatSession, addMessageToSession,
    deleteChatSession, cacheQueryResult, getCachedQueryResult, try_catch, bind,
    setex_session, get_session, del_session, setex_query, get_query, ret.
  destruct (redis_online w) eqn:Honline; simpl; rewrite ?Honline;
    destruct (default (defaultTTL svc) ttl <=? 0);
    destruct (live (now w) (sessions w !! sessionId));
    destruct (live (now w) (queries w !! base64 queryText));
    repeat split; eexists; try eexists; reflexivity.
Qed.

(** X10. While Redis cannot be reached the cache service stores nothing and
    reports nothing: every method returns, the readers with null, the
    two methods that report success with false. *)
Theorem cache_offline_is_silent svc sessionId messages message queryText
    result ttl w :
  redis_online w = false ->
  storeChatSession svc sessionId messages ttl w = (w, Ok tt) /\
  getChatSession svc sessionId w = (w, Ok None) /\
  addMessageToSession svc sessionId message ttl w = (w, Ok false) /\
  deleteChatSession svc sessionId w = (w, Ok false) /\
  cacheQueryResult svc queryText result ttl w = (w, Ok tt) /\
  getCachedQueryResult svc queryText w = (w, Ok None).
Proof.
  intros Hoff.
  unfold storeChatSession, getChatSession, addMessageToSession,
    deleteChatSession, cacheQueryResult, getCachedQueryResult, try_catch, bind,
    setex_session, get_session, del_session, setex_query, get_query, ret.
  rewrite Hoff. repeat split.
Qed.

Lemma cache_offline_is_silent_witness :
  redis_online offlineWorld = false /\
  addMessageToSession sampleCache "s1" sampleMessage None offlineWorld
  = (offlineWorld, Ok false).
Proof.
  split; [reflexivity |].
  apply (cache_offline_is_silent sampleCache "s1" [] sampleMessage "q"
           sampleResult None offlineWorld).
  reflexivity.
Defined.

(** X11. A history stored with a positive time to live is read back, as it
    was stored, until that time has passed on the clock, and not after;
    a time to live that is not positive stores nothing, without an
    error. *)
Theorem stored_session_expires svc sessionId messages ttl t w :
  redis_online w = true ->
  let lifetime := default (defaultTTL svc) ttl in
  let w' := fst (storeChatSession svc sessionId messages ttl w) in
  if 0 <? lifetime
  then getChatSession svc sessionId (set_now t w')
       = (set_now t w',
          Ok (if t <? now w + lifetime then Some messages else None))
  else w' = w.
Proof.
  intros Honline lifetime w'. unfold w', storeChatSession, try_catch,
    setex_session, ret. fold lifetime. rewrite Honline.
  destruct (Z.ltb_spec 0 lifetime) as [Hpos | Hneg];
    destruct (Z.leb_spec lifetime 0); try lia; [|reflexivity].
  cbn [fst]. rewrite getChatSession_run by exact Honline.
  unfold storedHistory. simpl. rewrite lookup_insert_eq. simpl.
  destruct (t <? now w + lifetime); reflexivity.
Qed.

Lemma stored_session_expires_witness :
  redis_online emptyWorld = true /\
  getChatSession sampleCache "s1"
    (set_now 4600 (fst (storeChatSession sampleCache "s1" [sampleMessage] None
                          emptyWorld)))
  = (set_now 4600 (fst (storeChatSession sampleCache "s1" [sampleMessage] None
                          emptyWorld)),
     Ok None).
Proof.
  split; [reflexivity |].
  apply (stored_session_expires sampleCache "s1" [sampleMessage] None 4600
           emptyWorld).
  reflexivity.
Defined.

(** X12. [addMessageToSession] on a reachable Redis returns true and leaves
    the session with the stored history followed by the message, the
    message alone when nothing was stored or the session had expired. The
    whole history gets the new time to live. Other sessions, the query
    cache and the providers are not touched. *)
Theorem addMessageToSession_appends svc sessionId message ttl w :
  redis_online w = true ->
  0 < default (defaultTTL svc) ttl ->
  exists w',
    addMessageToSession svc sessionId message ttl w = (w', Ok true) /\
    sessions w' !! sessionId =
      Some (default [] (storedHistory w sessionId) ++ [message],
            now w + default (defaultTTL svc) ttl) /\
    storedHistory w' sessionId =
      Some (default [] (storedHistory w sessionId) ++ [message]) /\
    (forall other, other <> sessionId ->
                   storedHistory w' other = storedHistory w other) /\
    queries w' = queries w /\ trace w' = trace w /\ now w' = now w.
Proof.
  intros Honline Httl.
  unfold addMessageToSession, try_catch, bind, get_session, setex_session, ret.
  rewrite Honline. cbn [redis_online]. rewrite Honline.
  destruct (Z.leb_spec (default (defaultTTL svc) ttl) 0); [lia |].
  eexists. split; [reflexivity |]. unfold storedHistory. simpl.
  rewrite lookup_insert_eq. repeat split.
  - simpl. destruct (Z.ltb_spec (now w) (now w + default (defaultTTL svc) ttl));
      [reflexivity | lia].
  - intros other Hne. rewrite lookup_insert_ne by congruence. reflexivity.
Qed.

Lemma addMessageToSession_appends_witness :
  redis_online emptyWorld = true /\
  exists w',
    addMessageToSession sampleCache "s1" sampleMessage None emptyWorld
    = (w', Ok true) /\
    storedHistory w' "s1" = Some [sampleMessage].
Proof.
  split; [reflexivity |].
  destruct (addMessageToSession_appends sampleCache "s1" sampleMessage None
              emptyWorld) as (w' & Hrun & _ & Hstored & _);
    [reflexivity | reflexivity |].
  exists w'. split; [exact Hrun | exact Hstored].
Defined.

(** X13. [deleteChatSession] on a reachable Redis returns true, also when
    there was no such session; afterwards the session has no history, and
    the other sessions and the query cache are as before. *)
Theorem deleteChatSession_forgets svc sessionId w :
  redis_online w = true ->
  exists w',
    deleteChatSession svc sessionId w = (w', Ok true) /\
    getChatSession svc sessionId w' = (w', Ok None) /\
    (forall other, other <> sessionId ->
                   storedHistory w' other = storedHistory w other) /\
    queries w' = queries w /\ trace w' = trace w.
Proof.
  intros Honline. rewrite deleteChatSession_run by exact Honline.
  eexists. split; [reflexivity |]. split.
  - rewrite getChatSession_run by exact Honline.
    unfold storedHistory. simpl. rewrite lookup_delete_eq. reflexivity.
  - repeat split. intros other Hne. unfold storedHistory. simpl.
    rewrite lookup_delete_ne by congruence. reflexivity.
Qed.

Lemma deleteChatSession_forgets_witness :
  redis_online emptyWorld = true /\
  exists w', deleteChatSession sampleCache "missing" emptyWorld = (w', Ok true).
Proof.
  split; [reflexivity |].
  destruct (deleteChatSession_forgets sampleCache "missing" emptyWorld)
    as (w' & Hrun & _); [reflexivity |].
  exists w'. exact Hrun.
Defined.

(** X14. A cached result is found again under exactly the query text it
    was cached for: after [cacheQueryResult] for one text, the lookup of
    another text gives what it gave before. The key is the base64 text
    of the query, which is different for different texts. The texts are
    of characters below 128, each of which is one byte of the encoded
    buffer. *)
Theorem cached_result_by_exact_query svc queryText other result ttl w :
  redis_online w = true ->
  0 < default (defaultTTL svc) ttl ->
  asciiText queryText = true ->
  asciiText other = true ->
  let w' := fst (cacheQueryResult svc queryText result ttl w) in
  getCachedQueryResult svc other w' =
  (w', Ok (if String.eqb other queryText then Some result
           else cachedAnswer w other)).
Proof.
  intros Honline Httl _ _ w'. unfold w', cacheQueryResult, try_catch,
    setex_query, ret. rewrite Honline.
  destruct (Z.leb_spec (default (defaultTTL svc) ttl) 0); [lia |].
  cbn [fst]. rewrite getCachedQueryResult_run by exact Honline.
  unfold cachedAnswer. simpl.
  destruct (String.eqb_spec other queryText) as [-> | Hne].
  - rewrite lookup_insert_eq. simpl.
    destruct (Z.ltb_spec (now w) (now w + default (defaultTTL svc) ttl));
      [reflexivity | lia].
  - rewrite lookup_insert_ne; [reflexivity |].
    intros Hkey. apply Hne. symmetry. apply base64_inj. exact Hkey.
Qed.

Lemma cached_result_by_exact_query_witness :
  redis_online emptyWorld = true /\
  getCachedQueryResult sampleCache "what is new?"
    (fst (cacheQueryResult sampleCache "What is new?" sampleResult None emptyWorld))
  = (fst (cacheQueryResult sampleCache "What is new?" sampleResult None emptyWorld),
     Ok None).
Proof.
  split; [reflexivity |].
  apply (cached_result_by_exact_query sampleCache "What is new?" "what is new?"
           sampleResult None emptyWorld); reflexivity.
Defined.

(** ** Chat controller: statuses, provider calls and failed turns *)

(** The retrieval branch of [sendMessage], call by call: what each
    provider was asked, with the trace it saw, and what was answered.
    When the branch throws, either a provider failed, before any write to
    Redis, or the SQL sink threw, after the writes. *)
Lemma replyFromRetrieval_outcome env ctl sessionId message history userMessage w w' r :
  replyFromRetrieval env ctl sessionId message history userMessage w = (w', r) ->
  let input := InputText (_truncateText (embeddingService ctl) message) in
  let collection := collectionName (vectorStoreService ctl) in
  let ttl := defaultTTL (cacheService ctl) in
  match r with
  | Throw _ =>
      (exists rest, trace w' = trace w ++ EvEmbed input :: rest) /\
      (sameStore w w' \/
       persistenceService ctl = true /\
       exists response srcs tr m failure,
         let bot := botMessageAt (now w) response srcs in
         persistence_saveChatMessage env tr sessionId m = Some failure /\
         redis_online w' = redis_online w /\ now w' = now w /\
         (redis_online w = false ->
          sessions w' = sessions w /\ queries w' = queries w) /\
         (redis_online w = true -> 0 < ttl ->
          sessions w' =
            <[sessionId := (history ++ [bot], now w + ttl)]> (sessions w) /\
          queries w' =
            <[base64 message :=
                ({| cr_response := response; cr_sources := srcs |}, now w + ttl)]>
              (queries w)))
  | Ok resp =>
      exists e data hits response,
        let request :=
          {| sr_vector := e; sr_limit := 5%nat; sr_with_payload := true;
             sr_with_vectors := false; sr_score_threshold := None |} in
        let docs := map hitDocument hits in
        let turns := formatHistory history in
        let prompt := buildPrompt (formatContext docs) message in
        let bot := botMessageAt (now w) response (map docSource docs) in
        embed_post env (trace w) input = inr (e :: data) /\
        qdrant_search env (trace w ++ [EvEmbed input]) collection request
          = inr hits /\
        gemini_sendMessage env
          (trace w ++ [EvEmbed input; EvSearch collection request]) turns prompt
          = inr response /\
        resp = JsonResponse 200 (BodyResponse bot false) /\
        trace w' =
          trace w ++
          [EvEmbed input; EvSearch collection request; EvGenerate turns prompt] ++
          (if persistenceService ctl
           then [EvSaveChatMessage sessionId userMessage;
                 EvSaveChatMessage sessionId bot]
           else []) /\
        redis_online w' = redis_online w /\ now w' = now w /\
        (redis_online w = false ->
         sessions w' = sessions w /\ queries w' = queries w)
  end.
Proof.
  intros Hrun input collection ttl. revert Hrun. unfold replyFromRetrieval.
  unfold bind at 1. rewrite embedText_run. fold input.
  destruct (embed_post env (trace w) input) as [m | [|e data]] eqn:Hembed.
  1, 2: intros [= <- <-]; split; [exists []; reflexivity | left; apply sameStore_log].
  unfold bind at 1. rewrite similaritySearch_run. cbv zeta. fold collection.
  simpl default.
  match goal with
  | |- context [qdrant_search env ?tr collection ?req] =>
      destruct (qdrant_search env tr collection req) as [m | hits] eqn:Hsearch
  end.
  1: intros [= <- <-]; split;
    [eexists [_]; simpl; rewrite <- app_assoc; reflexivity | left; repeat split].
  unfold bind at 1. rewrite generateResponse_run. cbv zeta.
  match goal with
  | |- context [gemini_sendMessage env ?tr ?h ?p] =>
      destruct (gemini_sendMessage env tr h p) as [m | response] eqn:Hgen
  end.
  1: intros [= <- <-]; split;
    [eexists [_; _]; simpl; rewrite <- !app_assoc; reflexivity | left; repeat split].
  unfold bind at 1. unfold Date_now at 1. unfold bind at 1.
  match goal with
  | |- context [storeChatSession ?s ?i ?ms ?t ?w0] =>
      pose proof (storeChatSession_sessions s i ms t w0) as Hsessions;
      destruct (storeChatSession_total s i ms t w0)
        as (w4 & Hstore & Ht4 & Hq4 & Ho4 & Hn4 & Hoff4)
  end.
  rewrite Hstore in *. unfold bind at 1.
  match goal with
  | |- context [cacheQueryResult ?s ?q ?c ?t w4] =>
      pose proof (cacheQueryResult_queries s q c t w4) as Hqueries;
      destruct (cacheQueryResult_total s q c t w4)
        as (w5 & Hcache & Ht5 & Hs5 & Ho5 & Hn5 & Hoff5)
  end.
  rewrite Hcache in *. unfold bind at 1. rewrite persistChat_run. cbv zeta.
  simpl in Hsearch, Hgen, Ht4, Ho4, Hn4, Hoff4, Hsessions, Hqueries.
  rewrite <- app_assoc in Hgen. simpl in Hgen.
  assert (Ht : trace w5 =
               trace w ++ [EvEmbed input; EvSearch collection
                 {| sr_vector := e; sr_limit := 5%nat; sr_with_payload := true;
                    sr_with_vectors := false; sr_score_threshold := None |};
                 EvGenerate (formatHistory history)
                   (buildPrompt (formatContext (map hitDocument hits)) message)]).
  { rewrite Ht5, Ht4. rewrite <- !app_assoc. reflexivity. }
  assert (Hoff : redis_online w = false ->
                 sessions w5 = sessions w /\ queries w5 = queries w).
  { intros Hdown. rewrite Hoff5 by congruence. rewrite Hoff4 by exact Hdown.
    split; reflexivity. }
  assert (Hon : redis_online w = true -> 0 < ttl ->
                sessions w5 =
                  <[sessionId :=
                      (history ++ [botMessageAt (now w) response
                                     (map docSource (map hitDocument hits))],
                       now w + ttl)]> (sessions w) /\
                queries w5 =
                  <[base64 message :=
                      ({| cr_response := response;
                          cr_sources := map docSource (map hitDocument hits) |},
                       now w + ttl)]> (queries w)).
  { intros Hup Httl. split.
    - rewrite Hs5. apply Hsessions; assumption.
    - rewrite Hqueries by first [exact Httl | congruence].
      rewrite Hq4, Hn4. reflexivity. }
  assert (Hsink : forall failure w6,
             persistenceService ctl = true ->
             (exists tr m, persistence_saveChatMessage env tr sessionId m = Some failure) ->
             sessions w6 = sessions w5 -> queries w6 = queries w5 ->
             redis_online w6 = redis_online w5 -> now w6 = now w5 ->
             (exists rest, trace w6 = trace w5 ++ rest) ->
             (exists rest, trace w6 = trace w ++ EvEmbed input :: rest) /\
             (sameStore w w6 \/
              persistenceService ctl = true /\
              exists response srcs tr m failure,
                let bot := botMessageAt (now w) response srcs in
                persistence_saveChatMessage env tr sessionId m = Some failure /\
                redis_online w6 = redis_online w /\ now w6 = now w /\
                (redis_online w = false ->
                 sessions w6 = sessions w /\ queries w6 = queries w) /\
                (redis_online w = true -> 0 < ttl ->
                 sessions w6 =
                   <[sessionId := (history ++ [bot], now w + ttl)]> (sessions w) /\
                 queries w6 =
                   <[base64 message :=
                       ({| cr_response := response; cr_sources := srcs |},
                        now w + ttl)]> (queries w)))).
  { intros failure w6 Hconfigured (tr & m & Hthrew) Hs6 Hq6 Ho6 Hn6 (rest & Ht6).
    split.
    - rewrite Ht6, Ht. rewrite <- app_assoc. eexists. reflexivity.
    - right. split; [exact Hconfigured |].
      exists response, (map docSource (map hitDocument hits)), tr, m, failure.
      cbv zeta. split; [exact Hthrew |].
      split; [congruence |]. split; [congruence |].
      rewrite Hs6, Hq6. split; assumption. }
  destruct (persistenceService ctl) eqn:Hconfigured.
  - destruct (persistence_saveChatMessage env (trace w5) sessionId userMessage)
      as [failure|] eqn:Hfirst.
    { intros [= <- <-].
      apply (Hsink failure); try reflexivity; [eauto | eexists; reflexivity]. }
    match goal with
    | |- context [persistence_saveChatMessage env ?tr sessionId ?b] =>
        destruct (persistence_saveChatMessage env tr sessionId b)
          as [failure|] eqn:Hsecond
    end.
    { intros [= <- <-].
      apply (Hsink failure); try reflexivity;
        [eauto | simpl; rewrite <- app_assoc; eexists; reflexivity]. }
    unfold ret. intros [= <- <-].
    exists e, data, hits, response. cbv zeta.
    split; [reflexivity |]. split; [exact Hsearch |]. split; [exact Hgen |].
    split; [reflexivity |].
    split; [simpl; rewrite Ht; rewrite <- !app_assoc; reflexivity |].
    split; [simpl; congruence |]. split; [simpl; congruence |]. exact Hoff.
  - unfold ret. intros [= <- <-].
    exists e, data, hits, response. cbv zeta.
    split; [reflexivity |]. split; [exact Hsearch |]. split; [exact Hgen |].
    split; [reflexivity |].
    split; [simpl; exact Ht |].
    split; [congruence |]. split; [congruence |]. exact Hoff.
Qed.



(** With an SQL sink that throws, [sendMessage] answers 500 after it has
    stored the two messages of the turn and cached the answer. *)
Example sendMessage_sink_failure_after_writes :
  let sent := sendMessage throwingSinkEnv persistingController (Some "s2")
                (Some "hello") emptyWorld in
  snd sent = JsonResponse 500 (BodyFailure "Failed to process your message") /\
  length <$> storedHistory (fst sent) "s2" = Some 2%nat /\
  cr_response <$> cachedAnswer (fst sent) "hello"
    = Some "An answer from the articles.".
Proof. vm_compute. repeat split; reflexivity. Qed.

(** X16. An answer of [sendMessage] that does not come from the query cache
    is made of three calls, in this order: the embedding of the message
    (cut to the token budget), a search of the collection for the five
    nearest points with no score threshold, and one generation. The
    history given to the model is the stored history followed by the new
    user message, so the model sees the question in the history and again
    in the prompt; the prompt holds the retrieved documents. The content
    of the answer is what the model returned and its sources are those of
    the retrieved documents, in the order of the search. The two messages
    go to the SQL sink only when one is configured. *)
Theorem sendMessage_answer_from_providers env ctl sessionId message w w' bot cached :
  redis_online w = true ->
  cachedAnswer w message = None ->
  sendMessage env ctl (Some sessionId) (Some message) w
    = (w', JsonResponse 200 (BodyResponse bot cached)) ->
  let user := userMessageAt (now w) message in
  let history := default [] (storedHistory w sessionId) ++ [user] in
  let input := InputText (_truncateText (embeddingService ctl) message) in
  let collection := collectionName (vectorStoreService ctl) in
  exists e data hits,
    let request :=
      {| sr_vector := e; sr_limit := 5%nat; sr_with_payload := true;
         sr_with_vectors := false; sr_score_threshold := None |} in
    let docs := map hitDocument hits in
    let turns := formatHistory history in
    let prompt := buildPrompt (formatContext docs) message in
    embed_post env (trace w) input = inr (e :: data) /\
    qdrant_search env (trace w ++ [EvEmbed input]) collection request = inr hits /\
    gemini_sendMessage env
      (trace w ++ [EvEmbed input; EvSearch collection request]) turns prompt
      = inr (content bot) /\
    bot = botMessageAt (now w) (content bot) (map docSource docs) /\
    cached = false /\
    trace w' =
      trace w ++
      [EvEmbed input; EvSearch collection request; EvGenerate turns prompt] ++
      (if persistenceService ctl
       then [EvSaveChatMessage sessionId user; EvSaveChatMessage sessionId bot]
       else []).
Proof.
  intros Honline Hcached Hrun user history input collection.
  assert (Hsid : present (Some sessionId) = Some sessionId).
  { destruct (present (Some sessionId)) as [s|] eqn:Hp.
    - apply present_truthy in Hp as [[= <-] _]. reflexivity.
    - rewrite sendMessage_missing in Hrun by (left; exact Hp). discriminate Hrun. }
  assert (Hmsg : present (Some message) = Some message).
  { destruct (present (Some message)) as [s|] eqn:Hp.
    - apply present_truthy in Hp as [[= <-] _]. reflexivity.
    - rewrite sendMessage_missing in Hrun by (right; exact Hp). discriminate Hrun. }
  revert Hrun. unfold sendMessage, handler. rewrite Hsid, Hmsg.
  unfold bind at 1. rewrite getChatSession_total.
  unfold bind at 1. unfold Date_now at 1.
  unfold bind at 1. rewrite getCachedQueryResult_total.
  rewrite Honline, Hcached. fold user. fold history.
  destruct (replyFromRetrieval env ctl sessionId message history user w)
    as [w1 r] eqn:Hreply.
  apply replyFromRetrieval_outcome in Hreply. destruct r as [resp | m].
  - destruct Hreply
      as (e & data & hits & response & He & Hs & Hg & -> & Ht & _).
    intros [= <- <- <-]. exists e, data, hits. cbv zeta. simpl content.
    repeat split; assumption.
  - intros H. discriminate H.
Qed.

Lemma sendMessage_answer_from_providers_witness :
  redis_online worldWithHistory = true /\
  cachedAnswer worldWithHistory "hello" = None /\
  exists e data hits,
    embed_post workingEnv [] (InputText "hello") = inr (e :: data) /\
    qdrant_search workingEnv [EvEmbed (InputText "hello")] "news_articles"
      {| sr_vector := e; sr_limit := 5%nat; sr_with_payload := true;
         sr_with_vectors := false; sr_score_threshold := None |} = inr hits.
Proof.
  split; [reflexivity |]. split; [reflexivity |].
  destruct (sendMessage_answer_from_providers workingEnv sampleController
              "s1" "hello" worldWithHistory
              (fst (sendMessage workingEnv sampleController (Some "s1")
                      (Some "hello") worldWithHistory))
              (default sampleMessage
                 (responseMessage
                    (snd (sendMessage workingEnv sampleController (Some "s1")
                            (Some "hello") worldWithHistory))))
              false)
    as (e & data & hits & He & Hs & _);
    [reflexivity | reflexivity | vm_compute; reflexivity |].
  exists e, data, hits. split; [exact He | exact Hs].
Defined.

(** X17. While Redis cannot be reached [sendMessage] still answers, without
    memory: nothing is stored or cached, the answer never comes from the
    cache, and the history given to the model holds the new user message
    only. *)
Theorem sendMessage_without_redis env ctl sessionId message w w' r :
  redis_online w = false ->
  sendMessage env ctl (Some sessionId) (Some message) w = (w', r) ->
  sameStore w w' /\
  forall bot cached,
    r = JsonResponse 200 (BodyResponse bot cached) ->
    cached = false /\
    exists before prompt after,
      trace w' =
        before ++
        EvGenerate (formatHistory [userMessageAt (now w) message]) prompt :: after.
Proof.
  intros Hoff. unfold sendMessage, handler.
  destruct (present (Some sessionId)) as [sid|] eqn:Hsid.
  2: { unfold ret. intros [= <- <-]. split; [apply sameStore_refl |].
       intros bot cached H. discriminate H. }
  apply present_truthy in Hsid as [[= <-] _].
  destruct (present (Some message)) as [text|] eqn:Hmsg.
  2: { unfold ret. intros [= <- <-]. split; [apply sameStore_refl |].
       intros bot cached H. discriminate H. }
  apply present_truthy in Hmsg as [[= <-] _].
  unfold bind at 1. rewrite getChatSession_total.
  unfold bind at 1. unfold Date_now at 1.
  unfold bind at 1. rewrite getCachedQueryResult_total.
  rewrite Hoff. simpl default.
  match goal with
  | |- context [replyFromRetrieval env ctl sessionId message ?h ?u w] =>
      destruct (replyFromRetrieval env ctl sessionId message h u w)
        as [w1 r1] eqn:Hreply
  end.
  apply replyFromRetrieval_outcome in Hreply. destruct r1 as [resp | m].
  - destruct Hreply
      as (e & data & hits & response & _ & _ & _ & -> & Ht & Ho & Hn & Hstore).
    intros [= <- <-]. destruct (Hstore Hoff) as [Hs Hq]. split.
    + repeat split; assumption.
    + intros bot cached [= <- <-]. split; [reflexivity |].
      eexists (trace w ++ [_; _]), _, _. rewrite Ht.
      rewrite <- app_assoc. reflexivity.
  - intros [= <- <-]. split.
    + destruct Hreply
        as [_ [Hsame | (_ & response & srcs & tr & m0 & failure & _ &
                        Ho & Hn & Hdown & _)]]; [exact Hsame |].
      destruct (Hdown Hoff) as [Hs Hq]. repeat split; assumption.
    + intros bot cached H. discriminate H.
Qed.

Lemma sendMessage_without_redis_witness :
  redis_online offlineWorld = false /\
  sameStore offlineWorld
    (fst (sendMessage workingEnv sampleController (Some "s1") (Some "hello")
            offlineWorld)).
Proof.
  split; [reflexivity |].
  apply (sendMessage_without_redis workingEnv sampleController "s1" "hello"
           offlineWorld _
           (snd (sendMessage workingEnv sampleController (Some "s1")
                   (Some "hello") offlineWorld)));
    reflexivity.
Defined.

(** [streamMessage] on a reachable Redis, from the first call to the last
    event: it always asks for the embedding of the message, and it ends
    with the error event, having stored the user's message only, or with
    the error event because the SQL sink threw after the whole answer was
    stored and cached, or with the end event, the whole answer stored and
    cached. *)
Lemma streamMessage_outcome env ctl sessionId message w :
  redis_online w = true ->
  0 < defaultTTL (cacheService ctl) ->
  str_truthy sessionId = true ->
  str_truthy message = true ->
  let user := userMessageAt (now w) message in
  let history := default [] (storedHistory w sessionId) ++ [user] in
  let input := InputText (_truncateText (embeddingService ctl) message) in
  exists w' events,
    streamMessage env ctl (Some sessionId) (Some message) w
      = (w', EventStream events) /\
    (exists rest, trace w' = trace w ++ EvEmbed input :: rest) /\
    redis_online w' = true /\ now w' = now w /\
    ((exists written,
         events = written ++ [streamFailure] /\
         (written = [] \/
          exists srcs fragments,
            written = [SseStart; SseSources srcs] ++ map SseChunk fragments) /\
         storedHistory w' sessionId = Some history /\
         queries w' = queries w) \/
     (persistenceService ctl = true /\
      exists srcs fragments tr m failure,
         persistence_saveChatMessage env tr sessionId m = Some failure /\
         events =
           [SseStart; SseSources srcs] ++ map SseChunk fragments ++ [streamFailure] /\
         storedHistory w' sessionId =
           Some (history ++
                 [botMessageAt (now w) (String.concat EmptyString fragments) srcs]) /\
         cachedAnswer w' message =
           Some {| cr_response := String.concat EmptyString fragments;
                   cr_sources := srcs |}) \/
     (exists srcs fragments,
         events =
           [SseStart; SseSources srcs] ++ map SseChunk fragments ++ [SseEnd] /\
         Forall (fun fragment => str_truthy fragment = true) fragments /\
         storedHistory w' sessionId =
           Some (history ++
                 [botMessageAt (now w) (String.concat EmptyString fragments) srcs]) /\
         cachedAnswer w' message =
           Some {| cr_response := String.concat EmptyString fragments;
                   cr_sources := srcs |})).
Proof.
  intros Honline Httl Hsid Hmsg user history input.
  assert (Hlive : forall (A : Type) (v : A) (m : gmap string (A * Z)) key,
             live (now w) (<[key := (v, now w + defaultTTL (cacheService ctl))]> m !! key)
             = Some v).
  { intros A v m key. apply live_insert. lia. }
  unfold streamMessage.
  rewrite (present_Some _ Hsid), (present_Some _ Hmsg).
  unfold streamPrelude.
  unfold bind at 1. rewrite getChatSession_run by assumption.
  unfold bind at 1. unfold Date_now at 1.
  unfold bind at 1. rewrite storeChatSession_run by assumption.
  fold user. fold history.
  unfold bind at 1. rewrite embedText_run. fold input. cbn [trace set_sessions].
  destruct (embed_post env (trace w) input) as [m | [|e data]].
  1, 2: eexists _, _; split; [reflexivity |]; split;
    [exists []; reflexivity |];
    split; [exact Honline |]; split; [reflexivity |];
    left; exists []; split; [reflexivity |]; split; [left; reflexivity |];
    split; [unfold storedHistory; simpl; apply Hlive | reflexivity].
  unfold bind at 1. rewrite similaritySearch_run. cbv zeta.
  match goal with
  | |- context [qdrant_search env ?tr ?col ?req] =>
      destruct (qdrant_search env tr col req) as [m | hits]
  end.
  1: eexists _, _; split; [reflexivity |]; split;
    [eexists [_]; simpl; rewrite <- app_assoc; reflexivity |];
    split; [exact Honline |]; split; [reflexivity |];
    left; exists []; split; [reflexivity |]; split; [left; reflexivity |];
    split; [unfold storedHistory; simpl; apply Hlive | reflexivity].
  unfold ret. unfold generateStreamingResponse.
  match goal with
  | |- context [gemini_sendMessageStream env ?tr ?h ?p] =>
      destruct (gemini_sendMessageStream env tr h p) as [chunkTexts failure]
  end.
  destruct failure as [m|]; simpl fmap.
  { eexists _, _. split; [reflexivity |]. split.
    { eexists [_; _]. simpl. rewrite <- !app_assoc. reflexivity. }
    split; [exact Honline |]. split; [reflexivity |].
    left. eexists. split; [reflexivity |]. split.
    { right. eexists _, _. reflexivity. }
    split; [unfold storedHistory; simpl; apply Hlive | reflexivity]. }
  unfold streamEpilogue.
  unfold bind at 1. unfold Date_now at 1.
  unfold bind at 1. rewrite storeChatSession_run by assumption.
  unfold bind at 1. rewrite cacheQueryResult_run by assumption.
  rewrite persistChat_run. cbv zeta.
  destruct (persistenceService ctl) eqn:Hconfigured.
  - match goal with
    | |- context [persistence_saveChatMessage env ?tr sessionId user] =>
        destruct (persistence_saveChatMessage env tr sessionId user)
          as [failure|] eqn:Hfirst
    end.
    { eexists _, _. split; [reflexivity |]. split.
      { simpl. rewrite <- !app_assoc. eexists. reflexivity. }
      split; [exact Honline |]. split; [reflexivity |].
      right. left. split; [reflexivity |].
      eexists _, _, _, _, _. split; [exact Hfirst |].
      split; [rewrite <- app_assoc; reflexivity |].
      split; [unfold storedHistory | unfold cachedAnswer]; simpl; apply Hlive. }
    match goal with
    | |- context [persistence_saveChatMessage env ?tr sessionId ?b] =>
        destruct (persistence_saveChatMessage env tr sessionId b)
          as [failure|] eqn:Hsecond
    end.
    { eexists _, _. split; [reflexivity |]. split.
      { simpl. rewrite <- !app_assoc. eexists. reflexivity. }
      split; [exact Honline |]. split; [reflexivity |].
      right. left. split; [reflexivity |].
      eexists _, _, _, _, _. split; [exact Hsecond |].
      split; [rewrite <- app_assoc; reflexivity |].
      split; [unfold storedHistory | unfold cachedAnswer]; simpl; apply Hlive. }
    eexists _, _. split; [reflexivity |]. split.
    { simpl. rewrite <- !app_assoc. eexists. reflexivity. }
    split; [exact Honline |]. split; [reflexivity |].
    right. right. eexists _, _. split; [rewrite <- app_assoc; reflexivity |]. split.
    { apply Forall_forall. intros fragment Hin.
      apply list_elem_of_filter in Hin as [Htruthy _]. exact Htruthy. }
    split; [unfold storedHistory | unfold cachedAnswer]; simpl; apply Hlive.
  - eexists _, _. split; [reflexivity |]. split.
    { simpl. rewrite <- !app_assoc. eexists. reflexivity. }
    split; [exact Honline |]. split; [reflexivity |].
    right. right. eexists _, _. split; [rewrite <- app_assoc; reflexivity |]. split.
    { apply Forall_forall. intros fragment Hin.
      apply list_elem_of_filter in Hin as [Htruthy _]. exact Htruthy. }
    split; [unfold storedHistory | unfold cachedAnswer]; simpl; apply Hlive.
Qed.


(** X18. [streamMessage] does not look into the query cache. For a query whose
    answer is cached, [sendMessage] answers without a call to any
    provider, and [streamMessage] asks for the embedding of the message
    again. *)
Theorem streamMessage_ignores_query_cache env ctl sessionId message c w :
  redis_online w = true ->
  0 < defaultTTL (cacheService ctl) ->
  str_truthy sessionId = true ->
  str_truthy message = true ->
  cachedAnswer w message = Some c ->
  trace (fst (sendMessage env ctl (Some sessionId) (Some message) w)) = trace w /\
  exists rest,
    trace (fst (streamMessage env ctl (Some sessionId) (Some message) w)) =
    trace w ++
    EvEmbed (InputText (_truncateText (embeddingService ctl) message)) :: rest.
Proof.
  intros Honline Httl Hsid Hmsg Hcached. split.
  - destruct (sendMessage_cases env ctl sessionId message w Honline Httl Hsid Hmsg)
      as (w' & r & -> & [(c' & _ & _ & ->) | [(Hnone & _) | (Hnone & _)]]);
      [reflexivity | congruence | congruence].
  - destruct (streamMessage_outcome env ctl sessionId message w Honline Httl
                Hsid Hmsg) as (w' & events & -> & Htrace & _).
    exact Htrace.
Qed.

Lemma streamMessage_ignores_query_cache_witness :
  cachedAnswer
    (fst (sendMessage workingEnv sampleController (Some "s1") (Some "hello")
            emptyWorld)) "hello"
  <> None /\
  exists rest,
    trace (fst (streamMessage workingEnv sampleController (Some "s1") (Some "hello")
                  (fst (sendMessage workingEnv sampleController (Some "s1")
                          (Some "hello") emptyWorld)))) =
    trace (fst (sendMessage workingEnv sampleController (Some "s1") (Some "hello")
                  emptyWorld)) ++
    EvEmbed (InputText "hello") :: rest.
Proof.
  split; [vm_compute; discriminate |].
  apply (streamMessage_ignores_query_cache workingEnv sampleController "s1"
           "hello"
           {| cr_response := "An answer from the articles.";
              cr_sources := map docSource (map hitDocument sampleHits) |}
           (fst (sendMessage workingEnv sampleController (Some "s1")
                   (Some "hello") emptyWorld)));
    vm_compute; reflexivity.
Defined.



(** With an SQL sink that throws, the stream ends with the error event
    after every fragment was sent, and the answer is stored and cached. *)
Example streamMessage_sink_failure_after_writes :
  let run := streamMessage throwingSinkEnv persistingController (Some "s2")
               (Some "hello") emptyWorld in
  snd run =
    EventStream
      [SseStart; SseSources (map docSource (map hitDocument sampleHits));
       SseChunk "An answer "; SseChunk "from the articles."; streamFailure] /\
  length <$> storedHistory (fst run) "s2" = Some 2%nat /\
  cr_response <$> cachedAnswer (fst run) "hello"
    = Some "An answer from the articles.".
Proof. vm_compute. repeat split; reflexivity. Qed.

(** X20. A stream that reaches its end event, on a reachable Redis, has sent
    the start event, the sources, one event for each fragment, none of
    them empty, and the end event. The query cache then holds, for the
    message, the fragments joined in order with those sources, so that a
    following [sendMessage] with the same message, on any session, is
    answered from the cache with the whole text. *)
Theorem streamMessage_complete_caches_answer env ctl sessionId message w w' events :
  redis_online w = true ->
  0 < defaultTTL (cacheService ctl) ->
  str_truthy sessionId = true ->
  str_truthy message = true ->
  streamMessage env ctl (Some sessionId) (Some message) w
    = (w', EventStream events) ->
  last events = Some SseEnd ->
  exists srcs fragments,
    events = [SseStart; SseSources srcs] ++ map SseChunk fragments ++ [SseEnd] /\
    Forall (fun fragment => str_truthy fragment = true) fragments /\
    cachedAnswer w' message =
      Some {| cr_response := String.concat EmptyString fragments;
              cr_sources := srcs |} /\
    forall env' other,
      str_truthy other = true ->
      exists w'',
        sendMessage env' ctl (Some other) (Some message) w' =
        (w'',
         JsonResponse 200
           (BodyResponse
              (botMessageAt (now w) (String.concat EmptyString fragments) srcs)
              true)).
Proof.
  intros Honline Httl Hsid Hmsg Hrun Hlast.
  destruct (streamMessage_outcome env ctl sessionId message w Honline Httl
              Hsid Hmsg)
    as (w0 & events0 & Hrun0 & _ & Honline' & Hnow & Hcases).
  rewrite Hrun in Hrun0. injection Hrun0 as <- <-.
  destruct Hcases as [(written & -> & _)
                     | [(_ & srcs & fragments & tr & m & failure & _ & -> & _)
                       | (srcs & fragments & -> & Hfragments & _ & Hcached)]].
  - rewrite last_snoc in Hlast. discriminate Hlast.
  - rewrite !app_assoc, last_snoc in Hlast. discriminate Hlast.
  - exists srcs, fragments. repeat split; try assumption.
    intros env' other Hother.
    destruct (sendMessage_cases env' ctl other message w' Honline' Httl
                Hother Hmsg)
      as (w'' & r & -> & [(c & Hc & -> & _) | [(Hnone & _) | (Hnone & _)]]);
      [| congruence | congruence].
    exists w''. rewrite Hcached in Hc. injection Hc as <-.
    rewrite Hnow. reflexivity.
Qed.

Lemma streamMessage_complete_caches_answer_witness :
  exists srcs fragments,
    [SseStart; SseSources (map docSource (map hitDocument sampleHits));
     SseChunk "An answer "; SseChunk "from the articles."; SseEnd]
    = [SseStart; SseSources srcs] ++ map SseChunk fragments ++ [SseEnd] /\
    cachedAnswer
      (fst (streamMessage workingEnv sampleController (Some "s1") (Some "hello")
              emptyWorld)) "hello"
    = Some {| cr_response := String.concat EmptyString fragments;
              cr_sources := srcs |}.
Proof.
  destruct (streamMessage_complete_caches_answer workingEnv sampleController
              "s1" "hello" emptyWorld
              (fst (streamMessage workingEnv sampleController (Some "s1")
                      (Some "hello") emptyWorld))
              [SseStart; SseSources (map docSource (map hitDocument sampleHits));
               SseChunk "An answer "; SseChunk "from the articles."; SseEnd])
    as (srcs & fragments & Hevents & _ & Hcached & _);
    [reflexivity | reflexivity | reflexivity | reflexivity
    | vm_compute; reflexivity | reflexivity |].
  exists srcs, fragments. split; [exact Hevents | exact Hcached].
Defined.

(** X21. The three handlers that only talk to Redis never answer 500, although
    each has a catch branch for it: the cache service swallows every
    error. [createSession] always answers 201 with the identifier it
    drew, and [getSessionHistory] changes nothing. *)
Theorem session_handlers_never_fail env ctl sessionId w :
  (exists w',
      createSession env ctl w =
      (w', JsonResponse 201
             (BodyCreated (uuidv4 env (trace w)) "Chat session created")) /\
      trace w' = trace w ++ [EvUuid]) /\
  fst (getSessionHistory ctl sessionId w) = w /\
  status (snd (getSessionHistory ctl sessionId w)) <> Some 500 /\
  status (snd (clearSession ctl sessionId w)) <> Some 500.
Proof.
  split; [|split; [|split]].
  - unfold createSession, handler. unfold bind at 1. unfold bind at 1.
    match goal with
    | |- context [storeChatSession ?s ?i ?ms ?t ?w0] =>
        destruct (storeChatSession_total s i ms t w0) as (w1 & -> & Ht & _)
    end.
    unfold ret. exists w1. split; [reflexivity | exact Ht].
  - unfold getSessionHistory, handler.
    destruct (present sessionId) as [sid|]; [|reflexivity].
    unfold bind. rewrite getChatSession_total.
    destruct (if redis_online w then storedHistory w sid else None); reflexivity.
  - unfold getSessionHistory, handler.
    destruct (present sessionId) as [sid|]; [|discriminate].
    unfold bind. rewrite getChatSession_total.
    destruct (if redis_online w then storedHistory w sid else None); discriminate.
  - unfold clearSession, handler.
    destruct (present sessionId) as [sid|]; [|discriminate].
    unfold bind at 1.
    destruct (deleteChatSession_total (cacheService ctl) sid w)
      as (w1 & b & -> & _).
    unfold bind at 1.
    destruct (storeChatSession_total (cacheService ctl) sid [] None w1)
      as (w2 & -> & _).
    discriminate.
Qed.

(** X22. While Redis cannot be reached, [createSession] still answers 201 and
    [clearSession] still answers 200, with nothing stored or deleted, and
    [getSessionHistory] answers 404 for every session, also for the one
    just reported as created. *)
Theorem session_handlers_without_redis env ctl sessionId w :
  redis_online w = false ->
  str_truthy sessionId = true ->
  createSession env ctl w =
    (log_event EvUuid w,
     JsonResponse 201 (BodyCreated (uuidv4 env (trace w)) "Chat session created")) /\
  getSessionHistory ctl (Some sessionId) w =
    (w, JsonResponse 404 (BodyFailure "Chat session not found")) /\
  clearSession ctl (Some sessionId) w =
    (w, JsonResponse 200 (BodySuccess "Chat session cleared")).
Proof.
  intros Hoff Hsid. split; [|split].
  - unfold createSession, handler. unfold bind at 1. unfold bind at 1.
    match goal with
    | |- context [storeChatSession ?s ?i ?ms ?t ?w0] =>
        destruct (storeChatSession_total s i ms t w0) as (w1 & -> & _ & _ & _ & _ & Hsame)
    end.
    rewrite Hsame by exact Hoff. reflexivity.
  - unfold getSessionHistory, handler. rewrite (present_Some _ Hsid).
    unfold bind. rewrite getChatSession_total, Hoff. reflexivity.
  - unfold clearSession, handler. rewrite (present_Some _ Hsid).
    unfold bind at 1.
    destruct (deleteChatSession_total (cacheService ctl) sessionId w)
      as (w1 & b & -> & Hsame1).
    rewrite (Hsame1 Hoff). unfold bind at 1.
    destruct (storeChatSession_total (cacheService ctl) sessionId [] None w)
      as (w2 & -> & _ & _ & _ & _ & Hsame2).
    rewrite (Hsame2 Hoff). reflexivity.
Qed.

Lemma session_handlers_without_redis_witness :
  redis_online offlineWorld = false /\
  clearSession sampleController (Some "s1") offlineWorld =
    (offlineWorld, JsonResponse 200 (BodySuccess "Chat session cleared")).
Proof.
  split; [reflexivity |].
  apply (session_handlers_without_redis workingEnv sampleController "s1"
           offlineWorld); reflexivity.
Defined.

(** X23. A session made by [createSession] on a reachable Redis has an empty
    history, which [getSessionHistory] returns with status 200 until the
    time to live has passed; from then on the session is not found. *)
Theorem createSession_then_history env ctl t w :
  redis_online w = true ->
  0 < defaultTTL (cacheService ctl) ->
  str_truthy (uuidv4 env (trace w)) = true ->
  let sessionId := uuidv4 env (trace w) in
  let w' := set_now t (fst (createSession env ctl w)) in
  getSessionHistory ctl (Some sessionId) w' =
  (w',
   if t <? now w + defaultTTL (cacheService ctl)
   then JsonResponse 200 (BodyHistory sessionId [])
   else JsonResponse 404 (BodyFailure "Chat session not found")).
Proof.
  intros Honline Httl Hsid sessionId w'.
  assert (Hcreate :
    fst (createSession env ctl w) =
    set_sessions
      (<[sessionId := ([], now w + defaultTTL (cacheService ctl))]> (sessions w))
      (log_event EvUuid w)).
  { unfold createSession, handler, bind.
    rewrite storeChatSession_run by assumption. reflexivity. }
  unfold w'. rewrite Hcreate. unfold sessionId.
  unfold getSessionHistory, handler. rewrite (present_Some _ Hsid).
  unfold bind. rewrite getChatSession_run by exact Honline.
  unfold storedHistory. simpl. rewrite lookup_insert_eq. simpl.
  destruct (t <? now w + defaultTTL (cacheService ctl)); reflexivity.
Qed.

Lemma createSession_then_history_witness :
  redis_online emptyWorld = true /\
  snd (getSessionHistory sampleController (Some "session-0")
         (set_now 4600 (fst (createSession workingEnv sampleController emptyWorld))))
  = JsonResponse 404 (BodyFailure "Chat session not found").
Proof.
  split; [reflexivity |].
  exact (f_equal snd
           (createSession_then_history workingEnv sampleController 4600 emptyWorld
              eq_refl eq_refl eq_refl)).
Defined.

(** X24. A request without a session id, or with an empty one, is answered
    400 by every handler that takes one, and so is a message request
    without a message; nothing is read, stored or sent to a provider. *)
Theorem handlers_reject_missing_parameters env ctl sessionId message w :
  present sessionId = None \/ present message = None ->
  sendMessage env ctl sessionId message w =
    (w, JsonResponse 400 (BodyFailure "Session ID and message are required")) /\
  streamMessage env ctl sessionId message w =
    (w, JsonResponse 400 (BodyFailure "Session ID and message are required")) /\
  (present sessionId = None ->
   getSessionHistory ctl sessionId w =
     (w, JsonResponse 400 (BodyFailure "Session ID is required")) /\
   clearSession ctl sessionId w =
     (w, JsonResponse 400 (BodyFailure "Session ID is required"))).
Proof.
  intros Hmissing. split; [|split].
  - apply sendMessage_missing. exact Hmissing.
  - unfold streamMessage.
    destruct (present sessionId), (present message), Hmissing;
      try discriminate; reflexivity.
  - intros Hsid. unfold getSessionHistory, clearSession, handler.
    rewrite Hsid. split; reflexivity.
Qed.

Lemma handlers_reject_missing_parameters_witness :
  streamMessage workingEnv sampleController (Some "s1") (Some EmptyString) emptyWorld =
    (emptyWorld,
     JsonResponse 400 (BodyFailure "Session ID and message are required")).
Proof.
  apply (handlers_reject_missing_parameters workingEnv sampleController
           (Some "s1") (Some EmptyString) emptyWorld).
  right. reflexivity.
Defined.

(** X25. An answer from the query cache gives the session a new time to live
    and leaves the cached answer with the one it had: a cached answer
    expires at the time fixed when it was generated, however often it is
    used. *)
Theorem cache_hit_renews_session_only env ctl sessionId message c t w :
  redis_online w = true ->
  0 < defaultTTL (cacheService ctl) ->
  str_truthy sessionId = true ->
  str_truthy message = true ->
  cachedAnswer w message = Some c ->
  let w' := fst (sendMessage env ctl (Some sessionId) (Some message) w) in
  queries w' = queries w /\
  (is_Some (storedHistory (set_now t w') sessionId) <->
   t < now w + defaultTTL (cacheService ctl)).
Proof.
  intros Honline Httl Hsid Hmsg Hcached w'. unfold w'.
  destruct (sendMessage_cases env ctl sessionId message w Honline Httl Hsid Hmsg)
    as (w1 & r & -> & [(c' & _ & _ & ->) | [(Hnone & _) | (Hnone & _)]]);
    [| congruence | congruence].
  split; [reflexivity |].
  unfold storedHistory. simpl. rewrite lookup_insert_eq. simpl.
  destruct (Z.ltb_spec t (now w + defaultTTL (cacheService ctl))); split.
  - intros _. assumption.
  - intros _. eexists. reflexivity.
  - intros [x Hx]. discriminate Hx.
  - intros Hlt. lia.
Qed.

Lemma cache_hit_renews_session_only_witness :
  queries
    (fst (sendMessage workingEnv sampleController (Some "s2") (Some "hello")
            (set_now 2000
               (fst (sendMessage workingEnv sampleController (Some "s1")
                       (Some "hello") emptyWorld)))))
  = queries
      (set_now 2000
         (fst (sendMessage workingEnv sampleController (Some "s1")
                 (Some "hello") emptyWorld))).
Proof.
  apply (cache_hit_renews_session_only workingEnv sampleController "s2" "hello"
           {| cr_response := "An answer from the articles.";
              cr_sources := map docSource (map hitDocument sampleHits) |}
           0
           (set_now 2000
              (fst (sendMessage workingEnv sampleController (Some "s1")
                      (Some "hello") emptyWorld))));
    vm_compute; reflexivity.
Defined.

(** ** Constructors, short documents, the model and the query path *)

(** X26. Every numeric option of a constructor is read with [||], so a
    configured 0 is replaced by the default like a missing value: the
    sizes of the chunker, the counts of the embedding service, the
    dimension of the vector store and the time to live of the cache are
    never 0, and an overlap of 0 cannot be configured. An empty collection
    name is replaced in the same way. *)
Theorem constructors_replace_zero config econfig vconfig cconfig :
  let chunker := newChunkerService config in
  let embedder := newJinaEmbeddingService econfig in
  let store := newQdrantVectorStore vconfig in
  let cache := newRedisCacheService cconfig in
  maxChunkSize chunker <> 0 /\ overlap chunker <> 0 /\ minChunkSize chunker <> 0 /\
  overlap (newChunkerService
             {| cfg_maxChunkSize := cfg_maxChunkSize config;
                cfg_overlap := Some 0;
                cfg_minChunkSize := cfg_minChunkSize config |}) = 100 /\
  (0 < batchSize embedder)%nat /\ (0 < dimension embedder)%nat /\
  (0 < maxTokens embedder)%nat /\
  (0 < store_dimension store)%nat /\ collectionName store <> EmptyString /\
  defaultTTL cache <> 0.
Proof.
  destruct config as [m o n], econfig as [b d t], vconfig as [c vd],
    cconfig as [ttl].
  unfold newChunkerService, newJinaEmbeddingService, newQdrantVectorStore,
    newRedisCacheService, num_or, nat_or, str_or. simpl.
  repeat split.
  - destruct m as [z|]; [destruct (Z.eqb_spec z 0) |]; lia.
  - destruct o as [z|]; [destruct (Z.eqb_spec z 0) |]; lia.
  - destruct n as [z|]; [destruct (Z.eqb_spec z 0) |]; lia.
  - destruct b as [[|k]|]; lia.
  - destruct d as [[|k]|]; lia.
  - destruct t as [[|k]|]; lia.
  - destruct vd as [[|k]|]; lia.
  - destruct c as [[|a s]|]; simpl; discriminate.
  - destruct ttl as [z|]; [destruct (Z.eqb_spec z 0) |]; lia.
Qed.

Lemma processFrom_short fuel svc documents :
  Forall (fun doc => strlen (docText doc) <= maxChunkSize svc) documents ->
  forall docIndex chunks,
    processFrom fuel svc docIndex documents chunks =
    Some (chunks ++
          imap (fun i doc => chunkObject doc (docIndex + i) 1 0 (docText doc))
               documents).
Proof.
  induction 1 as [|doc rest Hdoc _ IH]; intros docIndex chunks.
  - simpl. rewrite app_nil_r. reflexivity.
  - simpl. unfold chunkText at 1.
    destruct (Z.leb_spec (strlen (docText doc)) (maxChunkSize svc)); [|lia].
    rewrite IH. simpl. rewrite <- app_assoc. simpl.
    rewrite Nat.add_0_r. do 3 f_equal.
    apply imap_ext. intros i d _. simpl. f_equal. lia.
Qed.

(** X27. Documents whose text is not longer than maxChunkSize give one
    chunk each, in the order of the documents, with the whole text; this
    holds for a document without content and text too, whose chunk has
    the empty text. The chunk is built with chunkIndex 0 and totalChunks
    1, and its metadata has these values unless the document's own
    metadata has the keys chunkIndex or totalChunks, whose values then
    replace them. The loop of [chunkText] is not entered. *)
Theorem processDocuments_short_documents fuel svc documents :
  Forall (fun doc => strlen (docText doc) <= maxChunkSize svc) documents ->
  processDocuments fuel svc documents =
    Some (imap (fun docIndex doc => chunkObject doc docIndex 1 0 (docText doc))
               documents) /\
  forall doc docIndex,
    let chunk := chunkObject doc docIndex 1 0 (docText doc) in
    let own key := doc_metadata doc ≫= (.!! key) in
    chunk_text chunk = docText doc /\
    chunk_metadata chunk !! "chunkIndex"
      = Some (default (JsNumber 0) (own "chunkIndex")) /\
    chunk_metadata chunk !! "totalChunks"
      = Some (default (JsNumber 1) (own "totalChunks")).
Proof.
  intros Hshort. split.
  - unfold processDocuments.
    rewrite (processFrom_short fuel svc documents Hshort). reflexivity.
  - intros doc docIndex chunk own. split; [reflexivity |].
    unfold chunk, chunkObject. cbn [chunk_metadata].
    rewrite !lookup_spread_over. fold (own "chunkIndex") (own "totalChunks").
    split; [destruct (own "chunkIndex") | destruct (own "totalChunks")];
      reflexivity.
Qed.

Lemma processDocuments_short_documents_witness :
  processDocuments 0 stuckChunker [taggedDocument; plainArticle] =
  Some [chunkObject taggedDocument 0 1 0 (docText taggedDocument);
        chunkObject plainArticle 1 1 0 (docText plainArticle)] /\
  chunk_metadata (chunkObject taggedDocument 0 1 0 (docText taggedDocument))
    !! "chunkIndex" = Some (JsNumber 7) /\
  chunk_metadata (chunkObject plainArticle 1 1 0 (docText plainArticle))
    !! "chunkIndex" = Some (JsNumber 0).
Proof.
  destruct (processDocuments_short_documents 0 stuckChunker
              [taggedDocument; plainArticle]) as [Hrun Hmeta].
  - repeat constructor; vm_compute; discriminate.
  - split; [exact Hrun |]. split.
    + exact (proj1 (proj2 (Hmeta taggedDocument 0%nat))).
    + exact (proj1 (proj2 (Hmeta plainArticle 1%nat))).
Defined.

Lemma concat_empty_cons (x : string) (l : list string) :
  String.concat EmptyString (x :: l) = String.append x (String.concat EmptyString l).
Proof.
  destruct l as [|y l]; simpl; [|reflexivity].
  induction x as [|a x IH]; [reflexivity |].
  change (String a x = String a (String.append x EmptyString)).
  f_equal. exact IH.
Qed.

Lemma concat_empty_filter (l : list string) :
  String.concat EmptyString (filter (fun s => str_truthy s = true) l)
  = String.concat EmptyString l.
Proof.
  induction l as [|x l IH]; [reflexivity |].
  rewrite concat_empty_cons. destruct (str_truthy x) eqn:Hx.
  - rewrite filter_cons_True by exact Hx. rewrite concat_empty_cons, IH.
    reflexivity.
  - rewrite filter_cons_False by congruence. rewrite IH.
    destruct x; [reflexivity | discriminate].
Qed.

(** X28. The streaming generator asks the model once, with the same history
    and the same prompt as [generateResponse] for the same arguments. It
    yields the chunk texts of the model in order without the empty ones,
    so the yielded fragments joined are the chunk texts joined; when the
    model fails, the fragments before the failure have been yielded and
    the error is wrapped. *)
Theorem generateStreamingResponse_fragments env queryText retrievedDocs chatHistory w :
  let turns := formatHistory chatHistory in
  let prompt := buildPrompt (formatContext retrievedDocs) queryText in
  let answer := gemini_sendMessageStream env (trace w) turns prompt in
  let run := generateStreamingResponse env queryText retrievedDocs chatHistory w in
  fst run = log_event (EvGenerateStream turns prompt) w /\
  fst (generateResponse env queryText retrievedDocs chatHistory w)
    = log_event (EvGenerate turns prompt) w /\
  Forall (fun fragment => fragment <> EmptyString) (fst (snd run)) /\
  sublist (fst (snd run)) (fst answer) /\
  String.concat EmptyString (fst (snd run)) = String.concat EmptyString (fst answer) /\
  snd (snd run) = String.append "Gemini API streaming error: " <$> snd answer.
Proof.
  intros turns prompt answer run. unfold run, generateStreamingResponse.
  fold turns. fold prompt. fold answer.
  rewrite generateResponse_run.
  destruct answer as [chunkTexts failure]. simpl.
  repeat split.
  - apply Forall_forall. intros fragment Hin.
    apply list_elem_of_filter in Hin as [Htruthy _].
    intros ->. discriminate Htruthy.
  - apply sublist_filter.
  - apply concat_empty_filter.
Qed.

(** X29. [query] asks for the embedding of the query and then for the nearest
    points, five unless topK says otherwise, with no score threshold. When
    the embedding fails no search is made. An error of either step
    reaches the caller wrapped twice: in the message of the step and in
    the message of [query]. *)
Theorem query_calls_and_errors env rag queryText options w :
  let input := InputText (_truncateText (rag_embeddingService rag) queryText) in
  let collection := collectionName (rag_vectorStore rag) in
  let w1 := log_event (EvEmbed input) w in
  query env rag queryText options w =
  match embed_post env (trace w) input with
  | inl message =>
      (w1, Throw (String.append "Failed to query RAG system: "
                    (String.append "Failed to generate embedding: " message)))
  | inr [] =>
      (w1, Throw (String.append "Failed to query RAG system: "
                    (String.append "Failed to generate embedding: "
                       "Cannot read properties of undefined (reading 'embedding')")))
  | inr (e :: _) =>
      let request :=
        {| sr_vector := e; sr_limit := default 5%nat (qo_topK options);
           sr_with_payload := true; sr_with_vectors := false;
           sr_score_threshold := None |} in
      (log_event (EvSearch collection request) w1,
       match qdrant_search env (trace w1) collection request with
       | inl message =>
           Throw (String.append "Failed to query RAG system: "
                    (String.append "Qdrant search failed: " message))
       | inr hits => Ok (map hitDocument hits)
       end)
  end.
Proof.
  intros input collection w1. unfold query, try_catch.
  unfold bind at 1. rewrite embedText_run. fold input. fold w1.
  destruct (embed_post env (trace w) input) as [m | [|e data]];
    [reflexivity | reflexivity |].
  unfold bind at 1. rewrite similaritySearch_run. cbv zeta. fold collection.
  simpl default.
  match goal with
  | |- context [qdrant_search env ?tr collection ?req] =>
      destruct (qdrant_search env tr collection req) as [m | hits]
  end; reflexivity.
Qed.
